(** * AI Recipe Chef: the fallback recipe generator, the daily usage limiter
      and the subscription webhook, embedded and verified.

    Sources embedded here:
    - the browser application class [RecipeApp] (template catalog, ingredient
      matcher, recipe customizer),
    - [src/middleware/rateLimiter.js] ([recipeGenerationLimiter],
      [webhookLimiter]),
    - [src/middleware/auth.js] ([optionalAuth], [authenticateToken],
      [requirePremium]),
    - [src/middleware/errorHandler.js] ([errorHandler]),
    - the recipe route ([router.post('/generate-recipe')], [enhanceRecipe]),
    - the subscription route ([router.post('/webhook')] and its handlers). *)

From Stdlib Require Import ZArith NArith Ascii String Lia.
From stdpp Require Import base option list gmap strings.

Set Default Proof Using "Type".
Local Open Scope N_scope.

(** ** JavaScript strings

    A JavaScript string is a sequence of UTF-16 code units: [length],
    [includes], [split], [replace] and a regular expression without the [u]
    flag all work on code units.  Literals are written as in the source files
    (UTF-8 text) and converted by [js]. *)

Module JsString.

Definition jsstring := list N.

Fixpoint bytes_of (s : string) : list N :=
  match s with
  | EmptyString => []
  | String c s' => N_of_ascii c :: bytes_of s'
  end.

Definition cont (b : N) : N := N.land b 0x3F.

(** Code points of a well-formed UTF-8 byte sequence (a truncated trailing
    sequence is dropped). *)
Fixpoint utf8_points (bs : list N) : list N :=
  match bs with
  | [] => []
  | b :: r =>
    if b <? 0x80 then b :: utf8_points r
    else if b <? 0xE0 then
      match r with
      | c1 :: r1 =>
        N.lor (N.shiftl (N.land b 0x1F) 6) (cont c1) :: utf8_points r1
      | _ => []
      end
    else if b <? 0xF0 then
      match r with
      | c1 :: c2 :: r2 =>
        N.lor (N.shiftl (N.land b 0x0F) 12)
              (N.lor (N.shiftl (cont c1) 6) (cont c2)) :: utf8_points r2
      | _ => []
      end
    else
      match r with
      | c1 :: c2 :: c3 :: r3 =>
        N.lor (N.shiftl (N.land b 0x07) 18)
              (N.lor (N.shiftl (cont c1) 12)
                     (N.lor (N.shiftl (cont c2) 6) (cont c3))) :: utf8_points r3
      | _ => []
      end
  end.

(** UTF-16 encoding of one code point: one unit in the basic plane, a
    surrogate pair above it. *)
Definition utf16_units (cp : N) : list N :=
  if cp <? 0x10000 then [cp]
  else
    let v := cp - 0x10000 in
    [0xD800 + N.shiftr v 10; 0xDC00 + N.land v 0x3FF].

Definition js (s : string) : jsstring :=
  flat_map utf16_units (utf8_points (bytes_of s)).

(** [s.startsWith(t)] *)
Fixpoint startsWith (s t : jsstring) {struct t} : bool :=
  match t, s with
  | [], _ => true
  | _ :: _, [] => false
  | b :: t', a :: s' => (a =? b) && startsWith s' t'
  end.

(** [s.includes(t)]: [t] occurs in [s] as a run of consecutive code units. *)
Fixpoint includes (s t : jsstring) : bool :=
  startsWith s t ||
  match s with
  | [] => false
  | _ :: s' => includes s' t
  end.

(** [s.replace(from, to)] with a string pattern: only the first occurrence is
    replaced.  (The replacement strings of this program contain no [$], so no
    replacement pattern is involved.) *)
Fixpoint String_replace (s from to : jsstring) : jsstring :=
  if startsWith s from then to ++ drop (length from) s
  else
    match s with
    | [] => []
    | a :: s' => a :: String_replace s' from to
    end.

(** [s.split(sep)] for a one-unit separator given as a predicate (this also
    covers the class [/[,\n]/]). *)
Fixpoint split_on (sep : N -> bool) (s : jsstring) : list jsstring :=
  match s with
  | [] => [[]]
  | a :: s' =>
    if sep a then [] :: split_on sep s'
    else
      match split_on sep s' with
      | [] => [[a]]
      | w :: ws => (a :: w) :: ws
      end
  end.

(** [s.split(' ')[0]] *)
Definition first_word (s : jsstring) : jsstring :=
  hd [] (split_on (N.eqb 0x20) s).

(** [arr.join(sep)] *)
Fixpoint join (sep : jsstring) (l : list jsstring) : jsstring :=
  match l with
  | [] => []
  | [s] => s
  | s :: l' => s ++ sep ++ join sep l'
  end.

(** ECMAScript WhiteSpace and LineTerminator code units, the set removed by
    [trim]. *)
Definition is_space (u : N) : bool :=
  existsb (N.eqb u)
    [0x09; 0x0A; 0x0B; 0x0C; 0x0D; 0x20; 0xA0; 0x1680; 0x2000; 0x2001;
     0x2002; 0x2003; 0x2004; 0x2005; 0x2006; 0x2007; 0x2008; 0x2009; 0x200A;
     0x2028; 0x2029; 0x202F; 0x205F; 0x3000; 0xFEFF].

Fixpoint trimStart (s : jsstring) : jsstring :=
  match s with
  | [] => []
  | a :: s' => if is_space a then trimStart s' else s
  end.

Definition trim (s : jsstring) : jsstring :=
  rev (trimStart (rev (trimStart s))).

(** [s === t] *)
Fixpoint eqb_str (s t : jsstring) : bool :=
  match s, t with
  | [], [] => true
  | a :: s', b :: t' => (a =? b) && eqb_str s' t'
  | _, _ => false
  end.

(** Truthiness of a string: non-empty. *)
Definition truthy (s : jsstring) : bool :=
  match s with [] => false | _ => true end.

(** [toLowerCase] restricted to Basic Latin: capitals [A]..[Z] are shifted,
    every other unit is kept.  On text made of Basic Latin, Hangul and emoji
    (which have no case) this is what ECMAScript computes; the development
    below is parametric in the lower-casing function and uses this one only
    to evaluate concrete inputs. *)
Definition lower_unit (u : N) : N :=
  if (0x41 <=? u) && (u <=? 0x5A) then u + 0x20 else u.

Definition toLowerCaseLatin (s : jsstring) : jsstring := map lower_unit s.

End JsString.

Import JsString.

(** ** Property lookup in an object literal

    [obj[key]] on an object literal finds the literal's own keys first and
    then the members every object inherits from [Object.prototype]; for those
    the result is a function (or the prototype itself), never a table entry. *)

Module JsObject.

Inductive property (A : Type) : Type :=
| Own (v : A)
| Inherited
| Undefined.
Arguments Own {A} v.
Arguments Inherited {A}.
Arguments Undefined {A}.

Definition object_prototype_names : list jsstring :=
  [js "constructor"; js "hasOwnProperty"; js "isPrototypeOf";
   js "propertyIsEnumerable"; js "toLocaleString"; js "toString";
   js "valueOf"; js "__proto__"; js "__defineGetter__";
   js "__defineSetter__"; js "__lookupGetter__"; js "__lookupSetter__"].

Definition inherited_name (k : jsstring) : bool :=
  existsb (eqb_str k) object_prototype_names.

Definition get {A : Type} (obj : list (jsstring * A)) (k : jsstring)
  : property A :=
  match List.find (fun p => eqb_str (fst p) k) obj with
  | Some p => Own (snd p)
  | None => if inherited_name k then Inherited else Undefined
  end.

End JsObject.

Import JsObject.

(** ** Data model of the fallback generator *)

Record nutrition_info : Type := {
  calories : jsstring;
  protein : jsstring;
  carbs : jsstring;
  fat : jsstring
}.

Record recipe : Type := {
  name : jsstring;
  description : jsstring;
  prepTime : jsstring;
  cookTime : jsstring;
  totalTime : jsstring;
  servings : jsstring;
  difficulty : jsstring;
  ingredients : list jsstring;
  instructions : list jsstring;
  tips : list jsstring;
  nutrition : option nutrition_info
}.

(** The object returned by [getRecipeTemplates]; its keys in insertion order.
    (The key [default] is spelled [default_] here.) *)
Record templates : Type := {
  korean : list recipe;
  italian : list recipe;
  asian : list recipe;
  mexican : list recipe;
  default_ : list recipe
}.

(** Values of the form's fields, as collected by [getFormData]. *)
Record formData : Type := {
  form_ingredients : jsstring;
  cuisine : jsstring;
  cookingTime : jsstring;
  dietary : jsstring;
  skillLevel : jsstring
}.

Definition set_name (r : recipe) (n : jsstring) : recipe :=
  {| name := n; description := description r; prepTime := prepTime r;
     cookTime := cookTime r; totalTime := totalTime r; servings := servings r;
     difficulty := difficulty r; ingredients := ingredients r;
     instructions := instructions r; tips := tips r;
     nutrition := nutrition r |}.

Definition set_ingredients (r : recipe) (l : list jsstring) : recipe :=
  {| name := name r; description := description r; prepTime := prepTime r;
     cookTime := cookTime r; totalTime := totalTime r; servings := servings r;
     difficulty := difficulty r; ingredients := l;
     instructions := instructions r; tips := tips r;
     nutrition := nutrition r |}.

Definition set_difficulty (r : recipe) (d : jsstring) : recipe :=
  {| name := name r; description := description r; prepTime := prepTime r;
     cookTime := cookTime r; totalTime := totalTime r; servings := servings r;
     difficulty := d; ingredients := ingredients r;
     instructions := instructions r; tips := tips r;
     nutrition := nutrition r |}.

Definition set_times (r : recipe) (p c t : jsstring) : recipe :=
  {| name := name r; description := description r; prepTime := p;
     cookTime := c; totalTime := t; servings := servings r;
     difficulty := difficulty r; ingredients := ingredients r;
     instructions := instructions r; tips := tips r;
     nutrition := nutrition r |}.

(** ** The template catalog ([getRecipeTemplates]) *)

Definition kimchi_fried_rice : recipe := {|
  name := js "김치볶음밥";
  description := js "매콤하고 고소한 한국의 대표 볶음밥";
  prepTime := js "10분";
  cookTime := js "15분";
  totalTime := js "25분";
  servings := js "2인분";
  difficulty := js "easy";
  ingredients :=
    [js "밥 2공기";
     js "김치 1컵";
     js "돼지고기 100g";
     js "달걀 2개";
     js "파 2대";
     js "마늘 2쪽";
     js "참기름 1큰술";
     js "간장 1큰술"];
  instructions :=
    [js "팬에 기름을 두르고 돼지고기를 볶아줍니다";
     js "김치를 넣고 함께 볶아줍니다";
     js "밥을 넣고 잘 섞어가며 볶아줍니다";
     js "간장으로 간을 맞추고 파를 넣습니다";
     js "달걀을 풀어서 넣고 골고루 섞어줍니다";
     js "참기름을 넣고 마무리합니다"];
  tips :=
    [js "김치는 잘 익은 것을 사용하세요";
     js "밥은 차가운 밥을 사용하면 더 맛있습니다"];
  nutrition := Some {| calories := js "약 520kcal"; protein := js "25g";
                       carbs := js "65g"; fat := js "18g" |}
|}.

Definition doenjang_stew : recipe := {|
  name := js "된장찌개";
  description := js "구수하고 진한 된장의 맛";
  prepTime := js "15분";
  cookTime := js "20분";
  totalTime := js "35분";
  servings := js "3-4인분";
  difficulty := js "easy";
  ingredients :=
    [js "된장 3큰술";
     js "두부 1/2모";
     js "감자 1개";
     js "양파 1/2개";
     js "애호박 1/3개";
     js "청양고추 2개";
     js "마늘 3쪽";
     js "멸치육수 2컵"];
  instructions :=
    [js "멸치육수를 우려냅니다";
     js "감자와 양파를 큼직하게 썰어줍니다";
     js "끓는 육수에 된장을 풀어줍니다";
     js "감자와 양파를 넣고 끓입니다";
     js "두부와 애호박, 고추를 넣습니다";
     js "마늘과 파를 넣고 마무리합니다"];
  tips :=
    [js "된장은 체에 거르면 더 부드럽습니다";
     js "두부는 마지막에 넣어 부서지지 않게 하세요"];
  nutrition := Some {| calories := js "약 180kcal"; protein := js "12g";
                       carbs := js "15g"; fat := js "8g" |}
|}.

Definition cream_pasta : recipe := {|
  name := js "크림 파스타";
  description := js "부드럽고 진한 크림소스 파스타";
  prepTime := js "10분";
  cookTime := js "20분";
  totalTime := js "30분";
  servings := js "2인분";
  difficulty := js "easy";
  ingredients :=
    [js "파스타 200g";
     js "생크림 200ml";
     js "베이컨 100g";
     js "양파 1/2개";
     js "마늘 3쪽";
     js "파마산 치즈 50g";
     js "올리브오일 2큰술";
     js "소금, 후추 약간"];
  instructions :=
    [js "파스타를 소금물에 삶아줍니다";
     js "팬에 올리브오일을 두르고 베이컨을 볶습니다";
     js "양파와 마늘을 넣고 볶아줍니다";
     js "생크림을 넣고 끓어오르면 약불로 줄입니다";
     js "삶은 파스타를 넣고 잘 섞어줍니다";
     js "파마산 치즈와 후추를 넣고 마무리합니다"];
  tips :=
    [js "파스타는 알덴테로 삶으세요";
     js "크림은 끓이면 분리될 수 있으니 주의하세요"];
  nutrition := None
|}.

Definition tomato_pasta : recipe := {|
  name := js "토마토 파스타";
  description := js "신선한 토마토의 상큼한 맛";
  prepTime := js "15분";
  cookTime := js "25분";
  totalTime := js "40분";
  servings := js "2인분";
  difficulty := js "easy";
  ingredients :=
    [js "파스타 200g";
     js "토마토 캔 1개";
     js "양파 1개";
     js "마늘 4쪽";
     js "바질 잎 10장";
     js "올리브오일 3큰술";
     js "소금, 후추";
     js "파마산 치즈"];
  instructions :=
    [js "파스타를 삶기 시작합니다";
     js "양파와 마늘을 잘게 다져줍니다";
     js "팬에 올리브오일을 두르고 양파를 볶습니다";
     js "마늘을 넣고 향이 날 때까지 볶습니다";
     js "토마토 캔을 넣고 끓여줍니다";
     js "삶은 파스타와 바질을 넣고 섞습니다"];
  tips :=
    [js "토마토는 으깨가며 볶으면 더 진한 맛이 납니다";
     js "바질은 마지막에 넣어 향을 살리세요"];
  nutrition := None
|}.

Definition stir_fried_noodles : recipe := {|
  name := js "볶음면";
  description := js "간단하고 맛있는 아시안 볶음면";
  prepTime := js "10분";
  cookTime := js "15분";
  totalTime := js "25분";
  servings := js "2인분";
  difficulty := js "easy";
  ingredients :=
    [js "라면 2개";
     js "양배추 2잎";
     js "당근 1/2개";
     js "양파 1/2개";
     js "간장 2큰술";
     js "굴소스 1큰술";
     js "참기름 1큰술";
     js "식용유 2큰술"];
  instructions :=
    [js "면을 끓는 물에 살짝 삶아줍니다";
     js "야채들을 채 썰어 준비합니다";
     js "팬에 기름을 두르고 야채를 볶습니다";
     js "면을 넣고 함께 볶아줍니다";
     js "간장과 굴소스로 간을 맞춥니다";
     js "참기름을 넣고 마무리합니다"];
  tips :=
    [js "면은 너무 오래 삶지 마세요";
     js "강한 불에서 빠르게 볶는 것이 포인트입니다"];
  nutrition := None
|}.

Definition chicken_burrito : recipe := {|
  name := js "치킨 부리또";
  description := js "매콤한 치킨과 신선한 야채의 조화";
  prepTime := js "20분";
  cookTime := js "15분";
  totalTime := js "35분";
  servings := js "2인분";
  difficulty := js "medium";
  ingredients :=
    [js "토르티야 4장";
     js "닭가슴살 300g";
     js "양파 1개";
     js "피망 1개";
     js "토마토 1개";
     js "치즈 100g";
     js "사워크림";
     js "타코 시즈닝"];
  instructions :=
    [js "닭가슴살을 먹기 좋은 크기로 자릅니다";
     js "야채들을 썰어 준비합니다";
     js "닭고기에 시즈닝을 발라 볶습니다";
     js "야채를 넣고 함께 볶아줍니다";
     js "토르티야에 재료들을 올립니다";
     js "말아서 완성합니다"];
  tips :=
    [js "토르티야는 살짝 데워서 사용하세요";
     js "속이 너무 많으면 말기 어려우니 적당히 넣으세요"];
  nutrition := None
|}.

Definition chicken_vegetable_stir_fry : recipe := {|
  name := js "닭가슴살 야채볶음";
  description := js "건강하고 담백한 고단백 요리";
  prepTime := js "10분";
  cookTime := js "15분";
  totalTime := js "25분";
  servings := js "2인분";
  difficulty := js "easy";
  ingredients :=
    [js "닭가슴살 200g";
     js "양파 1개";
     js "피망 2개";
     js "마늘 3쪽";
     js "간장 2큰술";
     js "올리브오일 2큰술";
     js "소금, 후추 약간"];
  instructions :=
    [js "닭가슴살을 한입 크기로 자릅니다";
     js "야채들을 적당한 크기로 썰어둡니다";
     js "팬에 기름을 두르고 닭가슴살을 볶습니다";
     js "닭고기가 익으면 야채를 넣고 볶습니다";
     js "간장으로 간을 맞추고 잘 섞어줍니다";
     js "소금과 후추로 마지막 간을 맞춥니다"];
  tips :=
    [js "닭가슴살은 너무 오래 볶으면 퍽퍽해집니다";
     js "야채는 아삭한 식감을 살려주세요"];
  nutrition := Some {| calories := js "약 350kcal"; protein := js "35g";
                       carbs := js "12g"; fat := js "18g" |}
|}.

Definition egg_fried_rice : recipe := {|
  name := js "계란볶음밥";
  description := js "간단하지만 맛있는 기본 볶음밥";
  prepTime := js "5분";
  cookTime := js "10분";
  totalTime := js "15분";
  servings := js "1인분";
  difficulty := js "easy";
  ingredients :=
    [js "밥 1공기";
     js "계란 2개";
     js "파 1대";
     js "마늘 1쪽";
     js "간장 1큰술";
     js "참기름 1작은술";
     js "식용유 2큰술";
     js "소금 약간"];
  instructions :=
    [js "계란을 풀어서 소금으로 간합니다";
     js "팬에 기름을 두르고 계란을 스크램블합니다";
     js "마늘을 넣고 볶아줍니다";
     js "밥을 넣고 계란과 섞어 볶습니다";
     js "간장과 파를 넣어 볶습니다";
     js "참기름을 넣고 마무리합니다"];
  tips :=
    [js "계란은 부드럽게 스크램블하세요";
     js "찬밥을 사용하면 더 고슬고슬합니다"];
  nutrition := None
|}.

Definition salad : recipe := {|
  name := js "샐러드";
  description := js "신선하고 건강한 야채 샐러드";
  prepTime := js "15분";
  cookTime := js "0분";
  totalTime := js "15분";
  servings := js "2인분";
  difficulty := js "easy";
  ingredients :=
    [js "양상추 1통";
     js "토마토 2개";
     js "오이 1개";
     js "당근 1/2개";
     js "올리브오일 3큰술";
     js "식초 1큰술";
     js "소금, 후추";
     js "치즈 (선택)"];
  instructions :=
    [js "양상추는 찬물에 씻어 물기를 제거합니다";
     js "토마토는 먹기 좋은 크기로 자릅니다";
     js "오이와 당근을 슬라이스합니다";
     js "모든 야채를 그릇에 담습니다";
     js "올리브오일과 식초를 섞어 드레싱을 만듭니다";
     js "드레싱을 뿌리고 섞어서 완성합니다"];
  tips :=
    [js "야채는 차갑게 보관했다 사용하세요";
     js "드레싱은 먹기 직전에 뿌리세요"];
  nutrition := None
|}.

Definition getRecipeTemplates : templates := {|
  korean := [kimchi_fried_rice; doenjang_stew];
  italian := [cream_pasta; tomato_pasta];
  asian := [stir_fried_noodles];
  mexican := [chicken_burrito];
  default_ := [chicken_vegetable_stir_fry; egg_fried_rice; salad]
|}.

(** ** The fallback generator: matcher and customizer *)

Record time_adjustment : Type := {
  prep : jsstring;
  cook : jsstring;
  total : jsstring
}.

Record substitution : Type := {
  from : jsstring;
  to : jsstring
}.

Record restriction : Type := {
  replace : list substitution;
  avoid : list jsstring
}.

Definition timeAdjustments : list (jsstring * time_adjustment) :=
  [(js "quick", {| prep := js "5분"; cook := js "10분"; total := js "15분" |});
   (js "medium", {| prep := js "10분"; cook := js "20분"; total := js "30분" |});
   (js "long", {| prep := js "15분"; cook := js "45분"; total := js "60분" |});
   (js "extended",
    {| prep := js "30분"; cook := js "90분"; total := js "120분" |})].

Definition restrictions : list (jsstring * restriction) :=
  [(js "vegetarian",
    {| replace := [ {| from := js "닭가슴살"; to := js "두부" |};
                    {| from := js "돼지고기"; to := js "버섯" |};
                    {| from := js "쇠고기"; to := js "콩고기" |} ];
       avoid := [js "고기"; js "생선"; js "새우"] |});
   (js "vegan",
    {| replace := [ {| from := js "달걀"; to := js "아쿠아파바" |};
                    {| from := js "우유"; to := js "두유" |};
                    {| from := js "버터"; to := js "올리브오일" |};
                    {| from := js "치즈"; to := js "영양효모" |} ];
       avoid := [js "고기"; js "생선"; js "달걀"; js "유제품"] |});
   (js "gluten-free",
    {| replace := [ {| from := js "밀가루"; to := js "쌀가루" |};
                    {| from := js "면"; to := js "쌀면" |};
                    {| from := js "빵"; to := js "쌀빵" |} ];
       avoid := [js "밀가루"; js "글루텐"] |});
   (js "keto",
    {| replace := [ {| from := js "쌀"; to := js "콜리플라워 라이스" |};
                    {| from := js "감자"; to := js "무" |};
                    {| from := js "설탕"; to := js "스테비아" |} ];
       avoid := [js "쌀"; js "면"; js "감자"; js "설탕"] |})].

Definition levelMap : list (jsstring * jsstring) :=
  [(js "beginner", js "easy");
   (js "intermediate", js "medium");
   (js "advanced", js "hard")].

Definition cuisineEmojis : list (jsstring * jsstring) :=
  [(js "korean", js "🍚");
   (js "italian", js "🍝");
   (js "asian", js "🍜");
   (js "mexican", js "🌮");
   (js "american", js "🍔");
   (js "mediterranean", js "🥙");
   (js "indian", js "🍛");
   (js "french", js "🥐")].

(** The character class of [/[🍳🍝🍚🍜🌮🍔🥙🍛🥐]/].  The expression carries
    no [u] flag, so the class is a set of code units (the halves of the
    surrogate pairs) and [name.match] succeeds as soon as the name holds one
    of them. *)
Definition marker_class : jsstring := js "🍳🍝🍚🍜🌮🍔🥙🍛🥐".

Definition matches_marker_class (s : jsstring) : bool :=
  existsb (fun u => existsb (N.eqb u) marker_class) s.

(** Lines 718-733 of the customizer: the cuisine emoji.  [None] stands for a
    cuisine value naming an inherited member of [Object.prototype], for which
    a function is interpolated into the name. *)
Definition cuisineEmojiStep (cuisine_value nm : jsstring) : option jsstring :=
  if matches_marker_class nm then Some nm
  else
    match get cuisineEmojis cuisine_value with
    | Own emoji => Some (emoji ++ js " " ++ nm)
    | Undefined => Some (js "🍳" ++ js " " ++ nm)
    | Inherited => None
    end.

(** [applyDietaryRestrictions].  [None]: the dietary value names an inherited
    member, [restriction.replace] is [undefined] and [forEach] on it throws a
    [TypeError]. *)
Definition applyDietaryRestrictions (r : recipe) (dietary_value : jsstring)
  : option recipe :=
  match get restrictions dietary_value with
  | Undefined => Some r
  | Inherited => None
  | Own restriction =>
    let modifiedIngredients :=
      fold_left
        (fun modifiedIngredients s =>
           map (fun ingredient =>
                  if includes ingredient (from s)
                  then String_replace ingredient (from s) (to s)
                  else ingredient)
               modifiedIngredients)
        (replace restriction) (ingredients r) in
    Some (set_name (set_ingredients r modifiedIngredients)
                   (name r ++ js " (" ++ dietary_value ++ js ")"))
  end.

(** [adjustDifficulty]: [levelMap[skillLevel] || currentDifficulty]. *)
Definition adjustDifficulty (currentDifficulty skillLevel_value : jsstring)
  : option jsstring :=
  match get levelMap skillLevel_value with
  | Own d => Some d
  | Undefined => Some currentDifficulty
  | Inherited => None
  end.

Section Fallback.

(** [String.prototype.toLowerCase], the Unicode lower-casing of the host. *)
Variable toLowerCase : jsstring -> jsstring.

Definition parseIngredients (ingredientsString : jsstring) : list jsstring :=
  List.filter (fun ingredient => (0 <? length ingredient)%nat)
    (map trim
       (split_on (fun u => (u =? 0x2C) || (u =? 0x0A))
                 (toLowerCase ingredientsString))).

(** The recipes the matcher walks through, in its order. *)
Definition allRecipes (recipes : templates) : list recipe :=
  korean recipes ++ italian recipes ++ asian recipes ++ default_ recipes.

(** The inner [forEach] of the matcher: one point per user ingredient found
    in the lower-cased, space-joined ingredient text. *)
Definition score (userIngredients : list jsstring) (r : recipe) : nat :=
  let recipeIngredients := toLowerCase (join (js " ") (ingredients r)) in
  fold_left
    (fun score userIngredient =>
       if includes recipeIngredients userIngredient then S score else score)
    userIngredients 0%nat.

Definition best_step (userIngredients : list jsstring)
    (best : option recipe * nat) (r : recipe) : option recipe * nat :=
  let '(bestMatch, bestScore) := best in
  let sc := score userIngredients r in
  if (bestScore <? sc)%nat then (Some r, sc) else (bestMatch, bestScore).

(** [findBestMatchingRecipe]; [None] is [undefined] (an empty [allRecipes]). *)
Definition findBestMatchingRecipe (userIngredients : list jsstring)
    (recipes : templates) : option recipe :=
  fst (fold_left (best_step userIngredients) (allRecipes recipes)
                 (head (allRecipes recipes), 0%nat)).

(** The test of lines 680-683, against the list as grown so far. *)
Definition isAlreadyIncluded (customizedIngredients : list jsstring)
    (userIngredient : jsstring) : bool :=
  existsb
    (fun ingredient =>
       includes (toLowerCase ingredient) userIngredient
       || includes userIngredient (first_word (toLowerCase ingredient)))
    customizedIngredients.

(** One round of the [forEach] of lines 679-689. *)
Definition addUserIngredient (customizedIngredients : list jsstring)
    (userIngredient : jsstring) : list jsstring :=
  if negb (isAlreadyIncluded customizedIngredients userIngredient)
     && (2 <? length userIngredient)%nat
  then customizedIngredients ++ [userIngredient ++ js " 적당량"]
  else customizedIngredients.

Definition addUserIngredients (recipeIngredients userIngredients
    : list jsstring) : list jsstring :=
  fold_left addUserIngredient userIngredients recipeIngredients.

Definition adjustTimes (r : recipe) (cookingTime_value : jsstring)
  : option recipe :=
  if truthy cookingTime_value then
    match get timeAdjustments cookingTime_value with
    | Own adjustment =>
      Some (set_times r (prep adjustment) (cook adjustment) (total adjustment))
    | Undefined => Some r
    | Inherited => None
    end
  else Some r.

(** [customizeRecipe].  [None] stands for a form value that names an inherited
    member of [Object.prototype]: the code then throws or stores a value that
    is not a string, which a [recipe] cannot hold. *)
Definition customizeRecipe (r : recipe) (fd : formData)
    (userIngredients : list jsstring) : option recipe :=
  let customizedIngredients :=
    addUserIngredients (ingredients r) userIngredients in
  customizedRecipe ← adjustTimes r (cookingTime fd);
  customizedRecipe ←
    (if truthy (dietary fd)
     then applyDietaryRestrictions customizedRecipe (dietary fd)
     else Some customizedRecipe);
  customizedRecipe ←
    (if truthy (skillLevel fd)
     then d ← adjustDifficulty (difficulty customizedRecipe) (skillLevel fd);
          Some (set_difficulty customizedRecipe d)
     else Some customizedRecipe);
  nm ← cuisineEmojiStep (cuisine fd) (name customizedRecipe);
  Some (set_ingredients (set_name customizedRecipe nm) customizedIngredients).

End Fallback.


(** ** The server side: store, client and responses

    The server keeps its state in two tables of the hosted database, reached
    through a client whose calls resolve to a [{ data, error }] pair (a failed
    call reports in [error]; it does not reject).  Identifiers, status names
    and error codes are plain ASCII text and are written as [string]; instants
    are milliseconds since the epoch. *)

Module Backend.

Local Open Scope Z_scope.

(** A row of [public.users], restricted to the columns the code touches. *)
Record user_row : Type := {
  subscription_status : string;
  subscription_tier : string;
  subscription_start_date : option Z;
  subscription_end_date : option Z;
  updated_at : Z
}.

(** A row of [public.recipe_usage]; [(identifier, date)] is its unique key
    and is the key of the table below.  [date] is the UTC day number. *)
Record usage_row : Type := {
  count : Z;
  user_id : option string
}.

Record db : Type := {
  users : gmap string user_row;
  recipe_usage : gmap (string * Z) usage_row
}.

Record pg_error : Type := { code : string }.

(** PostgREST's answer to [.single()] when the filter selects no row. *)
Definition no_rows : pg_error := {| code := "PGRST116" |}.

(** The columns an [update] on [users] may set. *)
Record user_patch : Type := {
  set_status : option string;
  set_tier : option string;
  set_start_date : option Z;
  set_end_date : option Z;
  set_updated_at : option Z
}.

Definition apply_patch (p : user_patch) (u : user_row) : user_row :=
  {| subscription_status := default (subscription_status u) (set_status p);
     subscription_tier := default (subscription_tier u) (set_tier p);
     subscription_start_date :=
       match set_start_date p with
       | Some t => Some t
       | None => subscription_start_date u
       end;
     subscription_end_date :=
       match set_end_date p with
       | Some t => Some t
       | None => subscription_end_date u
       end;
     updated_at := default (updated_at u) (set_updated_at p) |}.

(** The calls the code issues against the client. *)
Inductive op : Type :=
| SelectUser (id : string)
| SelectUsage (identifier : string) (date : Z)
| UpdateUsage (identifier : string) (date : Z) (new_count : Z)
| InsertUsage (identifier : string) (date : Z) (new_count : Z)
              (uid : option string)
| UpdateUser (id : option string) (p : user_patch).

(** What surrounds one request: the clock (read once per request) and, for
    each call, whether the service fails it and with which error.  The clock
    is taken from the range in which the dates the code builds from it (up to
    a day ahead) are dates [toISOString] accepts. *)
Record environment : Type := {
  now : Z;
  fault : op -> option pg_error
}.

(** [new Date().toISOString().split('T')[0]], as a day number. *)
Definition today (env : environment) : Z := now env / 86400000.

Record world : Type := {
  store : db;
  trace : list op
}.

(** Computations that read and write the store and record their calls. *)
Definition M (A : Type) : Type := world -> A * world.

#[global] Instance M_ret : MRet M := fun A x w => (x, w).
#[global] Instance M_bind : MBind M :=
  fun A B f m w => let '(x, w') := m w in f x w'.

Definition call (o : op) (w : world) : world :=
  {| store := store w; trace := trace w ++ [o] |}.

Definition put (d : db) (w : world) : world :=
  {| store := d; trace := trace w |}.

(** [from('users').select(...).eq('id', id).single()] *)
Definition select_user (env : environment) (id : string)
  : M (option user_row * option pg_error) :=
  fun w =>
    let w' := call (SelectUser id) w in
    match fault env (SelectUser id) with
    | Some e => ((None, Some e), w')
    | None =>
      match users (store w) !! id with
      | Some row => ((Some row, None), w')
      | None => ((None, Some no_rows), w')
      end
    end.

(** [from('recipe_usage').select('count').eq(...).eq(...).single()] *)
Definition select_usage (env : environment) (identifier : string) (date : Z)
  : M (option usage_row * option pg_error) :=
  fun w =>
    let w' := call (SelectUsage identifier date) w in
    match fault env (SelectUsage identifier date) with
    | Some e => ((None, Some e), w')
    | None =>
      match recipe_usage (store w) !! (identifier, date) with
      | Some row => ((Some row, None), w')
      | None => ((None, Some no_rows), w')
      end
    end.

(** [from('recipe_usage').update({ count }).eq(...).eq(...)] *)
Definition update_usage (env : environment) (identifier : string) (date : Z)
    (new_count : Z) : M (option pg_error) :=
  fun w =>
    let o := UpdateUsage identifier date new_count in
    let w' := call o w in
    match fault env o with
    | Some e => (Some e, w')
    | None =>
      (None,
       put {| users := users (store w);
              recipe_usage :=
                alter (fun row => {| count := new_count;
                                     user_id := user_id row |})
                      (identifier, date) (recipe_usage (store w)) |} w')
    end.

(** Postgres' unique-violation error, raised by an insert on a taken key. *)
Definition unique_violation : pg_error := {| code := "23505" |}.

(** [from('recipe_usage').insert({ identifier, date, count, user_id })] *)
Definition insert_usage (env : environment) (identifier : string) (date : Z)
    (new_count : Z) (uid : option string) : M (option pg_error) :=
  fun w =>
    let o := InsertUsage identifier date new_count uid in
    let w' := call o w in
    match fault env o with
    | Some e => (Some e, w')
    | None =>
      match recipe_usage (store w) !! (identifier, date) with
      | Some _ => (Some unique_violation, w')
      | None =>
        (None,
         put {| users := users (store w);
                recipe_usage :=
                  <[(identifier, date) :=
                      {| count := new_count; user_id := uid |}]>
                    (recipe_usage (store w)) |} w')
      end
    end.

(** [from('users').update(patch).eq('id', id)]; an [undefined] id selects no
    row. *)
Definition update_user (env : environment) (id : option string)
    (p : user_patch) : M (option pg_error) :=
  fun w =>
    let o := UpdateUser id p in
    let w' := call o w in
    match fault env o with
    | Some e => (Some e, w')
    | None =>
      match id with
      | Some i =>
        (None,
         put {| users := alter (apply_patch p) i (users (store w));
                recipe_usage := recipe_usage (store w) |} w')
      | None => (None, w')
      end
    end.

(** JSON values of response bodies.  [JObject] is an object the model does
    not look into. *)
Inductive json_value : Type :=
| JString (s : string)
| JNumber (n : Z)
| JBool (b : bool)
| JErrors (l : list (string * string))
| JRecipe (r : recipe)
| JObject.

Inductive payload : Type :=
| Json (fields : list (string * json_value))
| Text (s : string).

Record response : Type := {
  status : Z;
  body : payload
}.

(** [res.json(...)] answers with status 200 unless [res.status] was called. *)
Definition json (st : Z) (fields : list (string * json_value)) : response :=
  {| status := st; body := Json fields |}.

Fixpoint assoc (k : string) (l : list (string * json_value))
  : option json_value :=
  match l with
  | [] => None
  | (k', v) :: l' => if String.eqb k k' then Some v else assoc k l'
  end.

(** The member [k] of a JSON body. *)
Definition field (k : string) (r : response) : option json_value :=
  match body r with
  | Json fields => assoc k fields
  | Text _ => None
  end.

Inductive header_value : Type :=
| HNumber (n : Z)
| HInstant (t : Z).

(** How a middleware ends: it answers, or it hands over with [next()] after
    setting response headers. *)
Inductive outcome : Type :=
| Respond (r : response)
| Next (headers : list (string * header_value)).

Record request : Type := {
  user : option string;              (* [req.user?.id] *)
  ip : string;                       (* [req.ip || req.connection.remoteAddress] *)
  authorization : option jsstring    (* [req.headers.authorization] *)
}.

(** [userId] when it is truthy (defined and not the empty string). *)
Definition truthy_id (userId : option string) : option string :=
  match userId with
  | Some s => if String.eqb s "" then None else Some s
  | None => None
  end.

End Backend.

Import Backend.

(** ** [recipeGenerationLimiter] *)

Module RateLimiter.

Local Open Scope Z_scope.

Definition internal_server_error : response :=
  json 500 [("error"%string, JString "Internal server error")].

Definition maxFreeRecipes : Z := 3.

Definition limit_reached (currentCount : Z) : response :=
  json 429
    [("error"%string, JString "Daily recipe limit reached");
     ("message"%string,
      JString "You have reached your daily limit of 3 free recipes. Please upgrade to Premium for unlimited recipes.");
     ("limit"%string, JNumber maxFreeRecipes);
     ("current"%string, JNumber currentCount);
     ("upgradeUrl"%string, JString "/membership")].

(** Lines 29-46: the premium check.  [Some o] ends the middleware with [o]. *)
Definition premium_check (env : environment) (userId : option string)
  : M (option outcome) :=
  match truthy_id userId with
  | Some id =>
    '(user_row, error) ← select_user env id;
    match error with
    | Some _ => mret (Some (Respond internal_server_error))
    | None =>
      match user_row with
      | Some u =>
        if String.eqb (subscription_status u) "active"
           && String.eqb (subscription_tier u) "premium"
        then mret (Some (Next []))
        else mret None
      | None => mret None
      end
    end
  | None => mret None
  end.

Definition recipeGenerationLimiter (env : environment) (req : request)
  : M outcome :=
  let userId := user req in
  let ipAddress := ip req in
  early ← premium_check env userId;
  match early with
  | Some o => mret o
  | None =>
    let identifier := default ipAddress (truthy_id userId) in
    '(usageRecord, usageError) ← select_usage env identifier (today env);
    if match usageError with
       | Some e => negb (String.eqb (code e) "PGRST116")
       | None => false
       end
    then mret (Respond internal_server_error)
    else
      let currentCount :=
        match usageRecord with
        | Some row => count row
        | None => 0
        end in
      if maxFreeRecipes <=? currentCount
      then mret (Respond (limit_reached currentCount))
      else
        _ ← match usageRecord with
            | Some _ =>
              update_usage env identifier (today env) (currentCount + 1)
            | None =>
              insert_usage env identifier (today env) 1 userId
            end;
        mret (Next [("X-RateLimit-Remaining"%string,
                     HNumber (maxFreeRecipes - currentCount - 1));
                    ("X-RateLimit-Limit"%string, HNumber maxFreeRecipes);
                    ("X-RateLimit-Reset"%string,
                     HInstant (now env + 24 * 60 * 60 * 1000))])
  end.

End RateLimiter.

Import RateLimiter.

(** ** The recipe route: [optionalAuth], validation, [enhanceRecipe] *)

Module RecipeRoute.

Local Open Scope Z_scope.

(** The JSON body of a generation request; a field is absent or a string. *)
Record request_body : Type := {
  body_ingredients : option jsstring;
  body_cuisine : option jsstring;
  body_cookingTime : option jsstring;
  body_dietary : option jsstring;
  body_skillLevel : option jsstring
}.

(** A member of the object parsed from the model's answer: the key is
    missing, or it holds a value of the type the application expects, or it
    holds some other JSON value ([null], a number, ...). *)
Inductive member (A : Type) : Type :=
| Missing
| Member (v : A)
| OtherValue.

Arguments Missing {A}.
Arguments Member {A} v.
Arguments OtherValue {A}.

(** The [name] member, the one the code calls a method of.  An array has an
    [includes] method of its own; [null], a number, a boolean and an object
    have none. *)
Inductive name_member : Type :=
| NameMissing
| NameText (s : jsstring)
| NameArray
| NameOther.

(** The recipe object parsed from the model's answer.  Keys other than
    these eleven are carried along by the code and are not represented. *)
Record ai_recipe : Type := {
  ai_name : name_member;
  ai_description : member jsstring;
  ai_prepTime : member jsstring;
  ai_cookTime : member jsstring;
  ai_totalTime : member jsstring;
  ai_servings : member jsstring;
  ai_difficulty : member jsstring;
  ai_ingredients : member (list jsstring);
  ai_instructions : member (list jsstring);
  ai_tips : member (list jsstring);
  ai_nutrition : member nutrition_info
}.

Record options : Type := {
  opt_cuisine : option jsstring;
  opt_dietary : option jsstring;
  opt_skillLevel : option jsstring
}.

(** The table of [enhanceRecipe], with the literals as the file has them. *)
Definition cuisineEmojis : list (jsstring * jsstring) :=
  [(js "korean", js "ðŸš");
   (js "italian", js "ðŸ");
   (js "asian", js "ðŸœ");
   (js "mexican", js "ðŸŒ®");
   (js "american", js "ðŸ”");
   (js "mediterranean", js "ðŸ¥™");
   (js "indian", js "ðŸ›");
   (js "french", js "ðŸ¥")].

(** The presence test of line 293, negated there. *)
Definition has_tested_marker (nm : jsstring) : bool :=
  includes nm (js "ðŸ³") || includes nm (js "ðŸ").

(** Lines 280-296: the cuisine emoji of [enhanceRecipe].  [None] as for the
    browser's step: the cuisine names an inherited member. *)
Definition cuisineEmojiStep (cuisine_value : option jsstring) (nm : jsstring)
  : option jsstring :=
  match cuisine_value with
  | Some c =>
    if truthy c then
      if negb (has_tested_marker nm) then
        match get cuisineEmojis c with
        | Own emoji => Some (emoji ++ js " " ++ nm)
        | Undefined => Some (js "ðŸ³" ++ js " " ++ nm)
        | Inherited => None
        end
      else Some nm
    else Some nm
  | None => Some nm
  end.

(** The value [enhanced] gets for a member: the trailing [...recipe] puts
    every key the parsed object has back over the defaults, so a default
    shows exactly where the key is missing.  [None]: a value a [recipe]
    cannot hold. *)
Definition or_default {A : Type} (m : member A) (d : A) : option A :=
  match m with
  | Missing => Some d
  | Member v => Some v
  | OtherValue => None
  end.

(** How [enhanceRecipe] ends. *)
Inductive enhanced_recipe : Type :=
| Enhanced (r : recipe)    (* returns an object the model represents *)
| EnhancedOutside          (* returns an object that a [recipe] cannot hold *)
| TypeError.               (* throws at [enhanced.name.includes] *)

(** [enhanceRecipe].  With a cuisine given, [enhanced.name.includes] is
    called on whatever the answer has under [name]. *)
Definition enhanceRecipe (r : ai_recipe) (o : options) : enhanced_recipe :=
  match ai_name r with
  | NameOther =>
    if from_option truthy false (opt_cuisine o) then TypeError
    else EnhancedOutside
  | NameArray => EnhancedOutside
  | (NameMissing | NameText _) as given =>
    let enhanced :=
      description ← or_default (ai_description r)
                      (js "A wonderful dish made with fresh ingredients");
      prepTime ← or_default (ai_prepTime r) (js "10ë¶„");
      cookTime ← or_default (ai_cookTime r) (js "20ë¶„");
      totalTime ← or_default (ai_totalTime r) (js "30ë¶„");
      servings ← or_default (ai_servings r) (js "2-3ì¸ë¶„");
      difficulty ← or_default (ai_difficulty r) (js "easy");
      ingredients ← or_default (ai_ingredients r) [];
      instructions ← or_default (ai_instructions r) [];
      tips ← or_default (ai_tips r) [];
      nutrition ← or_default (ai_nutrition r)
                    {| calories := js "ì•½ 400kcal"; protein := js "20g";
                       carbs := js "45g"; fat := js "15g" |};
      Some {| name := match given with
                      | NameText s => s
                      | _ => js "Delicious Recipe"
                      end;
              description := description;
              prepTime := prepTime;
              cookTime := cookTime;
              totalTime := totalTime;
              servings := servings;
              difficulty := difficulty;
              ingredients := ingredients;
              instructions := instructions;
              tips := tips;
              nutrition := Some nutrition |} in
    match enhanced with
    | Some enhanced =>
      match cuisineEmojiStep (opt_cuisine o) (name enhanced) with
      | Some nm => Enhanced (set_name enhanced nm)
      | None => EnhancedOutside
      end
    | None => EnhancedOutside
    end
  end.

(** What the remote services answer for one request.  [Unparsable]: the
    content is no JSON text, or it is [null], on which [recipe.name]
    throws. *)
Inductive parsed : Type :=
| Parsed (r : ai_recipe)
| Unparsable.

Inductive completion : Type :=
| Completed (content : parsed)
| ApiError (error_code : string).

Record services : Type := {
  (* [supabase.auth.getUser(token)]: the user's id, or nothing *)
  getUser : jsstring -> option string;
  (* [openai.chat.completions.create] followed by [JSON.parse] *)
  complete : request_body -> completion
}.

(** [optionalAuth]: sets [req.user] when the bearer token resolves to a
    user, and always hands over. *)
Definition optionalAuth (svc : services) (req : request) : request :=
  let token :=
    authHeader ← authorization req;
    if truthy authHeader
    then split_on (N.eqb 0x20) authHeader !! 1%nat
    else None in
  match token with
  | Some tk =>
    if truthy tk then
      match getUser svc tk with
      | Some id => {| user := Some id; ip := ip req;
                      authorization := authorization req |}
      | None => req
      end
    else req
  | None => req
  end.

Section Validation.

(** [isLength] of the validation library, with its [min] and [max]. *)
Variable isLength : jsstring -> nat -> nat -> bool.

Definition isIn (s : jsstring) (allowed : list jsstring) : bool :=
  existsb (eqb_str s) allowed.

(** An optional field restricted to a list of values. *)
Definition optional_in (path message : string) (v : option jsstring)
    (allowed : list jsstring) : list (string * string) :=
  match v with
  | None => []
  | Some s => if isIn s allowed then [] else [(path, message)]
  end.

(** [recipeValidation]: the errors found in a body, in rule order. *)
Definition recipeValidation (b : request_body) : list (string * string) :=
  (match body_ingredients b with
   | Some s =>
     if isLength s 3 500 then []
     else [("ingredients",
            "Ingredients must be between 3 and 500 characters")]
   | None =>
     ("ingredients", "Invalid value")
       :: (if isLength [] 3 500 then []
           else [("ingredients",
                  "Ingredients must be between 3 and 500 characters")])
   end)%string
  ++ optional_in "cuisine" "Invalid cuisine type" (body_cuisine b)
       [js "korean"; js "italian"; js "asian"; js "mexican"; js "american";
        js "mediterranean"; js "indian"; js "french"; js ""]
  ++ optional_in "cookingTime" "Invalid cooking time" (body_cookingTime b)
       [js "quick"; js "medium"; js "long"; js "extended"; js ""]
  ++ optional_in "dietary" "Invalid dietary restriction" (body_dietary b)
       [js "vegetarian"; js "vegan"; js "gluten-free"; js "low-carb";
        js "keto"; js "high-protein"; js ""]
  ++ optional_in "skillLevel" "Invalid skill level" (body_skillLevel b)
       [js "beginner"; js "intermediate"; js "advanced"].

Definition validation_failed (errors : list (string * string)) : response :=
  json 400 [("error"%string, JString "Validation failed");
            ("details"%string, JErrors errors)].

Definition generation_failed : response :=
  json 500 [("error"%string,
             JString "Failed to generate recipe. Please try again.");
            ("code"%string, JString "GENERATION_FAILED")].

(** The final handler of the route, from the validation result on.  (The
    [metadata] member of the success body is left out.) *)
Definition generate_recipe_handler (svc : services) (b : request_body)
  : response :=
  match recipeValidation b with
  | (_ :: _) as errors => validation_failed errors
  | [] =>
    match complete svc b with
    | ApiError c =>
      if String.eqb c "insufficient_quota" then
        json 503
          [("error"%string,
            JString "AI service temporarily unavailable. Please try again later.");
           ("code"%string, JString "SERVICE_UNAVAILABLE")]
      else if String.eqb c "rate_limit_exceeded" then
        json 429
          [("error"%string,
            JString "Too many requests. Please wait a moment and try again.");
           ("code"%string, JString "RATE_LIMIT")]
      else generation_failed
    | Completed Unparsable => generation_failed
    | Completed (Parsed r) =>
      match enhanceRecipe r {| opt_cuisine := body_cuisine b;
                               opt_dietary := body_dietary b;
                               opt_skillLevel := body_skillLevel b |} with
      | Enhanced enhancedRecipe =>
        json 200 [("success"%string, JBool true);
                  ("recipe"%string, JRecipe enhancedRecipe)]
      | EnhancedOutside =>
        json 200 [("success"%string, JBool true);
                  ("recipe"%string, JObject)]
      | TypeError => generation_failed
      end
    end
  end.

(** [router.post('/generate-recipe', optionalAuth, recipeGenerationLimiter,
    recipeValidation, handler)]: the middlewares in their order. *)
Definition generate_recipe_route (env : environment) (svc : services)
    (req : request) (b : request_body) : M response :=
  let req' := optionalAuth svc req in
  o ← recipeGenerationLimiter env req';
  match o with
  | Respond r => mret r
  | Next _ => mret (generate_recipe_handler svc b)
  end.

End Validation.

End RecipeRoute.

(** ** The subscription webhook *)

Module Subscription.

Local Open Scope Z_scope.

(** [event.data.object] (a checkout session, a subscription or an invoice),
    by the members the handlers read. *)
Record stripe_object : Type := {
  object_id : string;
  metadata_userId : option string;      (* [metadata.userId] *)
  metadata_plan : option string;        (* [metadata.plan] *)
  object_status : option string;        (* [subscription.status] *)
  created : option Z;                   (* seconds *)
  current_period_end : option Z;        (* seconds *)
  invoice_subscription : option string  (* [invoice.subscription] *)
}.

Record stripe_event : Type := {
  event_type : string;
  event_id : string;
  data_object : stripe_object
}.

(** What [constructEvent] returns for a payload whose signature verifies:
    [JSON.parse] of the payload, by what the route reads of it. *)
Inductive constructed : Type :=
| Event (event : stripe_event)
    (* an object whose [data.object] has the members the handlers read *)
| EventWithoutObject (type : string)
    (* [data.object] is missing, or is a session or subscription without
       [metadata] *)
| EventWithoutData (type : string)
    (* [data] is missing or [null] *)
| NoEvent.
    (* [null] *)

(** A request as it reaches the route.  [raw_body] is [req.body] when it is
    a buffer; it is [None] when an earlier parser has consumed the body or
    [express.raw] did not take it, and [constructEvent] then throws. *)
Record webhook_request : Type := {
  raw_body : option (list N);
  stripe_signature : option jsstring
}.

(** The payment provider's library. *)
Record stripe_sdk : Type := {
  (* [stripe.webhooks.constructEvent(body, sig, secret)]: what it returns,
     or the message of the error it throws *)
  constructEvent : option (list N) -> option jsstring -> constructed + string;
  (* [stripe.subscriptions.retrieve(id)]: the subscription, or nothing (a
     throw, or an object without [metadata], on which the handler's own
     read throws) *)
  retrieve : option string -> option stripe_object
}.

(** [new Date(ms).toISOString()] throws a [RangeError] outside this range. *)
Definition valid_instant (ms : Z) : bool :=
  (-8640000000000000 <=? ms) && (ms <=? 8640000000000000).

Definition no_change : user_patch :=
  {| set_status := None; set_tier := None; set_start_date := None;
     set_end_date := None; set_updated_at := None |}.

(** Every handler wraps its body in [try]/[catch] and ignores the result of
    the update, so it always returns normally. *)
Definition handleCheckoutSessionCompleted (env : environment)
    (session : stripe_object) : M unit :=
  _ ← update_user env (metadata_userId session)
        {| set_status := Some "active"%string;
           set_tier := metadata_plan session;
           set_start_date := Some (now env);
           set_end_date := None;
           set_updated_at := Some (now env) |};
  mret tt.

Definition handleSubscriptionCreated (env : environment)
    (subscription : stripe_object) : M unit :=
  match created subscription, current_period_end subscription with
  | Some c, Some e =>
    if valid_instant (c * 1000) && valid_instant (e * 1000) then
      _ ← update_user env (metadata_userId subscription)
            {| set_status := Some "active"%string;
               set_tier := Some "premium"%string;
               set_start_date := Some (c * 1000);
               set_end_date := Some (e * 1000);
               set_updated_at := Some (now env) |};
      mret tt
    else mret tt
  | _, _ => mret tt
  end.

Definition handleSubscriptionUpdated (env : environment)
    (subscription : stripe_object) : M unit :=
  match current_period_end subscription with
  | Some e =>
    if valid_instant (e * 1000) then
      _ ← update_user env (metadata_userId subscription)
            {| set_status := object_status subscription;
               set_tier := None;
               set_start_date := None;
               set_end_date := Some (e * 1000);
               set_updated_at := Some (now env) |};
      mret tt
    else mret tt
  | None => mret tt
  end.

Definition handleSubscriptionDeleted (env : environment)
    (subscription : stripe_object) : M unit :=
  _ ← update_user env (metadata_userId subscription)
        {| set_status := Some "cancelled"%string;
           set_tier := Some "free"%string;
           set_start_date := None;
           set_end_date := Some (now env);
           set_updated_at := Some (now env) |};
  mret tt.

Definition handlePaymentSucceeded (env : environment) (sdk : stripe_sdk)
    (invoice : stripe_object) : M unit :=
  match retrieve sdk (invoice_subscription invoice) with
  | Some subscription =>
    match current_period_end subscription with
    | Some e =>
      if valid_instant (e * 1000) then
        _ ← update_user env (metadata_userId subscription)
              {| set_status := Some "active"%string;
                 set_tier := None;
                 set_start_date := None;
                 set_end_date := Some (e * 1000);
                 set_updated_at := Some (now env) |};
        mret tt
      else mret tt
    | None => mret tt
    end
  | None => mret tt
  end.

(** Retrieves the subscription and logs; the store is not called. *)
Definition handlePaymentFailed (env : environment) (sdk : stripe_sdk)
    (invoice : stripe_object) : M unit :=
  mret tt.

Definition received : response := json 200 [("received"%string, JBool true)].

(** The [switch] on [event.type]. *)
Definition dispatch (env : environment) (sdk : stripe_sdk)
    (event : stripe_event) : M unit :=
  let object := data_object event in
  let type := event_type event in
  if String.eqb type "checkout.session.completed"
  then handleCheckoutSessionCompleted env object
  else if String.eqb type "customer.subscription.created"
  then handleSubscriptionCreated env object
  else if String.eqb type "customer.subscription.updated"
  then handleSubscriptionUpdated env object
  else if String.eqb type "customer.subscription.deleted"
  then handleSubscriptionDeleted env object
  else if String.eqb type "invoice.payment_succeeded"
  then handlePaymentSucceeded env sdk object
  else if String.eqb type "invoice.payment_failed"
  then handlePaymentFailed env sdk object
  else mret tt.

(** The six event types the switch handles. *)
Definition handled_types : list string :=
  ["checkout.session.completed"; "customer.subscription.created";
   "customer.subscription.updated"; "customer.subscription.deleted";
   "invoice.payment_succeeded"; "invoice.payment_failed"]%string.

Definition processing_failed : response :=
  json 500 [("error"%string, JString "Webhook processing failed")].

Definition rate_limit_exceeded : response :=
  json 429 [("error"%string, JString "Webhook rate limit exceeded")].

(** [webhookLimiter = rateLimit({ windowMs: 60 * 1000, max: 10, message })].
    The rate limiting library, which is not part of the repository, keeps
    for every client address the number of requests of the current window
    of one minute; [counted] is that number before the request at hand.
    The library counts the request and answers 429 with [message] when the
    count then exceeds [max]; [None] is [next()]. *)
Definition webhookLimiter (counted : nat) : option response :=
  if (10 <? S counted)%nat then Some rate_limit_exceeded else None.

(** The last handler of the route.  The handlers above return normally
    whatever the store and the provider's library do, so its outer [catch]
    (status 500) is reached only from the handler's own reads of the event:
    [event.type] on [null], and [event.data.object] in a handled case when
    [event.data] is missing. *)
Definition webhook_handler (env : environment) (sdk : stripe_sdk)
    (req : webhook_request) : M response :=
  match constructEvent sdk (raw_body req) (stripe_signature req) with
  | inr message =>
    mret {| status := 400;
            body := Text ("Webhook Error: " +:+ message) |}
  | inl NoEvent => mret processing_failed
  | inl (EventWithoutData type) =>
    if existsb (String.eqb type) handled_types
    then mret processing_failed
    else mret received
  | inl (EventWithoutObject type) => mret received
  | inl (Event event) =>
    _ ← dispatch env sdk event;
    mret received
  end.

(** [router.post('/webhook', webhookLimiter, express.raw(...), handler)]:
    the middlewares in their order. *)
Definition webhook (env : environment) (sdk : stripe_sdk) (counted : nat)
    (req : webhook_request) : M response :=
  match webhookLimiter counted with
  | Some r => mret r
  | None => webhook_handler env sdk req
  end.

End Subscription.

(** ** The browser's prototype generator and request body *)

(** The object returned by [getRecipeTemplates], by key. *)
Definition templates_object (recipes : templates)
  : list (jsstring * list recipe) :=
  [(js "korean", korean recipes);
   (js "italian", italian recipes);
   (js "asian", asian recipes);
   (js "mexican", mexican recipes);
   (js "default", default_ recipes)].

Section Prototype.

Variable toLowerCase : jsstring -> jsstring.

(** [createPrototypeRecipe], for a given catalog.  [drawn] is the value of
    [Math.floor(Math.random() * cuisineRecipes.length)].  [None]: the
    selected recipe is [undefined] (or the cuisine names an inherited
    member) and [customizeRecipe] throws on it, or [customizeRecipe] itself
    is outside the model. *)
Definition createPrototypeRecipeFrom (recipes : templates) (drawn : nat)
    (fd : formData) : option recipe :=
  let userIngredients := parseIngredients toLowerCase (form_ingredients fd) in
  selectedRecipe ←
    (if truthy (cuisine fd) then
       match get (templates_object recipes) (cuisine fd) with
       | Own cuisineRecipes => cuisineRecipes !! drawn
       | Inherited => None
       | Undefined =>
         findBestMatchingRecipe toLowerCase userIngredients recipes
       end
     else findBestMatchingRecipe toLowerCase userIngredients recipes);
  customizeRecipe toLowerCase selectedRecipe fd userIngredients.

Definition createPrototypeRecipe (drawn : nat) (fd : formData)
  : option recipe :=
  createPrototypeRecipeFrom getRecipeTemplates drawn fd.

End Prototype.

(** The body [callRecipeAPI] posts: [JSON.stringify(formData)], every field a
    string read from the form. *)
Definition callRecipeAPI_body (fd : formData) : RecipeRoute.request_body :=
  {| RecipeRoute.body_ingredients := Some (form_ingredients fd);
     RecipeRoute.body_cuisine := Some (cuisine fd);
     RecipeRoute.body_cookingTime := Some (cookingTime fd);
     RecipeRoute.body_dietary := Some (dietary fd);
     RecipeRoute.body_skillLevel := Some (skillLevel fd) |}.

(** How [callRecipeAPI] ends once [fetch] has resolved. *)
Inductive api_outcome : Type :=
| Returned (recipe : option json_value)    (* [return data.recipe] *)
| Paywall                                  (* [showPaywall(); return] *)
| Thrown (message : option jsstring).      (* [None]: thrown by [json()] *)

(** Truthiness of a member of a parsed body. *)
Definition truthy_json (v : json_value) : bool :=
  match v with
  | JString s => negb (String.eqb s "")
  | JNumber n => negb (n =? 0)%Z
  | JBool b => b
  | JErrors _ => true
  | JRecipe _ => true
  | JObject => true
  end.

(** [response.ok] *)
Definition ok (r : response) : bool :=
  ((200 <=? status r) && (status r <=? 299))%Z.

(** Lines 268-281 of [callRecipeAPI]: what it does with the response. *)
Definition callRecipeAPI_on (r : response) : api_outcome :=
  if negb (ok r) then
    if (status r =? 429)%Z then
      match body r with
      | Json _ =>
        match field "upgradeUrl" r with
        | Some v =>
          if truthy_json v then Paywall
          else Thrown (Some (js "일일 레시피 생성 한도에 도달했습니다."))
        | None => Thrown (Some (js "일일 레시피 생성 한도에 도달했습니다."))
        end
      | Text _ => Thrown None
      end
    else Thrown (Some (js "API 호출에 실패했습니다."))
  else
    match body r with
    | Json _ => Returned (field "recipe" r)
    | Text _ => Thrown None
    end.

(** ** The other middlewares of [auth.js] *)

Module Auth.

Local Open Scope Z_scope.

(** [authHeader && authHeader.split(' ')[1]], when truthy. *)
Definition bearer_token (req : request) : option jsstring :=
  authHeader ← authorization req;
  if truthy authHeader then
    token ← split_on (N.eqb 0x20) authHeader !! 1%nat;
    if truthy token then Some token else None
  else None.

Definition no_token : response :=
  json 401 [("error"%string, JString "Access denied. No token provided.");
            ("code"%string, JString "NO_TOKEN")].

Definition invalid_token : response :=
  json 401 [("error"%string, JString "Invalid token.");
            ("code"%string, JString "INVALID_TOKEN")].

(** [authenticateToken]: answers 401, or hands over the request with
    [req.user] set. *)
Definition authenticateToken (svc : RecipeRoute.services) (req : request)
  : response + request :=
  match bearer_token req with
  | None => inl no_token
  | Some token =>
    match RecipeRoute.getUser svc token with
    | None => inl invalid_token
    | Some id => inr {| user := Some id; ip := ip req;
                        authorization := authorization req |}
    end
  end.

Definition auth_required : response :=
  json 401 [("error"%string, JString "Authentication required");
            ("code"%string, JString "AUTH_REQUIRED")].

Definition premium_required : response :=
  json 403 [("error"%string, JString "Premium subscription required");
            ("code"%string, JString "PREMIUM_REQUIRED");
            ("upgradeUrl"%string, JString "/membership")].

(** [requirePremium] *)
Definition requirePremium (env : environment) (req : request) : M outcome :=
  match user req with
  | None => mret (Respond auth_required)
  | Some id =>
    '(user_row, error) ← select_user env id;
    match error with
    | Some _ => mret (Respond internal_server_error)
    | None =>
      match user_row with
      | Some u =>
        if negb (String.eqb (subscription_status u) "active")
           || negb (String.eqb (subscription_tier u) "premium")
        then mret (Respond premium_required)
        else mret (Next [])
      | None => mret (Respond premium_required)
      end
    end
  end.

(** The middlewares in front of the handler of
    [router.post('/cancel', authenticateToken, requirePremium, ...)]. *)
Definition cancel_guards (env : environment) (svc : RecipeRoute.services)
    (req : request) : M (response + request) :=
  match authenticateToken svc req with
  | inl r => mret (inl r)
  | inr req' =>
    o ← requirePremium env req';
    match o with
    | Respond r => mret (inl r)
    | Next _ => mret (inr req')
    end
  end.

End Auth.

(** ** [errorHandler] *)

Module ErrorHandler.

Local Open Scope Z_scope.

(** The members of a thrown error the handler looks at.  [err_code] is a
    numeric [code]; [err_statusCode] an own enumerable integer [statusCode];
    [err_errors] the values of [err.errors], each by its [message], with
    [None] for a value that is [null] or [undefined]. *)
Record js_error : Type := {
  err_code : option Z;
  err_name : option jsstring;
  err_type : option jsstring;
  err_message : option jsstring;
  err_statusCode : option Z;
  err_errors : option (list (option jsstring));
  err_stack : option jsstring
}.

Inductive error_text : Type :=
| Message (s : jsstring)
| Messages (l : list jsstring).

(** The local [error]: its [message] and [statusCode]. *)
Definition error_object : Type := (option error_text * option Z)%type.

Record error_response : Type := {
  eh_status : Z;
  eh_success : bool;
  eh_error : error_text;
  eh_stack : option jsstring
}.

Definition has_name (err : js_error) (n : string) : bool :=
  match err_name err with
  | Some s => eqb_str s (js n)
  | None => false
  end.

(** [x || fallback] on a number. *)
Definition or_status (x : option Z) (fallback : Z) : Z :=
  match x with
  | Some n => if n =? 0 then fallback else n
  | None => fallback
  end.

(** [Object.values(err.errors).map(val => val.message)]; [None]: it throws,
    on an [errors] that is missing or on a value that is [null]. *)
Definition validation_messages (err : js_error) : option (list jsstring) :=
  members ← err_errors err;
  mapM (fun val => val) members.

(** The status codes with which a response can be sent; with any other the
    send throws a [RangeError]. *)
Definition sendable (st : Z) : bool := (100 <=? st) && (st <=? 999).

(** [errorHandler]; [development] is
    [process.env.NODE_ENV === 'development'].  [None]: the handler itself
    throws. *)
Definition errorHandler (development : bool) (err : js_error)
  : option error_response :=
  let error : error_object :=
    (Message <$> err_message err, err_statusCode err) in
  let error : error_object :=
    match err_code err with
    | Some 11000 => (Some (Message (js "Duplicate field value entered")),
                     Some 400)
    | _ => error
    end in
  error ←
    (if has_name err "ValidationError" then
       messages ← validation_messages err;
       Some (Some (Messages messages), Some 400)
     else Some error);
  let error : error_object :=
    if has_name err "JsonWebTokenError"
    then (Some (Message (js "Invalid token")), Some 401) else error in
  let error : error_object :=
    if has_name err "TokenExpiredError"
    then (Some (Message (js "Token expired")), Some 401) else error in
  let error : error_object :=
    match err_type err with
    | Some t =>
      if eqb_str t (js "insufficient_quota")
      then (Some (Message
                    (js "AI service temporarily unavailable. Please try again later.")),
            Some 503)
      else error
    | None => error
    end in
  let error : error_object :=
    match err_type err with
    | Some t =>
      if truthy t && startsWith t (js "Stripe")
      then (Some (Message (js "Payment processing error. Please try again.")),
            Some 400)
      else error
    | None => error
    end in
  let error : error_object :=
    match err_message err with
    | Some m =>
      if truthy m && includes m (js "supabase")
      then (Some (Message (js "Database service temporarily unavailable")),
            Some 503)
      else error
    | None => error
    end in
  if sendable (or_status (snd error) 500) then
    Some {| eh_status := or_status (snd error) 500;
            eh_success := false;
            eh_error :=
              match fst error with
              | Some (Message m) =>
                if truthy m then Message m else Message (js "Server Error")
              | Some (Messages l) => Messages l
              | None => Message (js "Server Error")
              end;
            eh_stack := if development then err_stack err else None |}
  else None.

End ErrorHandler.

(** * Properties

    ** Vocabulary of the statements *)

(** The quantity marker glued to an appended user ingredient. *)
Definition tagged (userIngredient : jsstring) : jsstring :=
  userIngredient ++ js " 적당량".

(** Form values for which every table lookup of the customizer yields an own
    entry or [undefined]. *)
Definition plain_form (fd : formData) : Prop :=
  inherited_name (cuisine fd) = false
  /\ inherited_name (cookingTime fd) = false
  /\ inherited_name (dietary fd) = false
  /\ inherited_name (skillLevel fd) = false.

Section FallbackClaims.

Variable toLowerCase : jsstring -> jsstring.

(** Containment of a user ingredient in an entry of a list. *)
Definition substring_matched (recipeIngredients : list jsstring)
    (t : jsstring) : bool :=
  existsb (fun ingredient => includes (toLowerCase ingredient) t)
          recipeIngredients.

Definition occurrences (x : jsstring) (l : list jsstring) : nat :=
  length (List.filter (eqb_str x) l).

(** The reading in which every user ingredient of three code units or more
    that the customizer's test does not find in the selected recipe's own
    list gets exactly one entry. *)
Definition appends_every_unmatched_ingredient : Prop :=
  forall (r r' : recipe) (fd : formData) (toks : list jsstring),
    customizeRecipe toLowerCase r fd toks = Some r' ->
    forall t, In t toks -> (3 <= length t)%nat ->
      isAlreadyIncluded toLowerCase (ingredients r) t = false ->
      occurrences (tagged t) (ingredients r') = 1%nat.

End FallbackClaims.

Definition vegetarian_form : formData :=
  {| form_ingredients := js ""; cuisine := js ""; cookingTime := js "";
     dietary := js "vegetarian"; skillLevel := js "" |}.

Definition no_options : formData :=
  {| form_ingredients := js ""; cuisine := js ""; cookingTime := js "";
     dietary := js ""; skillLevel := js "" |}.

(** The decorative markers of the browser's customizer. *)
Definition markers : list jsstring :=
  [js "🍳"; js "🍝"; js "🍚"; js "🍜"; js "🌮"; js "🍔"; js "🥙"; js "🍛";
   js "🥐"].

(** Number of places of [s] at which [m] starts. *)
Fixpoint occurrences_of (m s : jsstring) : nat :=
  ((if startsWith s m then 1 else 0)
   + match s with
     | [] => 0
     | _ :: s' => occurrences_of m s'
     end)%nat.

Definition marker_count (nm : jsstring) : nat :=
  sum_list (map (fun m => occurrences_of m nm) markers).

(** The reading in which the step always leaves exactly one marker. *)
Definition exactly_one_marker_after_step : Prop :=
  forall c nm nm',
    cuisineEmojiStep c nm = Some nm' -> marker_count nm' = 1%nat.

(** *** The usage limiter *)

(** The key under which a request is counted: [userId || ipAddress]. *)
Definition identifier_of (req : request) : string :=
  default (ip req) (truthy_id (user req)).

(** The stored count of an identifier on a day, if it has a record. *)
Definition usage_count (w : world) (identifier : string) (date : Z)
  : option Z :=
  count <$> recipe_usage (store w) !! (identifier, date).

(** The service fails no call. *)
Definition no_faults (env : environment) : Prop :=
  forall o, fault env o = None.

Definition is_premium (u : user_row) : bool :=
  String.eqb (subscription_status u) "active"
  && String.eqb (subscription_tier u) "premium".

(** An anonymous caller, or an authenticated one whose row is not that of an
    active premium subscriber. *)
Definition free_caller (d : db) (req : request) : Prop :=
  match truthy_id (user req) with
  | Some id => exists u, users d !! id = Some u /\ is_premium u = false
  | None => True
  end.

(** Requests served one after the other, each in its own environment. *)
Fixpoint serve (reqs : list (environment * request)) (w : world)
  : list (outcome * world) :=
  match reqs with
  | [] => []
  | (env, req) :: rest =>
    let '(o, w') := recipeGenerationLimiter env req w in
    (o, w') :: serve rest w'
  end.

(** The headers set on an admitted request that found [currentCount]. *)
Definition rate_limit_headers (env : environment) (currentCount : Z)
  : list (string * header_value) :=
  [("X-RateLimit-Remaining"%string, HNumber (3 - currentCount - 1)%Z);
   ("X-RateLimit-Limit"%string, HNumber 3%Z);
   ("X-RateLimit-Reset"%string, HInstant (now env + 86400000)%Z)].

(** A store without users or usage records, a caller without session, and a
    service that fails nothing at a given instant. *)
Definition empty_world : world :=
  {| store := {| users := ∅; recipe_usage := ∅ |}; trace := [] |}.

Definition anonymous (address : string) : request :=
  {| user := None; ip := address; authorization := None |}.

Definition reliable (t : Z) : environment :=
  {| now := t; fault := fun _ => None |}.

(** The service fails every write to the usage table. *)
Definition usage_writes_fail (env : environment) : Prop :=
  (forall i d c, is_Some (fault env (UpdateUsage i d c)))
  /\ (forall i d c u, is_Some (fault env (InsertUsage i d c u))).

(** A service that answers reads and fails every write. *)
Definition read_only (t : Z) : environment :=
  {| now := t;
     fault := fun o =>
       match o with
       | SelectUser _ | SelectUsage _ _ => None
       | _ => Some {| code := "57014" |}
       end |}.

(** A service whose usage reads time out. *)
Definition usage_reads_fail (t : Z) : environment :=
  {| now := t;
     fault := fun o =>
       match o with
       | SelectUsage _ _ => Some {| code := "57014" |}
       | _ => None
       end |}.

(** The length test on code units. *)
Definition code_unit_length (s : jsstring) (lo hi : nat) : bool :=
  ((lo <=? length s) && (length s <=? hi))%nat.

(** A signed-in caller, and a store in which that caller is an active
    premium subscriber who already has three requests counted today. *)
Definition signed_in (id : string) : request :=
  {| user := Some id; ip := "203.0.113.7"; authorization := None |}.

Definition premium_row : user_row :=
  {| subscription_status := "active"; subscription_tier := "premium";
     subscription_start_date := None; subscription_end_date := None;
     updated_at := 0 |}.

Definition premium_world : world :=
  {| store :=
       {| users := {[ "u-1"%string := premium_row ]};
          recipe_usage :=
            {[ ("u-1"%string, 0%Z) :=
                 {| count := 3; user_id := Some "u-1"%string |} ]} |};
     trace := [] |}.

(** A body whose only field is a two-character ingredient text. *)
Definition short_body : RecipeRoute.request_body :=
  {| RecipeRoute.body_ingredients := Some (js "ab");
     RecipeRoute.body_cuisine := None;
     RecipeRoute.body_cookingTime := None;
     RecipeRoute.body_dietary := None;
     RecipeRoute.body_skillLevel := None |}.

(** Remote services that know no token and return no completion. *)
Definition offline : RecipeRoute.services :=
  {| RecipeRoute.getUser := fun _ => None;
     RecipeRoute.complete := fun _ => RecipeRoute.ApiError "offline" |}.

(** *** The subscription webhook *)

(** The reading in which a second delivery of the deletion event leaves the
    store exactly as the first did. *)
Definition deleted_twice_same_as_once : Prop :=
  forall (e1 e2 : environment) (subscription : Subscription.stripe_object)
         (w : world),
    no_faults e1 -> no_faults e2 ->
    store (snd (Subscription.handleSubscriptionDeleted e2 subscription
                  (snd (Subscription.handleSubscriptionDeleted e1 subscription
                          w))))
    = store (snd (Subscription.handleSubscriptionDeleted e1 subscription w)).

(** The row a deletion event applied at instant [t] leaves in place of [u]. *)
Definition cancelled_at (t : Z) (u : user_row) : user_row :=
  {| subscription_status := "cancelled";
     subscription_tier := "free";
     subscription_start_date := subscription_start_date u;
     subscription_end_date := Some t;
     updated_at := t |}.

(** A subscription object naming user [id]. *)
Definition subscription_of (id : string) : Subscription.stripe_object :=
  {| Subscription.object_id := "sub_1";
     Subscription.metadata_userId := Some id;
     Subscription.metadata_plan := None;
     Subscription.object_status := Some "canceled"%string;
     Subscription.created := Some 1%Z;
     Subscription.current_period_end := Some 2%Z;
     Subscription.invoice_subscription := None |}.

(** A library that verifies exactly the buffers signed [ok], and then
    yields an event of the type written in the body. *)
Definition toy_sdk : Subscription.stripe_sdk :=
  {| Subscription.constructEvent := fun payload sig =>
       match payload, sig with
       | Some bytes, Some s =>
         if eqb_str s (js "ok")
         then inl (Subscription.Event
                     {| Subscription.event_type :=
                          string_of_list_ascii (map ascii_of_N bytes);
                        Subscription.event_id := "evt_1";
                        Subscription.data_object := subscription_of "u-1" |})
         else inr "No signatures found matching the expected signature"%string
       | Some _, None =>
         inr "No stripe-signature header value was provided"%string
       | None, _ =>
         inr "Webhook payload must be provided as a string or a Buffer"%string
       end;
     Subscription.retrieve := fun _ => None |}.

Definition signed (type : string) : Subscription.webhook_request :=
  {| Subscription.raw_body :=
       Some (map N_of_ascii (list_ascii_of_string type));
     Subscription.stripe_signature := Some (js "ok") |}.

Definition unsigned (type : string) : Subscription.webhook_request :=
  {| Subscription.raw_body :=
       Some (map N_of_ascii (list_ascii_of_string type));
     Subscription.stripe_signature := None |}.

(** The reading in which every request whose signature verifies is
    acknowledged with 200, whatever came before it. *)
Definition verified_means_acknowledged : Prop :=
  forall (env : environment) (sdk : Subscription.stripe_sdk) (counted : nat)
         (req : Subscription.webhook_request) (w : world)
         (event : Subscription.constructed),
    Subscription.constructEvent sdk (Subscription.raw_body req)
      (Subscription.stripe_signature req) = inl event ->
    fst (Subscription.webhook env sdk counted req w) = Subscription.received.

(** A service that fails every call. *)
Definition down (t : Z) : environment :=
  {| now := t; fault := fun _ => Some {| code := "57014" |} |}.

Definition deletion_event : Subscription.stripe_event :=
  {| Subscription.event_type := "customer.subscription.deleted";
     Subscription.event_id := "evt_1";
     Subscription.data_object := subscription_of "u-1" |}.

(** *** Further vocabulary *)

(** A middleware handed the request over. *)
Definition handed_over (o : outcome) : bool :=
  match o with
  | Next _ => true
  | Respond _ => false
  end.

(** Every stored count is at most the daily quota. *)
Definition within_quota (w : world) : Prop :=
  forall k row, recipe_usage (store w) !! k = Some row -> (count row <= 3)%Z.

(** The world after a run of [serve] (the start when nothing was served). *)
Definition final_world (w : world) (served : list (outcome * world)) : world :=
  List.last (map snd served) w.

(** The comma and the newline, the separators of [parseIngredients]. *)
Definition is_separator (u : N) : bool := (u =? 0x2C) || (u =? 0x0A).

(** One caller's requests, one per environment. *)
Definition repeated (req : request) (envs : list environment)
  : list (environment * request) :=
  map (fun env => (env, req)) envs.

(** Which of the served requests were handed over. *)
Definition passed (served : list (outcome * world)) : list bool :=
  map (fun ow => handed_over (fst ow)) served.

(** A form asking for a quick vegetarian korean dish for a beginner. *)
Definition quick_vegetarian_form : formData :=
  {| form_ingredients := js "김치, 두부"; cuisine := js "korean";
     cookingTime := js "quick"; dietary := js "vegetarian";
     skillLevel := js "beginner" |}.

(** The kimchi fried rice template under the vegetarian restriction, and
    customized for the form above. *)
Definition vegetarian_kimchi_fried_rice : recipe :=
  default kimchi_fried_rice
    (applyDietaryRestrictions kimchi_fried_rice (js "vegetarian")).

Definition customized_kimchi_fried_rice : recipe :=
  default kimchi_fried_rice
    (customizeRecipe toLowerCaseLatin kimchi_fried_rice quick_vegetarian_form
       [js "김치"; js "두부"]).

(** A parsed answer that has a list of ingredients and nothing else, and
    remote services whose model always gives it. *)
Definition terse_answer : RecipeRoute.ai_recipe :=
  {| RecipeRoute.ai_name := RecipeRoute.NameMissing;
     RecipeRoute.ai_description := RecipeRoute.Missing;
     RecipeRoute.ai_prepTime := RecipeRoute.Missing;
     RecipeRoute.ai_cookTime := RecipeRoute.Missing;
     RecipeRoute.ai_totalTime := RecipeRoute.Missing;
     RecipeRoute.ai_servings := RecipeRoute.Missing;
     RecipeRoute.ai_difficulty := RecipeRoute.Missing;
     RecipeRoute.ai_ingredients :=
       RecipeRoute.Member [js "kimchi"; js "tofu"];
     RecipeRoute.ai_instructions := RecipeRoute.Missing;
     RecipeRoute.ai_tips := RecipeRoute.Missing;
     RecipeRoute.ai_nutrition := RecipeRoute.Missing |}.



Definition terse_model : RecipeRoute.services :=
  {| RecipeRoute.getUser := fun _ => None;
     RecipeRoute.complete := fun _ =>
       RecipeRoute.Completed (RecipeRoute.Parsed terse_answer) |}.

(** Whether an update sets a column, and the columns a patch sets. *)
Definition is_set {A : Type} (x : option A) : bool :=
  match x with
  | Some _ => true
  | None => false
  end.

Definition columns (p : user_patch) : list bool :=
  [is_set (set_status p); is_set (set_tier p); is_set (set_start_date p);
   is_set (set_end_date p); is_set (set_updated_at p)].

(** A user who never subscribed, alone in a store without usage records. *)
Definition free_row : user_row :=
  {| subscription_status := "inactive"; subscription_tier := "free";
     subscription_start_date := None; subscription_end_date := None;
     updated_at := 0 |}.

Definition free_world : world :=
  {| store := {| users := {[ "u-1"%string := free_row ]};
                 recipe_usage := ∅ |};
     trace := [] |}.

Definition creation_event : Subscription.stripe_event :=
  {| Subscription.event_type := "customer.subscription.created";
     Subscription.event_id := "evt_2";
     Subscription.data_object := subscription_of "u-1" |}.

(** The provider reports the subscription of user [u-1] as past due. *)
Definition past_due_event : Subscription.stripe_event :=
  {| Subscription.event_type := "customer.subscription.updated";
     Subscription.event_id := "evt_3";
     Subscription.data_object :=
       {| Subscription.object_id := "sub_1";
          Subscription.metadata_userId := Some "u-1"%string;
          Subscription.metadata_plan := None;
          Subscription.object_status := Some "past_due"%string;
          Subscription.created := Some 1%Z;
          Subscription.current_period_end := Some 2%Z;
          Subscription.invoice_subscription := None |} |}.

(** An expired-token error whose message happens to name the database
    client. *)
Definition expired_token_error : ErrorHandler.js_error :=
  {| ErrorHandler.err_code := None;
     ErrorHandler.err_name := Some (js "TokenExpiredError");
     ErrorHandler.err_type := None;
     ErrorHandler.err_message := Some (js "jwt expired (supabase auth)");
     ErrorHandler.err_statusCode := Some 401%Z;
     ErrorHandler.err_errors := None;
     ErrorHandler.err_stack := Some (js "TokenExpiredError: jwt expired") |}.


(** A validation error with a member that is [null]. *)
Definition broken_validation_error : ErrorHandler.js_error :=
  {| ErrorHandler.err_code := None;
     ErrorHandler.err_name := Some (js "ValidationError");
     ErrorHandler.err_type := None;
     ErrorHandler.err_message := Some (js "Validation failed");
     ErrorHandler.err_statusCode := None;
     ErrorHandler.err_errors := Some [Some (js "Path is required"); None];
     ErrorHandler.err_stack := None |}.

(** ** Facts about the fallback generator *)

Section FallbackFacts.

Variable toLowerCase : jsstring -> jsstring.


(** Invariant of the matcher's loop: the current best is the first recipe of
    the walked prefix that attains the prefix's maximal score. *)
Lemma best_step_fold (toks : list jsstring) (rest l1 l2 : list recipe)
    (b : recipe) :
  Forall (fun x => (score toLowerCase toks x < score toLowerCase toks b)%nat) l1 ->
  Forall (fun x => (score toLowerCase toks x <= score toLowerCase toks b)%nat) l2 ->
  exists b' l1' l2',
    fold_left (best_step toLowerCase toks) rest (Some b, score toLowerCase toks b)
      = (Some b', score toLowerCase toks b')
    /\ l1 ++ b :: l2 ++ rest = l1' ++ b' :: l2'
    /\ Forall (fun x => (score toLowerCase toks x < score toLowerCase toks b')%nat) l1'
    /\ Forall (fun x => (score toLowerCase toks x <= score toLowerCase toks b')%nat) l2'.
Proof.
  revert l1 l2 b.
  induction rest as [|r rest IH]; intros l1 l2 b H1 H2.
  - exists b, l1, l2. rewrite app_nil_r. auto.
  - cbn [fold_left]. unfold best_step at 2.
    destruct (Nat.ltb_spec (score toLowerCase toks b) (score toLowerCase toks r)) as [Hlt|Hge].
    + destruct (IH (l1 ++ b :: l2) [] r) as (b' & l1' & l2' & Hf & Hs & Ha & Hb).
      * apply Forall_app; split; [|constructor].
        -- eapply Forall_impl; [exact H1|]. cbn. intros; lia.
        -- exact Hlt.
        -- eapply Forall_impl; [exact H2|]. cbn. intros; lia.
      * constructor.
      * exists b', l1', l2'. repeat split; auto.
        rewrite <- Hs. cbn [app]. rewrite <- !app_assoc. reflexivity.
    + destruct (IH l1 (l2 ++ [r]) b) as (b' & l1' & l2' & Hf & Hs & Ha & Hb).
      * exact H1.
      * apply Forall_app; split; [exact H2|]. constructor; [exact Hge|constructor].
      * exists b', l1', l2'. repeat split; auto.
        rewrite <- Hs. rewrite <- !app_assoc. reflexivity.
Qed.

(** On a non-empty [allRecipes] the matcher returns the first recipe of
    [allRecipes] whose score is maximal among [allRecipes]. *)
Lemma findBestMatchingRecipe_first_max (toks : list jsstring)
    (recipes : templates) :
  allRecipes recipes <> [] ->
  exists b l1 l2,
    findBestMatchingRecipe toLowerCase toks recipes = Some b
    /\ allRecipes recipes = l1 ++ b :: l2
    /\ Forall (fun x => (score toLowerCase toks x < score toLowerCase toks b)%nat) l1
    /\ Forall (fun x => (score toLowerCase toks x <= score toLowerCase toks b)%nat) l2.
Proof.
  unfold findBestMatchingRecipe.
  destruct (allRecipes recipes) as [|r0 rest]; [congruence|]. intros _.
  cbn [head fold_left]. unfold best_step at 2.
  destruct (Nat.ltb_spec 0 (score toLowerCase toks r0)) as [Hpos|Hzero].
  - destruct (best_step_fold toks rest [] [] r0) as (b & l1 & l2 & Hf & Hs & Ha & Hb);
      [constructor|constructor|].
    exists b, l1, l2. rewrite Hf. auto.
  - assert (Hz : score toLowerCase toks r0 = 0%nat) by lia.
    destruct (best_step_fold toks rest [] [] r0) as (b & l1 & l2 & Hf & Hs & Ha & Hb);
      [constructor|constructor|].
    exists b, l1, l2. rewrite <- Hz at 1. rewrite Hf. auto.
Qed.

(** The matcher never leaves [allRecipes]. *)
Lemma findBestMatchingRecipe_in_allRecipes (toks : list jsstring)
    (recipes : templates) (b : recipe) :
  findBestMatchingRecipe toLowerCase toks recipes = Some b ->
  In b (allRecipes recipes).
Proof.
  intros Hb.
  destruct (allRecipes recipes) as [|r0 rest] eqn:Hall.
  - unfold findBestMatchingRecipe in Hb. rewrite Hall in Hb. discriminate.
  - destruct (findBestMatchingRecipe_first_max toks recipes)
      as (b' & l1 & l2 & Hf & Hs & _); [congruence|].
    rewrite Hf in Hb. injection Hb as <-.
    rewrite <- Hall, Hs. apply in_or_app. right. left. reflexivity.
Qed.

(** The ingredient list of the customizer's result is the list built by the
    first loop: the final object literal overwrites [ingredients] with
    [customizedIngredients], whatever the later steps computed. *)
Lemma customizeRecipe_ingredients (r r' : recipe) (fd : formData)
    (toks : list jsstring) :
  customizeRecipe toLowerCase r fd toks = Some r' ->
  ingredients r' = addUserIngredients toLowerCase (ingredients r) toks.
Proof.
  unfold customizeRecipe. intros H.
  destruct (adjustTimes r (cookingTime fd)) as [r1|]; [|discriminate].
  cbn [mbind option_bind] in H.
  destruct (if truthy (dietary fd) then _ else _) as [r2|]; [|discriminate].
  cbn [mbind option_bind] in H.
  destruct (if truthy (skillLevel fd) then _ else _) as [r3|]; [|discriminate].
  cbn [mbind option_bind] in H.
  destruct (cuisineEmojiStep (cuisine fd) (name r3)) as [nm|]; [|discriminate].
  cbn [mbind option_bind] in H. injection H as <-. reflexivity.
Qed.

Lemma addUserIngredients_snoc (l pre : list jsstring) (t : jsstring) :
  addUserIngredients toLowerCase l (pre ++ [t])
  = addUserIngredient toLowerCase (addUserIngredients toLowerCase l pre) t.
Proof. unfold addUserIngredients. rewrite fold_left_app. reflexivity. Qed.

(** The first loop only appends: the recipe's entries stay in front, and the
    additions are tagged user ingredients, in the user's order, each longer
    than two code units. *)
Lemma addUserIngredients_shape (toks l : list jsstring) :
  exists added,
    addUserIngredients toLowerCase l toks = l ++ map tagged added
    /\ sublist added toks
    /\ Forall (fun t => (2 < length t)%nat) added.
Proof.
  revert l. induction toks as [|t toks IH]; intros l.
  - exists []. cbn. rewrite app_nil_r. repeat split; constructor.
  - unfold addUserIngredients. cbn [fold_left].
    unfold addUserIngredient at 2.
    destruct (negb _ && (2 <? length t)%nat) eqn:Hc.
    + destruct (IH (l ++ [t ++ js " 적당량"])) as (added & He & Hs & Hl).
      exists (t :: added). unfold addUserIngredients in He. rewrite He.
      rewrite <- app_assoc. repeat split.
      * now constructor.
      * constructor; [|exact Hl].
        apply andb_true_iff in Hc as [_ Hc]. now apply Nat.ltb_lt in Hc.
    + destruct (IH l) as (added & He & Hs & Hl).
      exists added. unfold addUserIngredients in He. rewrite He.
      repeat split; [now constructor|exact Hl].
Qed.

(** A lookup with a key that is no inherited member name finds an own entry
    or nothing. *)
Lemma get_not_inherited {A : Type} (obj : list (jsstring * A)) (k : jsstring) :
  inherited_name k = false -> get obj k <> Inherited.
Proof.
  intros Hk. unfold get.
  destruct (List.find _ obj); [discriminate|]. rewrite Hk. discriminate.
Qed.

Lemma customizeRecipe_total (r : recipe) (fd : formData)
    (toks : list jsstring) :
  plain_form fd -> is_Some (customizeRecipe toLowerCase r fd toks).
Proof.
  intros (Hc & Ht & Hd & Hs). unfold customizeRecipe.
  assert (H1 : is_Some (adjustTimes r (cookingTime fd))).
  { unfold adjustTimes. destruct (truthy _); [|eauto].
    pose proof (get_not_inherited timeAdjustments _ Ht) as Hn.
    destruct (get timeAdjustments (cookingTime fd)); [eauto|congruence|eauto]. }
  destruct H1 as [r1 ->]. cbn [mbind option_bind].
  assert (H2 : is_Some (if truthy (dietary fd)
                        then applyDietaryRestrictions r1 (dietary fd)
                        else Some r1)).
  { destruct (truthy _); [|eauto]. unfold applyDietaryRestrictions.
    pose proof (get_not_inherited restrictions _ Hd) as Hn.
    destruct (get restrictions (dietary fd)); [eauto|congruence|eauto]. }
  destruct H2 as [r2 ->]. cbn [mbind option_bind].
  assert (H3 : is_Some (if truthy (skillLevel fd)
                        then d ← adjustDifficulty (difficulty r2) (skillLevel fd);
                             Some (set_difficulty r2 d)
                        else Some r2)).
  { destruct (truthy _); [|eauto]. unfold adjustDifficulty.
    pose proof (get_not_inherited levelMap _ Hs) as Hn.
    destruct (get levelMap (skillLevel fd)); cbn; [eauto|congruence|eauto]. }
  destruct H3 as [r3 ->]. cbn [mbind option_bind].
  assert (H4 : is_Some (cuisineEmojiStep (cuisine fd) (name r3))).
  { unfold cuisineEmojiStep. destruct (matches_marker_class _); [eauto|].
    pose proof (get_not_inherited cuisineEmojis _ Hc) as Hn.
    destruct (get cuisineEmojis (cuisine fd)); [eauto|congruence|eauto]. }
  destruct H4 as [nm ->]. cbn [mbind option_bind]. eauto.
Qed.

(** C9 (amended).  For form values that are plain option strings the
    customizer returns a recipe whose ingredient list is the recipe's own
    list, unchanged and in front, followed by tagged user ingredients in the
    user's order, each longer than two code units.  Which ones, token by
    token: without user ingredients the customizer returns the recipe's own
    list; and for every way of cutting the user's list after a token [t],
    the customizer's list for the tokens up to and including [t] is its list
    for the tokens before [t], followed by exactly one entry
    [t ++ " 적당량"] when [t] is longer than two code units and no entry of
    that list contains it (after lower-casing the entry) or has its
    lower-cased first word inside [t], and by nothing otherwise.  Cut after
    the last token, this is the returned recipe. *)
Theorem customizeRecipe_appends_user_ingredients (r : recipe) (fd : formData)
    (toks : list jsstring) :
  plain_form fd ->
  exists r',
    customizeRecipe toLowerCase r fd toks = Some r'
    /\ (exists added,
          ingredients r' = ingredients r ++ map tagged added
          /\ sublist added toks
          /\ Forall (fun t => (2 < length t)%nat) added)
    /\ (exists r0,
          customizeRecipe toLowerCase r fd [] = Some r0
          /\ ingredients r0 = ingredients r)
    /\ (forall pre t post,
          toks = pre ++ t :: post ->
          exists before upto,
            customizeRecipe toLowerCase r fd pre = Some before
            /\ customizeRecipe toLowerCase r fd (pre ++ [t]) = Some upto
            /\ ingredients upto
               = ingredients before
                 ++ (if negb (existsb
                                (fun entry =>
                                   includes (toLowerCase entry) t
                                   || includes t
                                        (first_word (toLowerCase entry)))
                                (ingredients before))
                        && (2 <? length t)%nat
                     then [t ++ js " 적당량"] else [])
            /\ (post = [] -> upto = r'))
    /\ forall pre t post,
         toks = pre ++ t :: post ->
         addUserIngredients toLowerCase (ingredients r) (pre ++ [t])
         = addUserIngredients toLowerCase (ingredients r) pre
           ++ (if negb (isAlreadyIncluded toLowerCase
                          (addUserIngredients toLowerCase (ingredients r) pre) t)
                  && (2 <? length t)%nat
               then [tagged t] else []).
Proof.
  intros Hfd.
  assert (Hround : forall pre t,
             addUserIngredients toLowerCase (ingredients r) (pre ++ [t])
             = addUserIngredients toLowerCase (ingredients r) pre
               ++ (if negb (isAlreadyIncluded toLowerCase
                              (addUserIngredients toLowerCase (ingredients r)
                                 pre) t)
                      && (2 <? length t)%nat
                   then [tagged t] else [])).
  { intros pre t. rewrite addUserIngredients_snoc.
    unfold addUserIngredient, tagged.
    destruct (negb _ && _); [reflexivity|]. now rewrite app_nil_r. }
  destruct (customizeRecipe_total r fd toks Hfd) as [r' Hr'].
  exists r'. split; [exact Hr'|]. split; [|split; [|split]].
  - rewrite (customizeRecipe_ingredients _ _ _ _ Hr').
    apply addUserIngredients_shape.
  - destruct (customizeRecipe_total r fd [] Hfd) as [r0 Hr0].
    exists r0. split; [exact Hr0|].
    rewrite (customizeRecipe_ingredients _ _ _ _ Hr0). reflexivity.
  - intros pre t post Htoks.
    destruct (customizeRecipe_total r fd pre Hfd) as [before Hbefore].
    destruct (customizeRecipe_total r fd (pre ++ [t]) Hfd) as [upto Hupto].
    exists before, upto. split; [exact Hbefore|]. split; [exact Hupto|].
    split.
    + rewrite (customizeRecipe_ingredients _ _ _ _ Hupto),
        (customizeRecipe_ingredients _ _ _ _ Hbefore).
      apply Hround.
    + intros ->. rewrite <- Htoks in Hupto. congruence.
  - intros pre t post _. apply Hround.
Qed.

End FallbackFacts.

Lemma customizeRecipe_appends_user_ingredients_witness :
  plain_form no_options
  /\ exists r',
       customizeRecipe toLowerCaseLatin kimchi_fried_rice no_options
         [js "토마토"; js "김"] = Some r'
       /\ (exists added,
             ingredients r' = ingredients kimchi_fried_rice ++ map tagged added
             /\ sublist added [js "토마토"; js "김"]
             /\ Forall (fun t => (2 < length t)%nat) added).
Proof.
  assert (H : plain_form no_options) by (repeat split; reflexivity).
  split; [exact H|].
  destruct (customizeRecipe_appends_user_ingredients toLowerCaseLatin
              kimchi_fried_rice no_options [js "토마토"; js "김"] H)
    as (r' & Hr' & Hshape & _).
  exists r'. split; [exact Hr'|exact Hshape].
Defined.

(** The user ingredients "토마토소스" and "토마토" both pass the test against
    the kimchi fried rice template's own list, yet only the first is
    appended: the second is found inside the entry just added for the
    first. *)
Lemma appends_every_unmatched_ingredient_fails :
  ~ appends_every_unmatched_ingredient toLowerCaseLatin.
Proof.
  intros H.
  destruct (customizeRecipe toLowerCaseLatin kimchi_fried_rice no_options
              [js "토마토소스"; js "토마토"]) as [r'|] eqn:Hr';
    [|vm_compute in Hr'; discriminate].
  specialize (H kimchi_fried_rice r' no_options
                [js "토마토소스"; js "토마토"] Hr' (js "토마토")).
  vm_compute in Hr'. injection Hr' as <-.
  assert (Hin : In (js "토마토") [js "토마토소스"; js "토마토"])
    by (right; left; reflexivity).
  specialize (H Hin). vm_compute in H.
  assert (Habs : 0%nat = 1%nat); [|discriminate].
  apply H; [repeat constructor|reflexivity].
Qed.

(** The test also runs the other way round: "볶음밥" occurs in no entry of
    the template, but it contains "밥", the first word of "밥 2공기", and is
    not appended either. *)
Example first_word_suppresses_addition :
  substring_matched toLowerCaseLatin (ingredients kimchi_fried_rice)
    (js "볶음밥") = false
  /\ addUserIngredients toLowerCaseLatin (ingredients kimchi_fried_rice)
       [js "볶음밥"] = ingredients kimchi_fried_rice.
Proof. split; vm_compute; reflexivity. Qed.

(** *** The matcher on the shipped catalog *)

(** C2.  The matcher walks the korean, italian, asian and default groups
    only.  For the single user ingredient "토르티야" (tortilla) it returns the
    first recipe of the catalog with score 0, although the catalog's mexican
    recipe contains that ingredient and scores 1. *)
Theorem findBestMatchingRecipe_skips_mexican :
  parseIngredients toLowerCaseLatin (js "토르티야") = [js "토르티야"]
  /\ findBestMatchingRecipe toLowerCaseLatin [js "토르티야"] getRecipeTemplates
     = Some kimchi_fried_rice
  /\ score toLowerCaseLatin [js "토르티야"] kimchi_fried_rice = 0%nat
  /\ In chicken_burrito (mexican getRecipeTemplates)
  /\ score toLowerCaseLatin [js "토르티야"] chicken_burrito = 1%nat.
Proof.
  repeat split; try (vm_compute; reflexivity).
  left. reflexivity.
Qed.

(** Whatever the user ingredients and the lower-casing, the matcher never
    returns the catalog's mexican recipe. *)
Lemma findBestMatchingRecipe_never_mexican
    (toLowerCase : jsstring -> jsstring) (toks : list jsstring) :
  findBestMatchingRecipe toLowerCase toks getRecipeTemplates
  <> Some chicken_burrito.
Proof.
  intros H. apply findBestMatchingRecipe_in_allRecipes in H.
  cbn [allRecipes getRecipeTemplates korean italian asian default_ app In] in H.
  repeat (destruct H as [H|H];
          [apply (f_equal name) in H; vm_compute in H; discriminate H|]).
  exact H.
Qed.

(** *** The dietary step inside the customizer *)

(** C4.  [applyDietaryRestrictions] turns "닭가슴살 200g" into "두부 200g",
    but the recipe returned by [customizeRecipe] for the same restriction
    carries the restriction in its title and still lists "닭가슴살 200g":
    the substituted list is overwritten by [customizedIngredients]. *)
Theorem customizeRecipe_discards_substitutions :
  (r1 ← applyDietaryRestrictions chicken_vegetable_stir_fry (js "vegetarian");
   head (ingredients r1)) = Some (js "두부 200g")
  /\ match customizeRecipe toLowerCaseLatin chicken_vegetable_stir_fry
             vegetarian_form [] with
     | Some r' =>
       name r' = js "🍳 닭가슴살 야채볶음 (vegetarian)"
       /\ ingredients r' = ingredients chicken_vegetable_stir_fry
       /\ head (ingredients r') = Some (js "닭가슴살 200g")
     | None => False
     end.
Proof. split; vm_compute; repeat split; reflexivity. Qed.

(** [String.prototype.replace] with a string pattern stops after the first
    occurrence, so even [applyDietaryRestrictions] alone leaves later
    occurrences of a term in place. *)
Example String_replace_first_only :
  String_replace (js "면 100g 또는 면 사리") (js "면") (js "쌀면")
  = js "쌀면 100g 또는 면 사리".
Proof. vm_compute. reflexivity. Qed.

(** ** The cuisine emoji step *)

Lemma get_own_in {A : Type} (obj : list (jsstring * A)) (k : jsstring) (v : A) :
  get obj k = Own v -> In v (map snd obj).
Proof.
  unfold get. destruct (List.find _ obj) as [p|] eqn:Hf.
  - intros [= <-]. apply find_some in Hf as [Hin _].
    apply in_map_iff. exists p. auto.
  - destruct (inherited_name k); discriminate.
Qed.

Lemma matches_marker_class_app (s x : jsstring) :
  matches_marker_class s = true -> matches_marker_class (s ++ x) = true.
Proof.
  unfold matches_marker_class. intros H. rewrite existsb_app, H. reflexivity.
Qed.

Lemma startsWith_app (s t x : jsstring) :
  startsWith s t = true -> startsWith (s ++ x) t = true.
Proof.
  revert s. induction t as [|b t IH]; intros s H; [reflexivity|].
  destruct s as [|a s]; [discriminate|]. cbn in *.
  apply andb_true_iff in H as [-> H]. cbn. auto.
Qed.

Lemma includes_startsWith (s t : jsstring) :
  startsWith s t = true -> includes s t = true.
Proof. intros H. destruct s; cbn in *; rewrite H; reflexivity. Qed.

Ltac in_list := repeat first [left; reflexivity | right].

(** Every emoji the browser's step can prepend is a marker and passes the
    step's own test. *)
Lemma browser_emojis :
  Forall (fun e => matches_marker_class e = true /\ In e markers)
         (js "🍳" :: map snd cuisineEmojis).
Proof.
  cbn [map cuisineEmojis snd].
  repeat (apply List.Forall_cons; [split; [vm_compute; reflexivity|in_list]|]).
  apply List.Forall_nil.
Qed.

(** Every string the server's step can prepend starts with the second tested
    string. *)
Lemma server_emojis :
  Forall (fun e => startsWith e (js "ðŸ") = true)
         (js "ðŸ³" :: map snd RecipeRoute.cuisineEmojis).
Proof.
  cbn [map RecipeRoute.cuisineEmojis snd].
  repeat (apply List.Forall_cons; [vm_compute; reflexivity|]).
  apply List.Forall_nil.
Qed.

Ltac eval_js :=
  repeat match goal with
         | |- context [js ?s] =>
           let v := eval vm_compute in (js s) in change (js s) with v
         end.

(** A code unit outside the marker class starts no marker. *)
Lemma not_startsWith_marker (a : N) (s m : jsstring) :
  existsb (N.eqb a) marker_class = false ->
  In m markers ->
  startsWith (a :: s) m = false.
Proof.
  intros Ha Hm.
  assert (Hh : exists h t, m = h :: t /\ In h marker_class).
  { unfold markers, marker_class in *. cbn [In] in Hm.
    repeat (destruct Hm as [<-|Hm];
            [eexists; eexists; split; [lazy; reflexivity|lazy; in_list]|]).
    destruct Hm. }
  destruct Hh as (h & t & -> & Hh). cbn.
  destruct (N.eqb_spec a h) as [->|]; [|reflexivity].
  exfalso. apply not_true_iff_false in Ha. apply Ha.
  apply existsb_exists. exists h. split; [exact Hh|apply N.eqb_refl].
Qed.

Lemma markers_nonempty : ~ In [] markers.
Proof.
  unfold markers. cbn [In]. intros H.
  repeat (destruct H as [H|H]; [vm_compute in H; discriminate|]).
  exact H.
Qed.

Lemma matches_marker_class_cons (a : N) (s : jsstring) :
  matches_marker_class (a :: s) = false ->
  existsb (N.eqb a) marker_class = false /\ matches_marker_class s = false.
Proof.
  unfold matches_marker_class. cbn [existsb]. intros Hs.
  destruct (existsb (N.eqb a) marker_class); [discriminate Hs|].
  split; [reflexivity|exact Hs].
Qed.

Lemma no_class_no_marker (s m : jsstring) :
  matches_marker_class s = false -> In m markers -> occurrences_of m s = 0%nat.
Proof.
  intros Hs Hm. induction s as [|a s IH].
  - destruct m as [|h t]; [exfalso; exact (markers_nonempty Hm)|].
    reflexivity.
  - apply matches_marker_class_cons in Hs as [Ha Hs].
    change (((if startsWith (a :: s) m then 1 else 0)
             + occurrences_of m s)%nat = 0%nat).
    rewrite (not_startsWith_marker a s m Ha Hm).
    rewrite (IH Hs). reflexivity.
Qed.

(** A marker prepended to a name without any unit of the class is the only
    marker of the result. *)
Lemma prepended_marker_is_alone (e nm : jsstring) :
  In e markers ->
  matches_marker_class nm = false ->
  marker_count (e ++ js " " ++ nm) = 1%nat.
Proof.
  intros He Hnm.
  assert (Hz : forall m, In m markers -> occurrences_of m nm = 0%nat)
    by (intros m Hm; apply no_class_no_marker; assumption).
  unfold marker_count.
  assert (Hsum : forall l,
             sum_list (map (fun m => occurrences_of m (e ++ js " " ++ nm)) l)
             = sum_list
                 (map (fun m =>
                         ((if startsWith (e ++ js " " ++ nm) m then 1 else 0)
                          + ((if startsWith (tail (e ++ js " " ++ nm)) m
                              then 1 else 0)
                             + ((if startsWith
                                       (tail (tail (e ++ js " " ++ nm))) m
                                 then 1 else 0)
                                + occurrences_of m
                                    (tail (tail (tail (e ++ js " " ++ nm)))))))%nat)
                      l)).
  { intros l. f_equal. apply map_ext. intros m.
    unfold markers in He. cbn [In] in He.
    repeat (destruct He as [<-|He]; [eval_js; reflexivity|]).
    destruct He. }
  rewrite Hsum. clear Hsum.
  unfold markers in He, Hz |- *. cbn [In] in He.
  repeat (destruct He as [<-|He];
          [cbn [map sum_list]; eval_js; cbn [app tail];
           rewrite !Hz by in_list; vm_compute; reflexivity|]).
  destruct He.
Qed.

(** The marker step of the browser's customizer does not leave exactly one
    marker on a name that already carries two. *)
Lemma exactly_one_marker_after_step_fails : ~ exactly_one_marker_after_step.
Proof.
  intros H.
  specialize (H (js "italian") (js "🍳🍝 파스타") (js "🍳🍝 파스타")).
  assert (Hc : marker_count (js "🍳🍝 파스타") = 2%nat)
    by (vm_compute; reflexivity).
  rewrite Hc in H. discriminate H. vm_compute. reflexivity.
Qed.

(** A name holding another emoji of the same surrogate range passes the test
    of the browser's step, so it gets no marker at all. *)
Example pizza_gets_no_marker :
  cuisineEmojiStep (js "italian") (js "🍕 피자") = Some (js "🍕 피자")
  /\ marker_count (js "🍕 피자") = 0%nat.
Proof. split; vm_compute; reflexivity. Qed.

(** C6 (amended).  For a cuisine value that is no inherited member name,
    both steps return a name on which a second run changes nothing.  The
    browser's step leaves a name passing its test (some code unit of the
    marker class); it returns a name that passes the test as it is, and
    otherwise prepends the marker of the cuisine (the default marker when
    the cuisine is no key of the table) and a space; the name then carries
    exactly one marker.  The server's step returns the name as it is when no
    cuisine is given or when the name contains one of its two tested
    strings; with a cuisine given and both strings absent it prepends the
    marker of the cuisine (the default one when the cuisine is no key) and a
    space, and the name then contains one of the tested strings. *)
Theorem cuisine_marker_step_idempotent (c : jsstring)
    (copt : option jsstring) (nm : jsstring) :
  inherited_name c = false ->
  from_option inherited_name false copt = false ->
  (exists nm',
     cuisineEmojiStep c nm = Some nm'
     /\ matches_marker_class nm' = true
     /\ (nm' = nm
         \/ matches_marker_class nm = false
            /\ marker_count nm' = 1%nat
            /\ exists e, In e markers /\ nm' = e ++ js " " ++ nm)
     /\ nm' = (if matches_marker_class nm then nm
               else match get cuisineEmojis c with
                    | Own emoji => emoji
                    | _ => js "🍳"
                    end ++ js " " ++ nm)
     /\ cuisineEmojiStep c nm' = Some nm')
  /\ (exists nm',
        RecipeRoute.cuisineEmojiStep copt nm = Some nm'
        /\ (from_option truthy false copt = true ->
            RecipeRoute.has_tested_marker nm' = true)
        /\ (nm' = nm
            \/ RecipeRoute.has_tested_marker nm = false
               /\ exists e, nm' = e ++ js " " ++ nm)
        /\ nm' = (if from_option truthy false copt
                     && negb (RecipeRoute.has_tested_marker nm)
                  then match copt with
                       | Some c' =>
                         match get RecipeRoute.cuisineEmojis c' with
                         | Own emoji => emoji
                         | _ => js "ðŸ³"
                         end
                       | None => js "ðŸ³"
                       end ++ js " " ++ nm
                  else nm)
        /\ (from_option truthy false copt = false -> nm' = nm)
        /\ RecipeRoute.cuisineEmojiStep copt nm' = Some nm').
Proof.
  intros Hc Hcopt. split.
  - assert (Hstep : forall e,
               matches_marker_class nm = false ->
               matches_marker_class e = true /\ In e markers ->
               matches_marker_class (e ++ js " " ++ nm) = true
               /\ (e ++ js " " ++ nm = nm
                   \/ matches_marker_class nm = false
                      /\ marker_count (e ++ js " " ++ nm) = 1%nat
                      /\ exists e', In e' markers
                                    /\ e ++ js " " ++ nm = e' ++ js " " ++ nm)
               /\ cuisineEmojiStep c (e ++ js " " ++ nm)
                  = Some (e ++ js " " ++ nm)).
    { intros e Hnm [He Hin].
      pose proof (matches_marker_class_app e (js " " ++ nm) He) as Hm.
      split; [exact Hm|]. split.
      { right. split; [exact Hnm|]. split; [|eauto].
        apply prepended_marker_is_alone; assumption. }
      unfold cuisineEmojiStep. rewrite Hm. reflexivity. }
    pose proof browser_emojis as Hall. rewrite List.Forall_forall in Hall.
    unfold cuisineEmojiStep at 1.
    destruct (matches_marker_class nm) eqn:Hnm.
    + exists nm. repeat split; auto.
      unfold cuisineEmojiStep. rewrite Hnm. reflexivity.
    + pose proof (get_not_inherited cuisineEmojis c Hc) as Hni.
      destruct (get cuisineEmojis c) as [e| |] eqn:Hg; [| congruence |].
      * exists (e ++ js " " ++ nm). split; [reflexivity|].
        destruct (Hstep e) as (H1 & H2 & H3);
          [reflexivity|apply Hall; right; exact (get_own_in _ _ _ Hg)|].
        repeat split; auto.
      * exists (js "🍳" ++ js " " ++ nm). split; [reflexivity|].
        destruct (Hstep (js "🍳")) as (H1 & H2 & H3);
          [reflexivity|apply Hall; left; reflexivity|].
        repeat split; auto.
  - assert (Hstep : forall c' e,
               copt = Some c' -> truthy c' = true ->
               RecipeRoute.has_tested_marker nm = false ->
               startsWith e (js "ðŸ") = true ->
               (from_option truthy false copt = true ->
                RecipeRoute.has_tested_marker (e ++ js " " ++ nm) = true)
               /\ (e ++ js " " ++ nm = nm
                   \/ RecipeRoute.has_tested_marker nm = false
                      /\ exists e', e ++ js " " ++ nm = e' ++ js " " ++ nm)
               /\ RecipeRoute.cuisineEmojiStep copt (e ++ js " " ++ nm)
                  = Some (e ++ js " " ++ nm)).
    { intros c' e -> Ht Hnm He.
      assert (Hm : RecipeRoute.has_tested_marker (e ++ js " " ++ nm) = true).
      { unfold RecipeRoute.has_tested_marker. apply orb_true_iff. right.
        apply includes_startsWith, startsWith_app, He. }
      split; [auto|]. split; [right; eauto|].
      unfold RecipeRoute.cuisineEmojiStep. rewrite Ht, Hm. reflexivity. }
    pose proof server_emojis as Hall. rewrite List.Forall_forall in Hall.
    unfold RecipeRoute.cuisineEmojiStep at 1.
    destruct copt as [c'|];
      [|exists nm; cbn [from_option RecipeRoute.cuisineEmojiStep andb];
        repeat split; auto; discriminate].
    cbn [from_option] in *.
    destruct (truthy c') eqn:Ht;
      [|exists nm; unfold RecipeRoute.cuisineEmojiStep; rewrite Ht;
        cbn [andb]; repeat split; auto; discriminate].
    destruct (RecipeRoute.has_tested_marker nm) eqn:Hnm; cbn [negb andb].
    + exists nm. repeat split; auto; try discriminate.
      unfold RecipeRoute.cuisineEmojiStep. rewrite Ht, Hnm. reflexivity.
    + pose proof (get_not_inherited RecipeRoute.cuisineEmojis c' Hcopt) as Hni.
      destruct (get RecipeRoute.cuisineEmojis c') as [e| |] eqn:Hg;
        [| congruence |].
      * exists (e ++ js " " ++ nm). split; [reflexivity|].
        destruct (Hstep c' e) as (H1 & H2 & H3); auto.
        { apply Hall. right. exact (get_own_in _ _ _ Hg). }
        repeat split; auto. discriminate.
      * exists (js "ðŸ³" ++ js " " ++ nm). split; [reflexivity|].
        destruct (Hstep c' (js "ðŸ³")) as (H1 & H2 & H3); auto.
        repeat split; auto. discriminate.
Qed.

Lemma cuisine_marker_step_idempotent_witness :
  inherited_name (js "korean") = false
  /\ from_option inherited_name false (Some (js "korean")) = false
  /\ cuisineEmojiStep (js "korean") (js "Bibimbap") = Some (js "🍚 Bibimbap")
  /\ RecipeRoute.cuisineEmojiStep (Some (js "korean")) (js "Bibimbap")
     = Some (js "ðŸš Bibimbap")
  /\ (exists nm',
        cuisineEmojiStep (js "korean") (js "Bibimbap") = Some nm'
        /\ matches_marker_class nm' = true
        /\ cuisineEmojiStep (js "korean") nm' = Some nm')
  /\ (exists nm',
        RecipeRoute.cuisineEmojiStep (Some (js "korean")) (js "Bibimbap")
          = Some nm'
        /\ RecipeRoute.cuisineEmojiStep (Some (js "korean")) nm' = Some nm').
Proof.
  split; [reflexivity|]. split; [reflexivity|].
  split; [vm_compute; reflexivity|]. split; [vm_compute; reflexivity|].
  destruct (cuisine_marker_step_idempotent (js "korean") (Some (js "korean"))
              (js "Bibimbap") eq_refl eq_refl)
    as [(b & Hb & Hbm & _ & _ & Hb2) (s & Hs & _ & _ & _ & _ & Hs2)].
  split; [exists b|exists s]; auto.
Defined.

(** ** The usage limiter *)

Local Open Scope Z_scope.

(** The premium check lets a free caller through after one read of the
    caller's row (none for an anonymous caller). *)
Lemma premium_check_free (env : environment) (req : request) (w : world) :
  free_caller (store w) req ->
  (forall id, fault env (SelectUser id) = None) ->
  exists w1,
    premium_check env (user req) w = (None, w1) /\ store w1 = store w.
Proof.
  unfold free_caller, premium_check. intros Hfree Hf.
  destruct (truthy_id (user req)) as [id|]; [|exists w; split; reflexivity].
  destruct Hfree as (u & Hu & Hp).
  exists (call (SelectUser id) w). split; [|reflexivity].
  unfold mbind, M_bind, select_user. rewrite Hf, Hu.
  unfold is_premium in Hp. rewrite Hp. reflexivity.
Qed.

(** One request of a free caller when the service fails no call: below the
    quota it is admitted and the stored count goes up by one (a first record
    starts at 1); at the quota it is answered with the limit response and the
    store is left as it was. *)
Lemma limiter_free (env : environment) (req : request) (w : world) :
  free_caller (store w) req ->
  no_faults env ->
  let ident := identifier_of req in
  let n := default 0 (usage_count w ident (today env)) in
  exists w',
    recipeGenerationLimiter env req w
    = (if 3 <=? n then Respond (limit_reached n)
       else Next (rate_limit_headers env n), w')
    /\ users (store w') = users (store w)
    /\ usage_count w' ident (today env)
       = (if 3 <=? n then usage_count w ident (today env) else Some (n + 1))
    /\ (forall k, k <> (ident, today env) ->
          recipe_usage (store w') !! k = recipe_usage (store w) !! k).
Proof.
  intros Hfree Hnf ident n.
  destruct (premium_check_free env req w Hfree) as (w1 & Hpc & Hs1).
  { intros id. apply Hnf. }
  unfold recipeGenerationLimiter. unfold mbind at 1. unfold M_bind at 1.
  rewrite Hpc. change (default (ip req) (truthy_id (user req))) with ident.
  unfold mbind at 1. unfold M_bind at 1. unfold select_usage.
  rewrite Hnf, Hs1.
  subst n. unfold usage_count.
  destruct (recipe_usage (store w) !! (ident, today env)) as [row|] eqn:Hrow;
    cbn [fmap option_fmap option_map default code no_rows];
    unfold id.
  - change maxFreeRecipes with 3.
    destruct (3 <=? count row) eqn:Hq.
    + eexists. split; [reflexivity|].
      cbn [store call]. rewrite Hs1, Hrow. repeat split; auto.
    + unfold mbind, M_bind, update_usage. rewrite Hnf.
      eexists. split; [reflexivity|].
      cbn [store call put users recipe_usage]. rewrite ?Hs1.
      split; [reflexivity|]. split.
      * rewrite lookup_alter_eq, Hrow. reflexivity.
      * intros k Hk. rewrite lookup_alter_ne; [reflexivity|congruence].
  - change (String.eqb "PGRST116" "PGRST116") with true. cbn [negb].
    change (maxFreeRecipes <=? 0) with false. cbn iota.
    unfold mbind, M_bind, insert_usage. rewrite Hnf.
    cbn [store call]. rewrite Hs1, Hrow.
    eexists. split; [reflexivity|].
    cbn [store call put users recipe_usage]. rewrite ?Hs1.
    split; [reflexivity|]. split.
    + rewrite lookup_insert_eq. reflexivity.
    + intros k Hk. rewrite lookup_insert_ne; [reflexivity|congruence].
Qed.

Lemma free_caller_users (d d' : db) (req : request) :
  users d' = users d -> free_caller d req -> free_caller d' req.
Proof. unfold free_caller. intros ->. auto. Qed.

(** One served request of the run below. *)
Lemma serve_free (env : environment) (req : request) (w : world)
    (ident : string) (day n : Z) (rest : list (environment * request)) :
  no_faults env /\ today env = day ->
  identifier_of req = ident /\ free_caller (store w) req ->
  default 0 (usage_count w ident day) = n ->
  exists w',
    serve ((env, req) :: rest) w
    = ((if 3 <=? n then Respond (limit_reached n)
        else Next (rate_limit_headers env n)), w') :: serve rest w'
    /\ users (store w') = users (store w)
    /\ usage_count w' ident day
       = (if 3 <=? n then usage_count w ident day else Some (n + 1)).
Proof.
  intros [Hnf Hday] [Hid Hfree] Hn.
  destruct (limiter_free env req w Hfree Hnf) as (w' & Hrun & Hu & Hc & _).
  cbv zeta in Hrun, Hc. rewrite Hid, Hday, Hn in Hrun, Hc.
  exists w'. cbn [serve]. rewrite Hrun. auto.
Qed.

(** C1.  Four requests in a row from one free caller on one day, starting
    without a usage record and with the service failing no call: the first
    three are admitted and leave the stored count at 1, 2 and 3; the fourth
    is answered 429 with [limit] 3, [current] 3 and the upgrade pointer, and
    the stored count stays 3. *)
Theorem four_requests_of_a_free_caller (e1 e2 e3 e4 : environment)
    (r1 r2 r3 r4 : request) (w0 : world) (ident : string) (day : Z) :
  Forall (fun e => no_faults e /\ today e = day) [e1; e2; e3; e4] ->
  Forall (fun r => identifier_of r = ident /\ free_caller (store w0) r)
         [r1; r2; r3; r4] ->
  usage_count w0 ident day = None ->
  exists w1 w2 w3 w4,
    serve [(e1, r1); (e2, r2); (e3, r3); (e4, r4)] w0
    = [(Next (rate_limit_headers e1 0), w1);
       (Next (rate_limit_headers e2 1), w2);
       (Next (rate_limit_headers e3 2), w3);
       (Respond (limit_reached 3), w4)]
    /\ usage_count w1 ident day = Some 1
    /\ usage_count w2 ident day = Some 2
    /\ usage_count w3 ident day = Some 3
    /\ usage_count w4 ident day = Some 3
    /\ status (limit_reached 3) = 429
    /\ field "limit" (limit_reached 3) = Some (JNumber 3)
    /\ field "current" (limit_reached 3) = Some (JNumber 3)
    /\ field "upgradeUrl" (limit_reached 3) = Some (JString "/membership").
Proof.
  intros He Hr H0.
  apply Forall_cons_1 in He as [He1 He]. apply Forall_cons_1 in He as [He2 He].
  apply Forall_cons_1 in He as [He3 He]. apply Forall_cons_1 in He as [He4 _].
  apply Forall_cons_1 in Hr as [[Hi1 Hf1] Hr].
  apply Forall_cons_1 in Hr as [[Hi2 Hf2] Hr].
  apply Forall_cons_1 in Hr as [[Hi3 Hf3] Hr].
  apply Forall_cons_1 in Hr as [[Hi4 Hf4] _].
  destruct (serve_free e1 r1 w0 ident day 0 [(e2, r2); (e3, r3); (e4, r4)])
    as (w1 & Hs1 & Hu1 & Hc1); auto; [rewrite H0; reflexivity|].
  cbn [Z.leb Z.compare] in Hs1, Hc1. cbn in Hc1.
  destruct (serve_free e2 r2 w1 ident day 1 [(e3, r3); (e4, r4)])
    as (w2 & Hs2 & Hu2 & Hc2); auto.
  { split; [exact Hi2|]. eapply free_caller_users; [exact Hu1|exact Hf2]. }
  { rewrite Hc1. reflexivity. }
  cbn in Hc2.
  destruct (serve_free e3 r3 w2 ident day 2 [(e4, r4)])
    as (w3 & Hs3 & Hu3 & Hc3); auto.
  { split; [exact Hi3|]. eapply free_caller_users; [|exact Hf3]. congruence. }
  { rewrite Hc2. reflexivity. }
  cbn in Hc3.
  destruct (serve_free e4 r4 w3 ident day 3 [])
    as (w4 & Hs4 & Hu4 & Hc4); auto.
  { split; [exact Hi4|]. eapply free_caller_users; [|exact Hf4]. congruence. }
  { rewrite Hc3. reflexivity. }
  cbn in Hc4.
  exists w1, w2, w3, w4.
  rewrite Hs1, Hs2, Hs3, Hs4.
  repeat split; auto. rewrite Hc4, Hc3. reflexivity.
Qed.

Lemma four_requests_of_a_free_caller_witness :
  exists w1 w2 w3 w4,
    serve [(reliable 1000, anonymous "203.0.113.7");
           (reliable 1000, anonymous "203.0.113.7");
           (reliable 1000, anonymous "203.0.113.7");
           (reliable 1000, anonymous "203.0.113.7")] empty_world
    = [(Next (rate_limit_headers (reliable 1000) 0), w1);
       (Next (rate_limit_headers (reliable 1000) 1), w2);
       (Next (rate_limit_headers (reliable 1000) 2), w3);
       (Respond (limit_reached 3), w4)]
    /\ usage_count w1 "203.0.113.7" 0 = Some 1
    /\ usage_count w2 "203.0.113.7" 0 = Some 2
    /\ usage_count w3 "203.0.113.7" 0 = Some 3
    /\ usage_count w4 "203.0.113.7" 0 = Some 3
    /\ status (limit_reached 3) = 429
    /\ field "limit" (limit_reached 3) = Some (JNumber 3)
    /\ field "current" (limit_reached 3) = Some (JNumber 3)
    /\ field "upgradeUrl" (limit_reached 3) = Some (JString "/membership").
Proof.
  apply (four_requests_of_a_free_caller
           (reliable 1000) (reliable 1000) (reliable 1000) (reliable 1000)
           (anonymous "203.0.113.7") (anonymous "203.0.113.7")
           (anonymous "203.0.113.7") (anonymous "203.0.113.7")
           empty_world "203.0.113.7" 0).
  - repeat constructor.
  - repeat constructor.
  - reflexivity.
Defined.

(** C3.  A caller whose row says [active] and [premium] is handed over after
    the single read of that row: no call touches the usage table, whatever it
    holds and whatever the service would do to such calls.  If that one read
    fails the answer is 500; it is never the 429 rejection. *)
Theorem premium_caller_bypasses_the_counter (env : environment)
    (req : request) (w : world) (id : string) (u : user_row) :
  truthy_id (user req) = Some id ->
  users (store w) !! id = Some u ->
  subscription_status u = "active"%string ->
  subscription_tier u = "premium"%string ->
  (fault env (SelectUser id) = None ->
   recipeGenerationLimiter env req w = (Next [], call (SelectUser id) w))
  /\ exists o,
       recipeGenerationLimiter env req w = (o, call (SelectUser id) w)
       /\ store (call (SelectUser id) w) = store w
       /\ trace (call (SelectUser id) w) = trace w ++ [SelectUser id]
       /\ forall r, o = Respond r -> status r = 500.
Proof.
  intros Hid Hu Hst Htier.
  assert (Hrun : recipeGenerationLimiter env req w
                 = (match fault env (SelectUser id) with
                    | Some _ => Respond internal_server_error
                    | None => Next []
                    end, call (SelectUser id) w)).
  { unfold recipeGenerationLimiter, premium_check. rewrite Hid.
    unfold mbind, M_bind, select_user.
    destruct (fault env (SelectUser id)); [reflexivity|].
    rewrite Hu, Hst, Htier. reflexivity. }
  split.
  - intros Hf. rewrite Hrun, Hf. reflexivity.
  - eexists. split; [exact Hrun|]. repeat split.
    intros r. destruct (fault env (SelectUser id)); [|discriminate].
    intros [= <-]. reflexivity.
Qed.

Lemma premium_caller_bypasses_the_counter_witness :
  (fault (usage_reads_fail 1000) (SelectUser "u-1") = None ->
   recipeGenerationLimiter (usage_reads_fail 1000) (signed_in "u-1")
     premium_world
   = (Next [], call (SelectUser "u-1") premium_world))
  /\ exists o,
       recipeGenerationLimiter (usage_reads_fail 1000) (signed_in "u-1")
         premium_world
       = (o, call (SelectUser "u-1") premium_world)
       /\ store (call (SelectUser "u-1") premium_world) = store premium_world
       /\ trace (call (SelectUser "u-1") premium_world)
          = trace premium_world ++ [SelectUser "u-1"]
       /\ forall r, o = Respond r -> status r = 500.
Proof.
  apply (premium_caller_bypasses_the_counter (usage_reads_fail 1000)
           (signed_in "u-1") premium_world "u-1" premium_row).
  - reflexivity.
  - vm_compute. reflexivity.
  - reflexivity.
  - reflexivity.
Defined.

(** C8.  For a caller the premium check lets through: a failed read of the
    usage record with any code but [PGRST116] is answered 500, and nothing is
    written; a failed write after a read that found the caller below the
    quota leaves the request admitted with the usual headers, and leaves the
    store, hence the count, as it was. *)
Theorem limiter_read_fails_closed_write_fails_open (env : environment)
    (req : request) (w : world) :
  free_caller (store w) req ->
  (forall id, fault env (SelectUser id) = None) ->
  (forall e,
     fault env (SelectUsage (identifier_of req) (today env)) = Some e ->
     code e <> "PGRST116"%string ->
     exists w',
       recipeGenerationLimiter env req w = (Respond internal_server_error, w')
       /\ status internal_server_error = 500
       /\ store w' = store w)
  /\ (fault env (SelectUsage (identifier_of req) (today env)) = None ->
      usage_writes_fail env ->
      default 0 (usage_count w (identifier_of req) (today env)) < 3 ->
      exists w',
        recipeGenerationLimiter env req w
        = (Next (rate_limit_headers env
                   (default 0 (usage_count w (identifier_of req) (today env)))),
           w')
        /\ store w' = store w).
Proof.
  intros Hfree Hfu.
  destruct (premium_check_free env req w Hfree Hfu) as (w1 & Hpc & Hs1).
  split.
  - intros e He Hcode.
    unfold recipeGenerationLimiter. unfold mbind at 1. unfold M_bind at 1.
    rewrite Hpc.
    change (default (ip req) (truthy_id (user req))) with (identifier_of req).
    unfold mbind, M_bind, select_usage. rewrite He.
    apply String.eqb_neq in Hcode. rewrite Hcode. cbn [negb].
    eexists. split; [reflexivity|]. split; [reflexivity|]. exact Hs1.
  - intros Hread [Hupd Hins] Hlt.
    unfold recipeGenerationLimiter. unfold mbind at 1. unfold M_bind at 1.
    rewrite Hpc.
    change (default (ip req) (truthy_id (user req))) with (identifier_of req).
    unfold mbind at 1. unfold M_bind at 1. unfold select_usage.
    rewrite Hread, Hs1.
    unfold usage_count in *.
    destruct (recipe_usage (store w) !! (identifier_of req, today env))
      as [row|] eqn:Hrow;
      cbn [fmap option_fmap option_map default code no_rows] in *;
      unfold id in *.
    + change maxFreeRecipes with 3.
      destruct (Z.leb_spec 3 (count row)) as [Hge|_]; [lia|].
      unfold mbind, M_bind, update_usage.
      destruct (Hupd (identifier_of req) (today env) (count row + 1))
        as [e ->].
      eexists. split; [reflexivity|]. exact Hs1.
    + change (String.eqb "PGRST116" "PGRST116") with true. cbn [negb].
      change (maxFreeRecipes <=? 0) with false. cbn iota.
      unfold mbind, M_bind, insert_usage.
      destruct (Hins (identifier_of req) (today env) 1 (user req)) as [e ->].
      eexists. split; [reflexivity|]. exact Hs1.
Qed.

Lemma limiter_read_fails_closed_write_fails_open_witness :
  (exists w',
     recipeGenerationLimiter (usage_reads_fail 1000) (anonymous "203.0.113.7")
       empty_world
     = (Respond internal_server_error, w')
     /\ status internal_server_error = 500
     /\ store w' = store empty_world)
  /\ (exists w',
        recipeGenerationLimiter (read_only 1000) (anonymous "203.0.113.7")
          empty_world
        = (Next (rate_limit_headers (read_only 1000) 0), w')
        /\ store w' = store empty_world).
Proof.
  split.
  - apply (proj1 (limiter_read_fails_closed_write_fails_open
                    (usage_reads_fail 1000) (anonymous "203.0.113.7")
                    empty_world I (fun _ => eq_refl))
                 {| code := "57014" |}).
    + reflexivity.
    + discriminate.
  - apply (proj2 (limiter_read_fails_closed_write_fails_open
                    (read_only 1000) (anonymous "203.0.113.7")
                    empty_world I (fun _ => eq_refl))).
    + reflexivity.
    + split; intros; eexists; reflexivity.
    + vm_compute. reflexivity.
Defined.

(** ** The recipe route *)

Section RouteFacts.

Import RecipeRoute.

Variable isLength : jsstring -> nat -> nat -> bool.

(** C10.  The limiter runs before the body is validated.  For a free caller
    below the quota, with the service failing no call, a body that fails
    validation is answered 400 and the caller's stored count for the day has
    gone up by one all the same. *)
Theorem invalid_request_consumes_quota (env : environment) (svc : services)
    (req : request) (b : request_body) (w : world) :
  free_caller (store w) (optionalAuth svc req) ->
  no_faults env ->
  default 0 (usage_count w (identifier_of (optionalAuth svc req)) (today env))
    < 3 ->
  recipeValidation isLength b <> [] ->
  exists w',
    generate_recipe_route isLength env svc req b w
    = (validation_failed (recipeValidation isLength b), w')
    /\ status (validation_failed (recipeValidation isLength b)) = 400
    /\ usage_count w' (identifier_of (optionalAuth svc req)) (today env)
       = Some (default 0 (usage_count w
                            (identifier_of (optionalAuth svc req))
                            (today env)) + 1).
Proof.
  intros Hfree Hnf Hlt Hbad.
  destruct (limiter_free env (optionalAuth svc req) w Hfree Hnf)
    as (w' & Hrun & _ & Hc & _).
  cbv zeta in Hrun, Hc.
  destruct (Z.leb_spec 3
              (default 0 (usage_count w (identifier_of (optionalAuth svc req))
                            (today env)))) as [Hge|_]; [lia|].
  exists w'. split; [|split; [reflexivity|exact Hc]].
  unfold generate_recipe_route, mbind, M_bind. rewrite Hrun.
  unfold generate_recipe_handler.
  destruct (recipeValidation isLength b); [congruence|reflexivity].
Qed.

End RouteFacts.

Lemma invalid_request_consumes_quota_witness :
  exists w',
    RecipeRoute.generate_recipe_route code_unit_length (reliable 1000) offline
      (anonymous "203.0.113.7") short_body empty_world
    = (RecipeRoute.validation_failed
         (RecipeRoute.recipeValidation code_unit_length short_body), w')
    /\ status (RecipeRoute.validation_failed
                 (RecipeRoute.recipeValidation code_unit_length short_body))
       = 400
    /\ usage_count w'
         (identifier_of (RecipeRoute.optionalAuth offline
                           (anonymous "203.0.113.7")))
         (today (reliable 1000))
       = Some (default 0
                 (usage_count empty_world
                    (identifier_of (RecipeRoute.optionalAuth offline
                                      (anonymous "203.0.113.7")))
                    (today (reliable 1000))) + 1).
Proof.
  apply (invalid_request_consumes_quota code_unit_length (reliable 1000)
           offline (anonymous "203.0.113.7") short_body empty_world).
  - exact I.
  - intros o. reflexivity.
  - vm_compute. reflexivity.
  - vm_compute. discriminate.
Defined.

(** The run of the witness, spelled out: the answer is 400 and the caller's
    count is 1 afterwards. *)
Example short_ingredients_are_counted :
  let '(r, w') :=
    RecipeRoute.generate_recipe_route code_unit_length (reliable 1000) offline
      (anonymous "203.0.113.7") short_body empty_world in
  status r = 400 /\ usage_count w' "203.0.113.7" 0 = Some 1.
Proof. vm_compute. split; reflexivity. Qed.

(** ** The subscription webhook *)

Section WebhookFacts.

Import Subscription.

Local Open Scope Z_scope.

Lemma bind_then_ret {A : Type} (m : M A) (r : response) (w : world) :
  (m ≫= fun _ => mret r) w = (r, snd (m w)).
Proof. unfold mbind, M_bind, mret, M_ret. destruct (m w). reflexivity. Qed.

(** A failed update leaves the store alone. *)
Lemma update_user_faulted (env : environment) (id : option string)
    (p : user_patch) (w : world) :
  is_Some (fault env (UpdateUser id p)) ->
  store (snd (update_user env id p w)) = store w.
Proof. intros [e He]. unfold update_user. rewrite He. reflexivity. Qed.

Lemma bind_update_store (env : environment) (id : option string)
    (p : user_patch) (w : world) :
  is_Some (fault env (UpdateUser id p)) ->
  store (snd ((update_user env id p ≫= fun _ => mret tt) w)) = store w.
Proof.
  intros H. unfold mbind, M_bind, mret, M_ret.
  pose proof (update_user_faulted env id p w H) as Hs.
  destruct (update_user env id p w). exact Hs.
Qed.

Lemma webhook_verified (env : environment) (sdk : stripe_sdk)
    (req : webhook_request) (event : stripe_event) (w : world) :
  constructEvent sdk (raw_body req) (stripe_signature req)
  = inl (Event event) ->
  webhook_handler env sdk req w
  = (received, snd (dispatch env sdk event w)).
Proof.
  intros Hev. unfold webhook_handler. rewrite Hev.
  apply (bind_then_ret (dispatch env sdk event) received w).
Qed.

(** Below its limit the route's limiter hands over to the handler. *)
Lemma webhook_below_limit (env : environment) (sdk : stripe_sdk)
    (counted : nat) (req : webhook_request) :
  (counted < 10)%nat ->
  webhook env sdk counted req = webhook_handler env sdk req.
Proof.
  intros Hlt. unfold webhook, webhookLimiter.
  destruct (Nat.ltb_spec 10 (S counted)); [lia|reflexivity].
Qed.

Lemma dispatch_unhandled (env : environment) (sdk : stripe_sdk)
    (event : stripe_event) (w : world) :
  ~ In (event_type event) handled_types ->
  dispatch env sdk event w = (tt, w).
Proof.
  intros Hn. unfold dispatch, handled_types in *. cbn [In] in Hn.
  repeat match goal with
         | |- context [String.eqb ?a ?b] =>
           destruct (String.eqb_spec a b) as [Heq|_];
           [exfalso; apply Hn; rewrite Heq; in_list|]
         end.
  reflexivity.
Qed.

Lemma dispatch_faulted (env : environment) (sdk : stripe_sdk)
    (event : stripe_event) (w : world) :
  (forall o, is_Some (fault env o)) ->
  store (snd (dispatch env sdk event w)) = store w.
Proof.
  intros Hall. unfold dispatch.
  repeat match goal with
         | |- context [String.eqb ?a ?b] => destruct (String.eqb a b)
         end;
    unfold handleCheckoutSessionCompleted, handleSubscriptionCreated,
      handleSubscriptionUpdated, handleSubscriptionDeleted,
      handlePaymentSucceeded, handlePaymentFailed;
    repeat match goal with
           | |- context [match ?x with _ => _ end] => destruct x
           end;
    try reflexivity; apply bind_update_store, Hall.
Qed.

(** C7 (amended).  The route's limiter comes first: the request that finds
    ten requests of its address counted in the current minute is answered
    429, whatever its signature, and nothing else happens.  Below that
    limit: when [constructEvent] throws the answer is 400 and nothing is
    touched; when it returns an event with its data, the answer is 200 with
    [{ received: true }] for every event type and every behaviour of the
    store (for a type outside the six handled ones nothing else happens, and
    when the service fails every call the store is left as it was); when it
    returns an event whose [data.object] is missing the answer is 200 and
    nothing is touched; and when it returns [null], or an event of a handled
    type without [data], the answer is 500 and nothing is touched. *)
Theorem webhook_acknowledges_once_verified (env : environment)
    (sdk : stripe_sdk) (counted : nat) (req : webhook_request) (w : world) :
  ((10 <= counted)%nat ->
   webhook env sdk counted req w = (rate_limit_exceeded, w)
   /\ status rate_limit_exceeded = 429)
  /\ ((counted < 10)%nat ->
      (forall event,
         constructEvent sdk (raw_body req) (stripe_signature req)
         = inl (Event event) ->
         fst (webhook env sdk counted req w) = received
         /\ status received = 200
         /\ field "received" received = Some (JBool true)
         /\ (~ In (event_type event) handled_types ->
             webhook env sdk counted req w = (received, w))
         /\ ((forall o, is_Some (fault env o)) ->
             store (snd (webhook env sdk counted req w)) = store w))
      /\ (forall type,
            constructEvent sdk (raw_body req) (stripe_signature req)
            = inl (EventWithoutObject type) ->
            webhook env sdk counted req w = (received, w))
      /\ (forall type,
            constructEvent sdk (raw_body req) (stripe_signature req)
            = inl (EventWithoutData type) ->
            (In type handled_types ->
             webhook env sdk counted req w = (processing_failed, w))
            /\ (~ In type handled_types ->
                webhook env sdk counted req w = (received, w)))
      /\ (constructEvent sdk (raw_body req) (stripe_signature req)
          = inl NoEvent ->
          webhook env sdk counted req w = (processing_failed, w))
      /\ status processing_failed = 500
      /\ (forall message,
            constructEvent sdk (raw_body req) (stripe_signature req)
            = inr message ->
            webhook env sdk counted req w
            = ({| status := 400;
                  body := Text ("Webhook Error: " +:+ message) |}, w))).
Proof.
  split.
  - intros Hge. split; [|reflexivity]. unfold webhook, webhookLimiter.
    destruct (Nat.ltb_spec 10 (S counted)); [reflexivity|lia].
  - intros Hlt. rewrite (webhook_below_limit env sdk counted req Hlt).
    split; [|split; [|split; [|split; [|split]]]].
    + intros event Hev. rewrite (webhook_verified env sdk req event w Hev).
      repeat split.
      * intros Hn. rewrite (dispatch_unhandled env sdk event w Hn).
        reflexivity.
      * intros Hall. apply dispatch_faulted, Hall.
    + intros type Hev. unfold webhook_handler. rewrite Hev. reflexivity.
    + intros type Hev. unfold webhook_handler. rewrite Hev.
      destruct (existsb (String.eqb type) handled_types) eqn:Hin.
      * split; [reflexivity|]. intros Hn. exfalso. apply Hn.
        apply existsb_exists in Hin as (x & Hx & Heq).
        apply String.eqb_eq in Heq. subst x. exact Hx.
      * split; [|reflexivity]. intros Hh. exfalso.
        assert (Ht : existsb (String.eqb type) handled_types = true).
        { apply existsb_exists. exists type. split; [exact Hh|].
          apply String.eqb_refl. }
        congruence.
    + intros Hev. unfold webhook_handler. rewrite Hev. reflexivity.
    + reflexivity.
    + intros message Hev. unfold webhook_handler. rewrite Hev. reflexivity.
Qed.

(** The switch hands a [customer.subscription.deleted] event to
    [handleSubscriptionDeleted]. *)
Lemma dispatch_deleted (env : environment) (sdk : stripe_sdk)
    (event : stripe_event) :
  event_type event = "customer.subscription.deleted"%string ->
  dispatch env sdk event = handleSubscriptionDeleted env (data_object event).
Proof. intros Ht. unfold dispatch. rewrite Ht. reflexivity. Qed.

(** After a deletion event for a user with a row, applied while the service
    works, the row is [cancelled_at] the instant of the application. *)
Lemma handleSubscriptionDeleted_row (env : environment)
    (subscription : stripe_object) (w : world) (id : string) (u : user_row) :
  no_faults env ->
  metadata_userId subscription = Some id ->
  users (store w) !! id = Some u ->
  users (store (snd (handleSubscriptionDeleted env subscription w))) !! id
  = Some (cancelled_at (now env) u).
Proof.
  intros Hnf Hid Hu.
  unfold handleSubscriptionDeleted, mbind, M_bind, update_user.
  rewrite Hnf, Hid. unfold mret, M_ret. cbn [snd store put users].
  rewrite lookup_alter_eq, Hu. reflexivity.
Qed.

Lemma cancelled_at_twice (t1 t2 : Z) (u : user_row) :
  cancelled_at t2 (cancelled_at t1 u) = cancelled_at t2 u.
Proof. reflexivity. Qed.

(** C5 (amended).  Applied while the service works to a user who has a row,
    the deletion event sets status [cancelled], tier [free] and the end date
    (and [updated_at]) to the instant of the application.  Applied twice, it
    leaves status and tier as after the first application and the two dates
    at the instant of the second; the store is the one a single application
    at that second instant produces, and is the store of the first
    application when both happen at the same instant. *)
Theorem subscription_deleted_is_idempotent_up_to_dates (e1 e2 : environment)
    (subscription : stripe_object) (w : world) (id : string) (u : user_row) :
  no_faults e1 -> no_faults e2 ->
  metadata_userId subscription = Some id ->
  users (store w) !! id = Some u ->
  users (store (snd (handleSubscriptionDeleted e1 subscription w))) !! id
  = Some (cancelled_at (now e1) u)
  /\ users (store (snd (handleSubscriptionDeleted e2 subscription
                          (snd (handleSubscriptionDeleted e1 subscription w)))))
       !! id
     = Some (cancelled_at (now e2) u)
  /\ store (snd (handleSubscriptionDeleted e2 subscription
                   (snd (handleSubscriptionDeleted e1 subscription w))))
     = store (snd (handleSubscriptionDeleted e2 subscription w))
  /\ (now e1 = now e2 ->
      store (snd (handleSubscriptionDeleted e2 subscription
                    (snd (handleSubscriptionDeleted e1 subscription w))))
      = store (snd (handleSubscriptionDeleted e1 subscription w))).
Proof.
  intros Hnf1 Hnf2 Hid Hu.
  pose proof (handleSubscriptionDeleted_row e1 subscription w id u Hnf1 Hid Hu)
    as H1.
  pose proof (handleSubscriptionDeleted_row e2 subscription _ id _ Hnf2 Hid H1)
    as H2.
  rewrite cancelled_at_twice in H2.
  assert (Hstore :
            store (snd (handleSubscriptionDeleted e2 subscription
                          (snd (handleSubscriptionDeleted e1 subscription w))))
            = store (snd (handleSubscriptionDeleted e2 subscription w))).
  { unfold handleSubscriptionDeleted, mbind, M_bind, update_user.
    rewrite !Hnf1, !Hnf2, Hid. unfold mret, M_ret.
    cbn [snd store put call users recipe_usage].
    f_equal. rewrite alter_alter_eq. apply alter_ext.
    intros x _. reflexivity. }
  repeat split; [exact H1|exact H2|exact Hstore|].
  intros Hnow. rewrite Hstore.
  unfold handleSubscriptionDeleted, mbind, M_bind, update_user.
  rewrite !Hnf1, !Hnf2, Hid, Hnow. reflexivity.
Qed.

End WebhookFacts.

Lemma webhook_acknowledges_once_verified_witness :
  (Subscription.webhook (down 1000) toy_sdk 10
     (signed "customer.subscription.deleted") premium_world
   = (Subscription.rate_limit_exceeded, premium_world)
   /\ status Subscription.rate_limit_exceeded = 429%Z)
  /\ (fst (Subscription.webhook (down 1000) toy_sdk 9
             (signed "customer.subscription.deleted") premium_world)
      = Subscription.received
      /\ status Subscription.received = 200%Z
      /\ field "received" Subscription.received = Some (JBool true)
      /\ (~ In (Subscription.event_type deletion_event)
               Subscription.handled_types ->
          Subscription.webhook (down 1000) toy_sdk 9
            (signed "customer.subscription.deleted") premium_world
          = (Subscription.received, premium_world))
      /\ ((forall o, is_Some (fault (down 1000) o)) ->
          store (snd (Subscription.webhook (down 1000) toy_sdk 9
                        (signed "customer.subscription.deleted")
                        premium_world))
          = store premium_world)).
Proof.
  split.
  - apply (proj1 (webhook_acknowledges_once_verified (down 1000) toy_sdk 10
                    (signed "customer.subscription.deleted") premium_world)).
    lia.
  - apply (proj1 (proj2 (webhook_acknowledges_once_verified (down 1000)
                           toy_sdk 9 (signed "customer.subscription.deleted")
                           premium_world)
                        ltac:(lia))
                 deletion_event).
    vm_compute. reflexivity.
Defined.

(** With ten requests of its address counted in the current minute, a
    request whose signature verifies is answered 429, not 200. *)
Lemma verified_means_acknowledged_fails : ~ verified_means_acknowledged.
Proof.
  intros H.
  specialize (H (reliable 1000) toy_sdk 10%nat
                (signed "customer.subscription.deleted") premium_world
                (Subscription.Event deletion_event)).
  assert (Hev : Subscription.constructEvent toy_sdk
                  (Subscription.raw_body
                     (signed "customer.subscription.deleted"))
                  (Subscription.stripe_signature
                     (signed "customer.subscription.deleted"))
                = inl (Subscription.Event deletion_event))
    by (vm_compute; reflexivity).
  specialize (H Hev). vm_compute in H. discriminate H.
Qed.

Lemma subscription_deleted_is_idempotent_up_to_dates_witness :
  users (store (snd (Subscription.handleSubscriptionDeleted (reliable 1000)
                       (subscription_of "u-1") premium_world))) !! "u-1"%string
  = Some (cancelled_at (now (reliable 1000)) premium_row)
  /\ users (store (snd (Subscription.handleSubscriptionDeleted (reliable 2000)
                          (subscription_of "u-1")
                          (snd (Subscription.handleSubscriptionDeleted
                                  (reliable 1000) (subscription_of "u-1")
                                  premium_world))))) !! "u-1"%string
     = Some (cancelled_at (now (reliable 2000)) premium_row)
  /\ store (snd (Subscription.handleSubscriptionDeleted (reliable 2000)
                   (subscription_of "u-1")
                   (snd (Subscription.handleSubscriptionDeleted
                           (reliable 1000) (subscription_of "u-1")
                           premium_world))))
     = store (snd (Subscription.handleSubscriptionDeleted (reliable 2000)
                     (subscription_of "u-1") premium_world))
  /\ (now (reliable 1000) = now (reliable 2000) ->
      store (snd (Subscription.handleSubscriptionDeleted (reliable 2000)
                    (subscription_of "u-1")
                    (snd (Subscription.handleSubscriptionDeleted
                            (reliable 1000) (subscription_of "u-1")
                            premium_world))))
      = store (snd (Subscription.handleSubscriptionDeleted (reliable 1000)
                      (subscription_of "u-1") premium_world))).
Proof.
  apply (subscription_deleted_is_idempotent_up_to_dates (reliable 1000)
           (reliable 2000) (subscription_of "u-1") premium_world "u-1"
           premium_row).
  - intros o. reflexivity.
  - intros o. reflexivity.
  - reflexivity.
  - vm_compute. reflexivity.
Defined.

(** Delivered at instant 1000 and again at instant 2000, the deletion event
    leaves the end date 2000, not the 1000 the first delivery wrote. *)
Lemma deleted_twice_same_as_once_fails : ~ deleted_twice_same_as_once.
Proof.
  intros H.
  specialize (H (reliable 1000) (reliable 2000) (subscription_of "u-1")
                premium_world (fun _ => eq_refl) (fun _ => eq_refl)).
  apply (f_equal (fun d => subscription_end_date <$> users d !! "u-1"%string))
    in H.
  vm_compute in H. discriminate H.
Qed.

(** * Further properties

    ** Splitting and trimming *)

Local Open Scope N_scope.

Lemma split_on_no_separator (sep : N -> bool) (s : jsstring) :
  Forall (Forall (fun u => sep u = false)) (split_on sep s).
Proof.
  induction s as [|a s IH]; cbn [split_on].
  - repeat constructor.
  - destruct (sep a) eqn:Ha.
    + constructor; [constructor|exact IH].
    + destruct (split_on sep s) as [|w ws].
      * repeat constructor. exact Ha.
      * apply List.Forall_cons_iff in IH as [Hw Hws].
        constructor; [constructor; assumption|exact Hws].
Qed.

Lemma trimStart_suffix (s : jsstring) : exists pre, s = pre ++ trimStart s.
Proof.
  induction s as [|a s [pre IH]]; cbn [trimStart].
  - exists []. reflexivity.
  - destruct (is_space a).
    + exists (a :: pre). cbn. f_equal. exact IH.
    + exists []. reflexivity.
Qed.

Lemma trimStart_head (s : jsstring) :
  trimStart s = [] \/ exists a r, trimStart s = a :: r /\ is_space a = false.
Proof.
  induction s as [|a s IH]; cbn [trimStart]; [left; reflexivity|].
  destruct (is_space a) eqn:Ha; [exact IH|].
  right. exists a, s. split; [reflexivity|exact Ha].
Qed.

(** [trim] keeps a run of consecutive units of its argument. *)
Lemma trim_infix (s : jsstring) : exists pre post, s = pre ++ trim s ++ post.
Proof.
  unfold trim.
  destruct (trimStart_suffix s) as [pre Hpre].
  destruct (trimStart_suffix (rev (trimStart s))) as [q Hq].
  exists pre, (rev q).
  rewrite <- rev_app_distr, <- Hq, rev_involutive. exact Hpre.
Qed.

(** A trimmed string is empty or starts and ends with a unit that is no
    white space. *)
Lemma trim_ends (s : jsstring) :
  trim s = []
  \/ (exists a r, trim s = a :: r /\ is_space a = false)
     /\ (exists r b, trim s = r ++ [b] /\ is_space b = false).
Proof.
  unfold trim.
  destruct (trimStart_head (rev (trimStart s))) as [He|(b & r & Hb & Hsp)].
  - left. rewrite He. reflexivity.
  - right. rewrite Hb. cbn [rev]. split.
    + destruct (trimStart_suffix (rev (trimStart s))) as [q Hq].
      rewrite Hb in Hq.
      apply (f_equal (@rev N)) in Hq.
      rewrite rev_involutive, rev_app_distr in Hq. cbn [rev] in Hq.
      destruct (trimStart_head s) as [He|(a & r' & Ha & Hspa)].
      * rewrite He in Hq. destruct (rev r); discriminate Hq.
      * rewrite Ha in Hq.
        destruct (rev r) as [|c r''] eqn:Hr.
        -- cbn in Hq. injection Hq as Hab _. subst b.
           exists a, []. split; [reflexivity|exact Hspa].
        -- cbn in Hq. injection Hq as Hac _. subst c.
           exists a, (r'' ++ [b]). split; [reflexivity|exact Hspa].
    + exists (rev r), b. split; [reflexivity|exact Hsp].
Qed.

(** ** The ingredient parser and the matcher *)

Section MoreFallbackFacts.

Variable toLowerCase : jsstring -> jsstring.

(** X1.  Every token [parseIngredients] returns is non-empty, holds no comma
    and no newline, and neither starts nor ends with white space. *)
Theorem parseIngredients_tokens (s t : jsstring) :
  In t (parseIngredients toLowerCase s) ->
  t <> []
  /\ Forall (fun u => is_separator u = false) t
  /\ (exists a r, t = a :: r /\ is_space a = false)
  /\ (exists r b, t = r ++ [b] /\ is_space b = false).
Proof.
  unfold parseIngredients. intros Hin.
  apply filter_In in Hin as [Hin Hlen].
  apply in_map_iff in Hin as (p & <- & Hp).
  assert (Hne : trim p <> []).
  { intros He. rewrite He in Hlen. discriminate Hlen. }
  split; [exact Hne|]. split.
  - pose proof (split_on_no_separator is_separator (toLowerCase s)) as Hall.
    rewrite List.Forall_forall in Hall. specialize (Hall p Hp).
    destruct (trim_infix p) as (pre & post & Heq).
    rewrite Heq in Hall.
    apply Forall_app in Hall as [_ Hall].
    apply Forall_app in Hall as [Hall _]. exact Hall.
  - destruct (trim_ends p) as [He|H]; [contradiction|exact H].
Qed.

Lemma trimStart_blank (s : jsstring) :
  Forall (fun u => is_space u = true) s -> trimStart s = [].
Proof.
  induction 1 as [|a s Ha _ IH]; cbn [trimStart]; [reflexivity|].
  rewrite Ha. exact IH.
Qed.

Lemma split_on_pieces (P : N -> Prop) (sep : N -> bool) (s : jsstring) :
  Forall P s -> Forall (Forall P) (split_on sep s).
Proof.
  induction 1 as [|a s Ha _ IH]; cbn [split_on].
  - repeat constructor.
  - destruct (sep a).
    + constructor; [constructor|exact IH].
    + destruct (split_on sep s) as [|w ws].
      * repeat constructor. exact Ha.
      * apply List.Forall_cons_iff in IH as [Hw Hws].
        constructor; [constructor; assumption|exact Hws].
Qed.

(** X2.  A text that, once lower-cased, holds only white space, commas and
    newlines yields no token at all. *)
Theorem parseIngredients_blank (s : jsstring) :
  Forall (fun u => is_space u = true \/ is_separator u = true)
         (toLowerCase s) ->
  parseIngredients toLowerCase s = [].
Proof.
  intros Hblank. unfold parseIngredients.
  pose proof (split_on_pieces _ is_separator _ Hblank) as Hp.
  pose proof (split_on_no_separator is_separator (toLowerCase s)) as Hs.
  change (fun u : N => (u =? 44) || (u =? 10)) with is_separator.
  induction (split_on is_separator (toLowerCase s)) as [|p ps IH];
    [reflexivity|].
  apply List.Forall_cons_iff in Hp as [Hp Hps].
  apply List.Forall_cons_iff in Hs as [Hs Hss].
  cbn [map List.filter].
  assert (Ht : trim p = []).
  { unfold trim. rewrite (trimStart_blank p); [reflexivity|].
    rewrite List.Forall_forall in Hp, Hs |- *.
    intros u Hu. destruct (Hp u Hu) as [H|H]; [exact H|].
    rewrite (Hs u Hu) in H. discriminate H. }
  rewrite Ht. cbn. apply IH; assumption.
Qed.

Lemma score_le_length (toks : list jsstring) (r : recipe) :
  (score toLowerCase toks r <= length toks)%nat.
Proof.
  unfold score.
  set (text := toLowerCase (join (js " ") (ingredients r))).
  assert (H : forall n,
             (fold_left
                (fun sc tok => if includes text tok then S sc else sc)
                toks n <= n + length toks)%nat).
  { induction toks as [|t toks IH]; intros n; cbn [fold_left length].
    - lia.
    - destruct (includes text t).
      + specialize (IH (S n)). lia.
      + specialize (IH n). lia. }
  apply (H 0%nat).
Qed.

(** X3.  On a catalog whose four walked groups are not all empty, the matcher
    returns the first recipe, in the order korean, italian, asian, default,
    whose score is maximal: the recipes before it score strictly less, the
    ones after it at most as much.  A score never exceeds the number of user
    ingredients. *)
Theorem matcher_returns_first_best (toks : list jsstring)
    (recipes : templates) :
  allRecipes recipes <> [] ->
  exists b l1 l2,
    findBestMatchingRecipe toLowerCase toks recipes = Some b
    /\ allRecipes recipes = l1 ++ b :: l2
    /\ Forall (fun x => (score toLowerCase toks x
                         < score toLowerCase toks b)%nat) l1
    /\ Forall (fun x => (score toLowerCase toks x
                         <= score toLowerCase toks b)%nat) l2
    /\ (score toLowerCase toks b <= length toks)%nat.
Proof.
  intros Hne.
  destruct (findBestMatchingRecipe_first_max toLowerCase toks recipes Hne)
    as (b & l1 & l2 & Hf & Hs & H1 & H2).
  exists b, l1, l2. repeat split; auto. apply score_le_length.
Qed.

(** X4.  When no recipe of the walked groups contains any user ingredient,
    the matcher returns the first of them ([undefined] when all four groups
    are empty). *)
Theorem matcher_without_match_returns_first (toks : list jsstring)
    (recipes : templates) :
  (forall r, In r (allRecipes recipes) -> score toLowerCase toks r = 0%nat) ->
  findBestMatchingRecipe toLowerCase toks recipes = head (allRecipes recipes).
Proof.
  intros Hz.
  destruct (allRecipes recipes) as [|r0 rest] eqn:Hall.
  - unfold findBestMatchingRecipe. rewrite Hall. reflexivity.
  - destruct (findBestMatchingRecipe_first_max toLowerCase toks recipes)
      as (b & l1 & l2 & Hf & Hs & H1 & _); [congruence|].
    rewrite Hf. rewrite Hall in Hs.
    destruct l1 as [|x l1].
    + cbn in Hs. injection Hs as -> _. reflexivity.
    + apply List.Forall_cons_iff in H1 as [Hx _].
      assert (Hb : In b (r0 :: rest))
        by (rewrite Hs; apply in_or_app; right; left; reflexivity).
      rewrite (Hz b Hb) in Hx. lia.
Qed.

End MoreFallbackFacts.

Lemma parseIngredients_tokens_witness :
  In (js "rice") (parseIngredients toLowerCaseLatin (js "Chicken,  Rice ,"))
  /\ js "rice" <> []
  /\ Forall (fun u => is_separator u = false) (js "rice")
  /\ (exists a r, js "rice" = a :: r /\ is_space a = false)
  /\ (exists r b, js "rice" = r ++ [b] /\ is_space b = false).
Proof.
  assert (H : In (js "rice")
                (parseIngredients toLowerCaseLatin (js "Chicken,  Rice ,")))
    by (vm_compute; right; left; reflexivity).
  split; [exact H|].
  apply (parseIngredients_tokens toLowerCaseLatin (js "Chicken,  Rice ,")
           (js "rice") H).
Defined.

Lemma parseIngredients_blank_witness :
  parseIngredients toLowerCaseLatin (js " , ,,  ") = [].
Proof.
  apply (parseIngredients_blank toLowerCaseLatin (js " , ,,  ")).
  let v := eval vm_compute in (toLowerCaseLatin (js " , ,,  ")) in
  change (toLowerCaseLatin (js " , ,,  ")) with v.
  repeat (apply List.Forall_cons;
          [first [left; reflexivity | right; reflexivity]|]).
  apply List.Forall_nil.
Defined.

Lemma matcher_returns_first_best_witness :
  exists b l1 l2,
    findBestMatchingRecipe toLowerCaseLatin [js "파스타"; js "토마토"]
      getRecipeTemplates = Some b
    /\ allRecipes getRecipeTemplates = l1 ++ b :: l2
    /\ Forall (fun x => (score toLowerCaseLatin [js "파스타"; js "토마토"] x
                         < score toLowerCaseLatin [js "파스타"; js "토마토"] b)%nat)
              l1
    /\ Forall (fun x => (score toLowerCaseLatin [js "파스타"; js "토마토"] x
                         <= score toLowerCaseLatin [js "파스타"; js "토마토"] b)%nat)
              l2
    /\ (score toLowerCaseLatin [js "파스타"; js "토마토"] b
        <= length [js "파스타"; js "토마토"])%nat.
Proof.
  apply (matcher_returns_first_best toLowerCaseLatin
           [js "파스타"; js "토마토"] getRecipeTemplates).
  vm_compute. discriminate.
Defined.

Lemma matcher_without_match_returns_first_witness :
  findBestMatchingRecipe toLowerCaseLatin [js "saffron"; js "truffle"]
    getRecipeTemplates
  = head (allRecipes getRecipeTemplates).
Proof.
  apply (matcher_without_match_returns_first toLowerCaseLatin
           [js "saffron"; js "truffle"] getRecipeTemplates).
  intros r Hin. unfold allRecipes, getRecipeTemplates in Hin.
  cbn [korean italian asian default_ app In] in Hin.
  repeat (destruct Hin as [<-|Hin]; [vm_compute; reflexivity|]).
  destruct Hin.
Defined.

(** ** The customizer, step by step *)

Section CustomizerFacts.

Variable toLowerCase : jsstring -> jsstring.

(** The four steps behind a result of [customizeRecipe]. *)
Lemma customizeRecipe_steps (r r' : recipe) (fd : formData)
    (toks : list jsstring) :
  customizeRecipe toLowerCase r fd toks = Some r' ->
  exists r1 r2 r3 nm,
    adjustTimes r (cookingTime fd) = Some r1
    /\ (if truthy (dietary fd)
        then applyDietaryRestrictions r1 (dietary fd) else Some r1) = Some r2
    /\ (if truthy (skillLevel fd)
        then d ← adjustDifficulty (difficulty r2) (skillLevel fd);
             Some (set_difficulty r2 d)
        else Some r2) = Some r3
    /\ cuisineEmojiStep (cuisine fd) (name r3) = Some nm
    /\ r' = set_ingredients (set_name r3 nm)
              (addUserIngredients toLowerCase (ingredients r) toks).
Proof.
  unfold customizeRecipe. intros H.
  destruct (adjustTimes r (cookingTime fd)) as [r1|]; [|discriminate].
  cbn [mbind option_bind] in H.
  destruct (if truthy (dietary fd) then _ else _) as [r2|] eqn:H2;
    [|discriminate].
  cbn [mbind option_bind] in H.
  destruct (if truthy (skillLevel fd) then _ else _) as [r3|] eqn:H3;
    [|discriminate].
  cbn [mbind option_bind] in H.
  destruct (cuisineEmojiStep (cuisine fd) (name r3)) as [nm|] eqn:H4;
    [|discriminate].
  cbn [mbind option_bind] in H. injection H as <-.
  exists r1, r2, r3, nm. auto.
Qed.

Lemma truthy_key {A : Type} (obj : list (jsstring * A)) (k : jsstring) (v : A) :
  Forall (fun p => truthy (fst p) = true) obj ->
  get obj k = Own v -> truthy k = true.
Proof.
  intros Hkeys. unfold get.
  destruct (List.find _ obj) as [p|] eqn:Hf;
    [|destruct (inherited_name k); discriminate].
  intros _. apply find_some in Hf as [Hin Heq].
  rewrite List.Forall_forall in Hkeys. specialize (Hkeys p Hin).
  destruct (fst p) as [|a s]; [discriminate|].
  destruct k; [discriminate Heq|reflexivity].
Qed.

Lemma table_keys_truthy :
  Forall (fun p => truthy (fst p) = true) timeAdjustments
  /\ Forall (fun p => truthy (fst p) = true) restrictions
  /\ Forall (fun p => truthy (fst p) = true) levelMap.
Proof.
  repeat split;
    repeat (apply List.Forall_cons; [vm_compute; reflexivity|]);
    apply List.Forall_nil.
Qed.

Lemma adjustTimes_result (r r1 : recipe) (ct : jsstring) :
  adjustTimes r ct = Some r1 ->
  r1 = match get timeAdjustments ct with
       | Own a => set_times r (prep a) (cook a) (total a)
       | _ => r
       end.
Proof.
  unfold adjustTimes.
  destruct (truthy ct) eqn:Ht.
  - destruct (get timeAdjustments ct); intros [= <-]; reflexivity.
  - intros [= <-].
    destruct (get timeAdjustments ct) as [a| |] eqn:Hg; try reflexivity.
    apply (truthy_key _ _ _ (proj1 table_keys_truthy)) in Hg. congruence.
Qed.

Lemma dietary_step_result (r1 r2 : recipe) (d : jsstring) :
  (if truthy d then applyDietaryRestrictions r1 d else Some r1) = Some r2 ->
  applyDietaryRestrictions r1 d = Some r2.
Proof.
  destruct (truthy d) eqn:Ht; [auto|].
  intros [= <-]. unfold applyDietaryRestrictions.
  destruct (get restrictions d) as [a| |] eqn:Hg.
  - apply (truthy_key _ _ _ (proj1 (proj2 table_keys_truthy))) in Hg.
    congruence.
  - destruct d; [vm_compute in Hg|]; discriminate.
  - reflexivity.
Qed.

Lemma skill_step_result (r2 r3 : recipe) (sk : jsstring) :
  (if truthy sk
   then d ← adjustDifficulty (difficulty r2) sk; Some (set_difficulty r2 d)
   else Some r2) = Some r3 ->
  r3 = match get levelMap sk with
       | Own d => set_difficulty r2 d
       | _ => r2
       end.
Proof.
  unfold adjustDifficulty. destruct (truthy sk) eqn:Ht.
  - destruct (get levelMap sk); cbn; intros H; try discriminate H;
      injection H as <-; try reflexivity.
    destruct r2; reflexivity.
  - intros [= <-].
    destruct (get levelMap sk) as [a| |] eqn:Hg; try reflexivity.
    apply (truthy_key _ _ _ (proj2 (proj2 table_keys_truthy))) in Hg.
    congruence.
Qed.

(** The substitutions of one restriction leave the number of entries as it
    is, and leave every entry alone that contains none of the restriction's
    [from] terms. *)
Lemma substitutions_frame (subs : list substitution) (l : list jsstring) :
  let l' :=
    fold_left
      (fun acc s =>
         map (fun ingredient =>
                if includes ingredient (from s)
                then String_replace ingredient (from s) (to s)
                else ingredient) acc)
      subs l in
  length l' = length l
  /\ forall i entry,
       l !! i = Some entry ->
       Forall (fun s => includes entry (from s) = false) subs ->
       l' !! i = Some entry.
Proof.
  revert l. induction subs as [|s subs IH]; intros l; cbn [fold_left].
  - split; [reflexivity|auto].
  - destruct (IH (map (fun ingredient =>
                         if includes ingredient (from s)
                         then String_replace ingredient (from s) (to s)
                         else ingredient) l)) as [Hlen Hkeep].
    split.
    + rewrite Hlen. apply length_map.
    + intros i entry Hi Hall.
      apply List.Forall_cons_iff in Hall as [Hs Hall].
      apply Hkeep; [|exact Hall].
      rewrite list_lookup_fmap, Hi. cbn. rewrite Hs. reflexivity.
Qed.

(** X5.  The dietary step: for a value that is no key of the table the
    recipe comes back as it is; for a key the title gets the value in
    parentheses, the list keeps its length, every entry that contains none
    of the restriction's [from] terms is kept as it is, and nothing else of
    the recipe changes. *)
Theorem applyDietaryRestrictions_effect (r r' : recipe) (d : jsstring) :
  applyDietaryRestrictions r d = Some r' ->
  length (ingredients r') = length (ingredients r)
  /\ (get restrictions d = Undefined -> r' = r)
  /\ (forall rs,
        get restrictions d = Own rs ->
        name r' = name r ++ js " (" ++ d ++ js ")"
        /\ r' = set_name (set_ingredients r (ingredients r')) (name r')
        /\ forall i entry,
             ingredients r !! i = Some entry ->
             Forall (fun s => includes entry (from s) = false) (replace rs) ->
             ingredients r' !! i = Some entry).
Proof.
  unfold applyDietaryRestrictions.
  destruct (get restrictions d) as [rs| |]; [| discriminate |].
  - intros [= <-].
    destruct (substitutions_frame (replace rs) (ingredients r)) as [Hlen Hkeep].
    cbv zeta in Hlen, Hkeep.
    split; [exact Hlen|]. split; [discriminate|].
    intros rs' [= <-]. split; [reflexivity|]. split; [reflexivity|].
    exact Hkeep.
  - intros [= <-]. split; [reflexivity|]. split; [reflexivity|].
    intros rs; discriminate.
Qed.

Lemma customizeRecipe_frame (r r' : recipe) (fd : formData)
    (toks : list jsstring) :
  customizeRecipe toLowerCase r fd toks = Some r' ->
  description r' = description r
  /\ servings r' = servings r
  /\ instructions r' = instructions r
  /\ tips r' = tips r
  /\ nutrition r' = nutrition r
  /\ forall fd' r'',
       customizeRecipe toLowerCase r fd' toks = Some r'' ->
       ingredients r'' = ingredients r'.
Proof.
  intros H.
  pose proof (customizeRecipe_ingredients toLowerCase r r' fd toks H) as Hi.
  apply customizeRecipe_steps in H
    as (r1 & r2 & r3 & nm & H1 & H2 & H3 & _ & ->).
  apply adjustTimes_result in H1. apply dietary_step_result in H2.
  apply skill_step_result in H3.
  assert (Hd : description r2 = description r1 /\ servings r2 = servings r1
               /\ instructions r2 = instructions r1 /\ tips r2 = tips r1
               /\ nutrition r2 = nutrition r1).
  { unfold applyDietaryRestrictions in H2.
    destruct (get restrictions (dietary fd)); [| discriminate |];
      injection H2 as <-; repeat split. }
  destruct Hd as (Hd1 & Hd2 & Hd3 & Hd4 & Hd5).
  assert (H31 : description r3 = description r2 /\ servings r3 = servings r2
                /\ instructions r3 = instructions r2 /\ tips r3 = tips r2
                /\ nutrition r3 = nutrition r2)
    by (subst r3; destruct (get levelMap (skillLevel fd)); repeat split).
  assert (H11 : description r1 = description r /\ servings r1 = servings r
                /\ instructions r1 = instructions r /\ tips r1 = tips r
                /\ nutrition r1 = nutrition r)
    by (subst r1; destruct (get timeAdjustments (cookingTime fd));
        repeat split).
  destruct H31 as (? & ? & ? & ? & ?). destruct H11 as (? & ? & ? & ? & ?).
  cbn [description servings instructions tips nutrition set_ingredients
       set_name].
  repeat split; try congruence.
  intros fd' r'' H'.
  rewrite (customizeRecipe_ingredients toLowerCase r r'' fd' toks H').
  reflexivity.
Qed.

(** X6.  Whatever the options, the customizer keeps description, servings,
    instructions, tips and nutrition of the recipe it is given, and its
    ingredient list is the same for all options. *)
Theorem customizeRecipe_keeps_the_rest (r r' : recipe) (fd : formData)
    (toks : list jsstring) :
  customizeRecipe toLowerCase r fd toks = Some r' ->
  description r' = description r
  /\ servings r' = servings r
  /\ instructions r' = instructions r
  /\ tips r' = tips r
  /\ nutrition r' = nutrition r
  /\ forall fd' r'',
       customizeRecipe toLowerCase r fd' toks = Some r'' ->
       ingredients r'' = ingredients r'.
Proof. apply customizeRecipe_frame. Qed.

(** X7.  The times of the result are those of the table when the cooking
    time is one of its four keys and those of the recipe otherwise; the
    difficulty is the one mapped to the skill level when it is one of the
    three known levels and the recipe's otherwise.  The dietary and emoji
    steps change neither. *)
Theorem customizeRecipe_times_and_difficulty (r r' : recipe) (fd : formData)
    (toks : list jsstring) :
  customizeRecipe toLowerCase r fd toks = Some r' ->
  (prepTime r', cookTime r', totalTime r')
  = match get timeAdjustments (cookingTime fd) with
    | Own a => (prep a, cook a, total a)
    | _ => (prepTime r, cookTime r, totalTime r)
    end
  /\ difficulty r'
     = match get levelMap (skillLevel fd) with
       | Own d => d
       | _ => difficulty r
       end.
Proof.
  intros H.
  apply customizeRecipe_steps in H
    as (r1 & r2 & r3 & nm & H1 & H2 & H3 & _ & ->).
  apply adjustTimes_result in H1. apply dietary_step_result in H2.
  apply skill_step_result in H3.
  assert (Hd : prepTime r2 = prepTime r1 /\ cookTime r2 = cookTime r1
               /\ totalTime r2 = totalTime r1
               /\ difficulty r2 = difficulty r1).
  { unfold applyDietaryRestrictions in H2.
    destruct (get restrictions (dietary fd)); [| discriminate |];
      injection H2 as <-; repeat split. }
  destruct Hd as (Hp & Hc & Ht & Hdiff).
  cbn [prepTime cookTime totalTime difficulty set_ingredients set_name].
  split.
  - assert (H3t : prepTime r3 = prepTime r2 /\ cookTime r3 = cookTime r2
                  /\ totalTime r3 = totalTime r2)
      by (subst r3; destruct (get levelMap (skillLevel fd)); repeat split).
    destruct H3t as (-> & -> & ->). rewrite Hp, Hc, Ht. subst r1.
    destruct (get timeAdjustments (cookingTime fd)); reflexivity.
  - subst r3.
    assert (Hr1 : difficulty r1 = difficulty r)
      by (subst r1; destruct (get timeAdjustments (cookingTime fd));
          reflexivity).
    destruct (get levelMap (skillLevel fd));
      cbn [difficulty set_difficulty]; congruence.
Qed.

(** X8.  The title of the result is built from the recipe's title in two
    steps.  The dietary value is added in parentheses when it is a key of
    the restriction table.  Then, when the title so far passes the marker
    test it is returned as it is, and otherwise the marker of the cuisine
    (the default marker when the cuisine is no key of the marker table) and
    a space are put in front.  The result always passes the marker test. *)
Theorem customizeRecipe_title (r r' : recipe) (fd : formData)
    (toks : list jsstring) :
  customizeRecipe toLowerCase r fd toks = Some r' ->
  let titled :=
    name r ++ match get restrictions (dietary fd) with
              | Own _ => js " (" ++ dietary fd ++ js ")"
              | _ => []
              end in
  matches_marker_class (name r') = true
  /\ (exists prefix,
        name r' = prefix ++ titled
        /\ (prefix = [] \/ exists e, In e markers /\ prefix = e ++ js " "))
  /\ name r'
     = (if matches_marker_class titled then titled
        else match get cuisineEmojis (cuisine fd) with
             | Own emoji => emoji
             | _ => js "🍳"
             end ++ js " " ++ titled).
Proof.
  intros H titled.
  apply customizeRecipe_steps in H
    as (r1 & r2 & r3 & nm & H1 & H2 & H3 & H4 & ->).
  apply adjustTimes_result in H1. apply dietary_step_result in H2.
  apply skill_step_result in H3.
  assert (Hn1 : name r1 = name r)
    by (subst r1; destruct (get timeAdjustments (cookingTime fd)); reflexivity).
  assert (Hn2 : name r2
                = name r1 ++ match get restrictions (dietary fd) with
                             | Own _ => js " (" ++ dietary fd ++ js ")"
                             | _ => []
                             end).
  { unfold applyDietaryRestrictions in H2.
    destruct (get restrictions (dietary fd)); [| discriminate |];
      injection H2 as <-; [reflexivity|]. now rewrite app_nil_r. }
  assert (Hn3 : name r3 = name r2)
    by (subst r3; destruct (get levelMap (skillLevel fd)); reflexivity).
  assert (Ht : titled = name r3).
  { subst titled. rewrite Hn3, Hn2, Hn1. reflexivity. }
  cbn [name set_ingredients set_name]. rewrite Ht. clear Ht titled.
  pose proof browser_emojis as Hall. rewrite List.Forall_forall in Hall.
  unfold cuisineEmojiStep in H4.
  destruct (matches_marker_class (name r3)) eqn:Hm.
  - injection H4 as <-. split; [exact Hm|]. split; [|reflexivity].
    exists []. auto.
  - assert (He : exists e, In e (js "🍳" :: map snd cuisineEmojis)
                           /\ e = match get cuisineEmojis (cuisine fd) with
                                  | Own emoji => emoji
                                  | _ => js "🍳"
                                  end
                           /\ nm = e ++ js " " ++ name r3).
    { destruct (get cuisineEmojis (cuisine fd)) as [e| |] eqn:Hg;
        [| discriminate |]; injection H4 as <-.
      - exists e. split; [right; exact (get_own_in _ _ _ Hg)|].
        split; reflexivity.
      - exists (js "🍳"). split; [left; reflexivity|]. split; reflexivity. }
    destruct He as (e & Hin & Heq & ->). destruct (Hall e Hin) as [Hcls Hmk].
    split; [apply matches_marker_class_app; exact Hcls|].
    split; [|subst e; reflexivity].
    exists (e ++ js " "). split; [now rewrite <- app_assoc|].
    right. exists e. auto.
Qed.

Lemma startsWith_self_app (t x : jsstring) : startsWith (t ++ x) t = true.
Proof.
  induction t as [|a t IH]; [reflexivity|].
  cbn. rewrite N.eqb_refl. exact IH.
Qed.

Lemma isAlreadyIncluded_app (l x : list jsstring) (t : jsstring) :
  isAlreadyIncluded toLowerCase l t = true ->
  isAlreadyIncluded toLowerCase (l ++ x) t = true.
Proof.
  unfold isAlreadyIncluded. intros H. rewrite existsb_app, H. reflexivity.
Qed.

Lemma isAlreadyIncluded_after (toks l : list jsstring) (t : jsstring) :
  isAlreadyIncluded toLowerCase l t = true ->
  isAlreadyIncluded toLowerCase (addUserIngredients toLowerCase l toks) t
  = true.
Proof.
  intros H.
  destruct (addUserIngredients_shape toLowerCase toks l) as (added & -> & _).
  apply isAlreadyIncluded_app, H.
Qed.

(** X9.  When lower-casing leaves the tagged user ingredients as they are
    (they are lower case already), every user ingredient longer than two
    code units is covered by the final list: the customizer's own test finds
    it there, in an entry of the recipe or in the entry added for it or for
    an earlier ingredient. *)
Theorem long_ingredients_are_covered (l toks : list jsstring) :
  (forall t, In t toks -> toLowerCase (tagged t) = tagged t) ->
  forall t, In t toks -> (2 < length t)%nat ->
    isAlreadyIncluded toLowerCase (addUserIngredients toLowerCase l toks) t
    = true.
Proof.
  revert l. induction toks as [|t0 toks IH]; intros l Hlow t Hin Hlen;
    [destruct Hin|].
  change (addUserIngredients toLowerCase l (t0 :: toks))
    with (addUserIngredients toLowerCase
            (addUserIngredient toLowerCase l t0) toks).
  destruct Hin as [<-|Hin].
  - apply isAlreadyIncluded_after. unfold addUserIngredient.
    destruct (isAlreadyIncluded toLowerCase l t0) eqn:Hinc; cbn [negb andb];
      [exact Hinc|].
    apply Nat.ltb_lt in Hlen. rewrite Hlen.
    unfold isAlreadyIncluded. rewrite existsb_app. apply orb_true_iff. right.
    cbn [existsb]. fold (tagged t0).
    rewrite (Hlow t0 (or_introl eq_refl)). unfold tagged.
    rewrite (includes_startsWith _ _ (startsWith_self_app t0 _)). reflexivity.
  - apply IH; auto. intros t' Ht'. apply Hlow. right. exact Ht'.
Qed.

Lemma get_own_key {A : Type} (obj : list (jsstring * A)) (k : jsstring) (v : A) :
  get obj k = Own v -> exists key, In (key, v) obj /\ eqb_str key k = true.
Proof.
  unfold get. destruct (List.find _ obj) as [[key v']|] eqn:Hf.
  - intros [= <-]. apply find_some in Hf as [Hin Heq]. exists key. auto.
  - destruct (inherited_name k); discriminate.
Qed.

(** X10.  Whenever [createPrototypeRecipe] returns a recipe, that recipe is a
    template of the catalog it was given, customized: description and
    instructions are the template's and the ingredient list is the
    template's followed by tagged user ingredients, in the user's order.
    When the cuisine is a key of the catalog the template is one of that
    group (this is how a mexican template is reached); when it is no
    property name at all, or empty, the template is the matcher's choice
    among the four groups it walks. *)
Theorem createPrototypeRecipe_uses_a_template (recipes : templates)
    (drawn : nat) (fd : formData) (r' : recipe) :
  createPrototypeRecipeFrom toLowerCase recipes drawn fd = Some r' ->
  exists template,
    In template (korean recipes ++ italian recipes ++ asian recipes
                 ++ mexican recipes ++ default_ recipes)
    /\ (forall group,
          get (templates_object recipes) (cuisine fd) = Own group ->
          group !! drawn = Some template)
    /\ (get (templates_object recipes) (cuisine fd) = Undefined ->
        findBestMatchingRecipe toLowerCase
          (parseIngredients toLowerCase (form_ingredients fd)) recipes
        = Some template)
    /\ description r' = description template
    /\ instructions r' = instructions template
    /\ exists added,
         ingredients r' = ingredients template ++ map tagged added
         /\ sublist added (parseIngredients toLowerCase (form_ingredients fd)).
Proof.
  unfold createPrototypeRecipeFrom. intros H.
  destruct (if truthy (cuisine fd) then _ else _) as [template|] eqn:Hsel;
    [|discriminate]. cbn [mbind option_bind] in H.
  pose proof (customizeRecipe_frame _ _ _ _ H) as (Hd & _ & Hi & _).
  pose proof (customizeRecipe_ingredients toLowerCase _ _ _ _ H) as Hing.
  destruct (addUserIngredients_shape toLowerCase
              (parseIngredients toLowerCase (form_ingredients fd))
              (ingredients template)) as (added & Hshape & Hsub & _).
  assert (Hmatcher :
            findBestMatchingRecipe toLowerCase
              (parseIngredients toLowerCase (form_ingredients fd)) recipes
            = Some template ->
            In template (korean recipes ++ italian recipes ++ asian recipes
                         ++ mexican recipes ++ default_ recipes)).
  { intros Hm. apply findBestMatchingRecipe_in_allRecipes in Hm.
    unfold allRecipes in Hm. rewrite !in_app_iff in *. tauto. }
  exists template.
  assert (Hcases :
            In template (korean recipes ++ italian recipes ++ asian recipes
                         ++ mexican recipes ++ default_ recipes)
            /\ (forall group,
                  get (templates_object recipes) (cuisine fd) = Own group ->
                  group !! drawn = Some template)
            /\ (get (templates_object recipes) (cuisine fd) = Undefined ->
                findBestMatchingRecipe toLowerCase
                  (parseIngredients toLowerCase (form_ingredients fd)) recipes
                = Some template)).
  { destruct (truthy (cuisine fd)) eqn:Ht.
    - destruct (get (templates_object recipes) (cuisine fd))
        as [group| |] eqn:Hg; [| discriminate |].
      + split; [|split; [intros g [= <-]; exact Hsel|discriminate]].
        apply get_own_in in Hg. unfold templates_object in Hg.
        cbn [map snd In] in Hg.
        assert (Hin : In template group).
        { apply list_elem_of_In, list_elem_of_lookup. eauto. }
        rewrite !in_app_iff.
        destruct Hg as [<-|[<-|[<-|[<-|[<-|[]]]]]]; tauto.
      + split; [auto|]. split; [discriminate|]. intros _. exact Hsel.
    - split; [auto|]. split.
      + intros group Hg. apply get_own_key in Hg as (key & Hin & Heq).
        destruct (cuisine fd); [|discriminate Ht].
        unfold templates_object in Hin. cbn [In] in Hin.
        repeat (destruct Hin as [Hin|Hin];
                [injection Hin as <- _; vm_compute in Heq; discriminate Heq|]).
        destruct Hin.
      + intros _. exact Hsel. }
  destruct Hcases as (H1 & H2 & H3).
  repeat split; auto.
  exists added. rewrite Hing, Hshape. auto.
Qed.

End CustomizerFacts.

Lemma applyDietaryRestrictions_effect_witness :
  applyDietaryRestrictions kimchi_fried_rice (js "vegetarian")
  = Some vegetarian_kimchi_fried_rice
  /\ length (ingredients vegetarian_kimchi_fried_rice)
     = length (ingredients kimchi_fried_rice).
Proof.
  assert (H : applyDietaryRestrictions kimchi_fried_rice (js "vegetarian")
              = Some vegetarian_kimchi_fried_rice)
    by (vm_compute; reflexivity).
  split; [exact H|].
  exact (proj1 (applyDietaryRestrictions_effect kimchi_fried_rice
                  vegetarian_kimchi_fried_rice (js "vegetarian") H)).
Defined.

Lemma customizeRecipe_keeps_the_rest_witness :
  customizeRecipe toLowerCaseLatin kimchi_fried_rice quick_vegetarian_form
    [js "김치"; js "두부"]
  = Some customized_kimchi_fried_rice
  /\ description customized_kimchi_fried_rice = description kimchi_fried_rice.
Proof.
  assert (H : customizeRecipe toLowerCaseLatin kimchi_fried_rice
                quick_vegetarian_form [js "김치"; js "두부"]
              = Some customized_kimchi_fried_rice)
    by (vm_compute; reflexivity).
  split; [exact H|].
  exact (proj1 (customizeRecipe_keeps_the_rest toLowerCaseLatin
                  kimchi_fried_rice customized_kimchi_fried_rice
                  quick_vegetarian_form [js "김치"; js "두부"] H)).
Defined.

Lemma customizeRecipe_times_and_difficulty_witness :
  customizeRecipe toLowerCaseLatin kimchi_fried_rice quick_vegetarian_form
    [js "김치"; js "두부"]
  = Some customized_kimchi_fried_rice
  /\ difficulty customized_kimchi_fried_rice
     = match get levelMap (skillLevel quick_vegetarian_form) with
       | Own d => d
       | _ => difficulty kimchi_fried_rice
       end.
Proof.
  assert (H : customizeRecipe toLowerCaseLatin kimchi_fried_rice
                quick_vegetarian_form [js "김치"; js "두부"]
              = Some customized_kimchi_fried_rice)
    by (vm_compute; reflexivity).
  split; [exact H|].
  exact (proj2 (customizeRecipe_times_and_difficulty toLowerCaseLatin
                  kimchi_fried_rice customized_kimchi_fried_rice
                  quick_vegetarian_form [js "김치"; js "두부"] H)).
Defined.

Lemma customizeRecipe_title_witness :
  customizeRecipe toLowerCaseLatin kimchi_fried_rice quick_vegetarian_form
    [js "김치"; js "두부"]
  = Some customized_kimchi_fried_rice
  /\ matches_marker_class (name customized_kimchi_fried_rice) = true.
Proof.
  assert (H : customizeRecipe toLowerCaseLatin kimchi_fried_rice
                quick_vegetarian_form [js "김치"; js "두부"]
              = Some customized_kimchi_fried_rice)
    by (vm_compute; reflexivity).
  split; [exact H|].
  exact (proj1 (customizeRecipe_title toLowerCaseLatin
                  kimchi_fried_rice customized_kimchi_fried_rice
                  quick_vegetarian_form [js "김치"; js "두부"] H)).
Defined.

Lemma long_ingredients_are_covered_witness :
  isAlreadyIncluded toLowerCaseLatin
    (addUserIngredients toLowerCaseLatin (ingredients kimchi_fried_rice)
       [js "tomato sauce"; js "tomato"; js "tofu"])
    (js "tomato")
  = true.
Proof.
  apply (long_ingredients_are_covered toLowerCaseLatin
           (ingredients kimchi_fried_rice)
           [js "tomato sauce"; js "tomato"; js "tofu"]).
  - intros t [<-|[<-|[<-|[]]]]; vm_compute; reflexivity.
  - right. left. reflexivity.
  - vm_compute. lia.
Defined.

Lemma createPrototypeRecipe_uses_a_template_witness :
  createPrototypeRecipeFrom toLowerCaseLatin getRecipeTemplates 0
    quick_vegetarian_form
  = Some customized_kimchi_fried_rice
  /\ exists template,
       In template (korean getRecipeTemplates ++ italian getRecipeTemplates
                    ++ asian getRecipeTemplates ++ mexican getRecipeTemplates
                    ++ default_ getRecipeTemplates)
       /\ (forall group,
             get (templates_object getRecipeTemplates)
                 (cuisine quick_vegetarian_form) = Own group ->
             group !! 0%nat = Some template)
       /\ (get (templates_object getRecipeTemplates)
               (cuisine quick_vegetarian_form) = Undefined ->
           findBestMatchingRecipe toLowerCaseLatin
             (parseIngredients toLowerCaseLatin
                (form_ingredients quick_vegetarian_form)) getRecipeTemplates
           = Some template)
       /\ description customized_kimchi_fried_rice = description template
       /\ instructions customized_kimchi_fried_rice = instructions template
       /\ exists added,
            ingredients customized_kimchi_fried_rice
            = ingredients template ++ map tagged added
            /\ sublist added
                 (parseIngredients toLowerCaseLatin
                    (form_ingredients quick_vegetarian_form)).
Proof.
  assert (H : createPrototypeRecipeFrom toLowerCaseLatin getRecipeTemplates 0
                quick_vegetarian_form
              = Some customized_kimchi_fried_rice)
    by (vm_compute; reflexivity).
  split; [exact H|].
  exact (createPrototypeRecipe_uses_a_template toLowerCaseLatin
           getRecipeTemplates 0 quick_vegetarian_form
           customized_kimchi_fried_rice H).
Defined.

(** ** The limiter under any behaviour of the service *)

Local Open Scope Z_scope.

(** What one run of the limiter can do to the store, whatever the request
    and whatever the service does: the users table is never written, and at
    most the caller's record of the day changes, by a first record of count
    1 or by one more on a count below the quota; in both cases the request
    is handed over. *)
Lemma limiter_step (env : environment) (req : request) (w : world) :
  exists o w',
    recipeGenerationLimiter env req w = (o, w')
    /\ users (store w') = users (store w)
    /\ (forall k, k <> (identifier_of req, today env) ->
          recipe_usage (store w') !! k = recipe_usage (store w) !! k)
    /\ (recipe_usage (store w') !! (identifier_of req, today env)
        = recipe_usage (store w) !! (identifier_of req, today env)
        \/ handed_over o = true
           /\ default 0 (usage_count w (identifier_of req) (today env)) < 3
           /\ usage_count w' (identifier_of req) (today env)
              = Some (default 0 (usage_count w (identifier_of req) (today env))
                      + 1)).
Proof.
  unfold recipeGenerationLimiter.
  change (default (ip req) (truthy_id (user req))) with (identifier_of req).
  set (key := (identifier_of req, today env)).
  unfold mbind at 1. unfold M_bind at 1.
  assert (Hpc : exists e w1, premium_check env (user req) w = (e, w1)
                             /\ store w1 = store w).
  { unfold premium_check. destruct (truthy_id (user req)) as [id|];
      [|exists None, w; split; reflexivity].
    unfold mbind, M_bind, select_user.
    destruct (fault env (SelectUser id)); [eexists _, _; split; reflexivity|].
    destruct (users (store w) !! id) as [u|];
      [|eexists _, _; split; reflexivity].
    destruct (_ && _); eexists _, _; split; reflexivity. }
  destruct Hpc as (e & w1 & -> & Hs1).
  destruct e as [o|].
  { exists o, w1. rewrite Hs1. split; [reflexivity|]. auto. }
  unfold mbind at 1. unfold M_bind at 1. unfold select_usage.
  fold key. unfold usage_count. fold key. rewrite Hs1.
  assert (Hwrite : forall c (rec : option usage_row) (w2 : world),
            store w2 = store w ->
            (rec = None \/ rec = recipe_usage (store w) !! key) ->
            c = match rec with Some row => count row | None => 0 end ->
            c < 3 ->
            exists w',
              (match rec with
               | Some _ => update_usage env (identifier_of req) (today env)
                             (c + 1)
               | None => insert_usage env (identifier_of req) (today env) 1
                           (user req)
               end ≫= fun _ =>
                 mret (Next [("X-RateLimit-Remaining"%string,
                              HNumber (maxFreeRecipes - c - 1));
                             ("X-RateLimit-Limit"%string,
                              HNumber maxFreeRecipes);
                             ("X-RateLimit-Reset"%string,
                              HInstant (now env + 24 * 60 * 60 * 1000))])) w2
              = (Next [("X-RateLimit-Remaining"%string,
                        HNumber (maxFreeRecipes - c - 1));
                       ("X-RateLimit-Limit"%string, HNumber maxFreeRecipes);
                       ("X-RateLimit-Reset"%string,
                        HInstant (now env + 24 * 60 * 60 * 1000))], w')
              /\ users (store w') = users (store w)
              /\ (forall k, k <> key ->
                    recipe_usage (store w') !! k = recipe_usage (store w) !! k)
              /\ (recipe_usage (store w') !! key
                  = recipe_usage (store w) !! key
                  \/ default 0 (count <$> recipe_usage (store w) !! key) < 3
                     /\ count <$> recipe_usage (store w') !! key
                        = Some (default 0
                                  (count <$> recipe_usage (store w) !! key)
                                + 1))).
  { intros c rec w2 Hs2 Hrec Hc Hlt. unfold key in *.
    unfold mbind, M_bind, mret, M_ret.
    destruct rec as [row|].
    - destruct Hrec as [Hrec|Hrec]; [discriminate|].
      unfold update_usage.
      destruct (fault env _);
        [eexists; split; [reflexivity|]; cbn [store call]; rewrite ?Hs2; auto|].
      eexists. split; [reflexivity|].
      cbn [store call put users recipe_usage]. rewrite ?Hs2.
      split; [reflexivity|]. split.
      + intros k Hk. apply lookup_alter_ne.
        intros Heq. apply Hk. symmetry. exact Heq.
      + right. rewrite lookup_alter_eq, <- Hrec. cbn. subst c.
        split; [lia|reflexivity].
    - unfold insert_usage.
      destruct (fault env _);
        [eexists; split; [reflexivity|]; cbn [store call]; rewrite ?Hs2; auto|].
      cbn [store call]. rewrite Hs2.
      destruct (recipe_usage (store w) !! (identifier_of req, today env))
        as [row|] eqn:Hrow;
        [eexists; split; [reflexivity|]; cbn [store call]; rewrite ?Hs2; auto|].
      eexists. split; [reflexivity|].
      cbn [store call put users recipe_usage]. rewrite ?Hs2.
      split; [reflexivity|]. split.
      + intros k Hk. apply lookup_insert_ne.
        intros Heq. apply Hk. symmetry. exact Heq.
      + right. cbn. split; [lia|]. rewrite lookup_insert_eq. reflexivity. }
  assert (Hstop : forall (o : outcome) (w2 : world),
            store w2 = store w ->
            handed_over o = false ->
            exists o' w',
              (o, w2) = (o', w')
              /\ users (store w') = users (store w)
              /\ (forall k, k <> key ->
                    recipe_usage (store w') !! k = recipe_usage (store w) !! k)
              /\ (recipe_usage (store w') !! key
                  = recipe_usage (store w) !! key
                  \/ handed_over o' = true
                     /\ default 0 (count <$> recipe_usage (store w) !! key) < 3
                     /\ count <$> recipe_usage (store w') !! key
                        = Some (default 0
                                  (count <$> recipe_usage (store w) !! key)
                                + 1))).
  { intros o w2 Hs2 _. exists o, w2. rewrite Hs2. auto. }
  change maxFreeRecipes with 3 in *.
  destruct (fault env (SelectUsage (identifier_of req) (today env)))
    as [e|] eqn:Hfault.
  - destruct (negb (String.eqb (code e) "PGRST116")).
    + apply Hstop; [exact Hs1|reflexivity].
    + change (3 <=? 0) with false. cbn iota.
      destruct (Hwrite 0 None (call (SelectUsage (identifier_of req)
                                       (today env)) w1))
        as (w' & Hrun & Hrest); auto; [lia|].
      exists (Next [("X-RateLimit-Remaining"%string, HNumber (3 - 0 - 1));
                    ("X-RateLimit-Limit"%string, HNumber 3);
                    ("X-RateLimit-Reset"%string,
                     HInstant (now env + 24 * 60 * 60 * 1000))]), w'.
      split; [exact Hrun|].
      destruct Hrest as (Hu & Hk & Hc). repeat split; auto.
      destruct Hc as [Hc|Hc]; [left; exact Hc|right; auto].
  - destruct (recipe_usage (store w) !! key) as [row|] eqn:Hrow.
    + cbn [negb].
      destruct (Z.leb_spec 3 (count row)) as [Hge|Hlt].
      * apply Hstop; [exact Hs1|reflexivity].
      * destruct (Hwrite (count row) (Some row)
                    (call (SelectUsage (identifier_of req) (today env)) w1))
          as (w' & Hrun & Hrest); auto.
        exists (Next [("X-RateLimit-Remaining"%string,
                       HNumber (3 - count row - 1));
                      ("X-RateLimit-Limit"%string, HNumber 3);
                      ("X-RateLimit-Reset"%string,
                       HInstant (now env + 24 * 60 * 60 * 1000))]), w'.
        split; [exact Hrun|].
        destruct Hrest as (Hu & Hk & Hc). repeat split; auto.
        destruct Hc as [Hc|Hc]; [left; exact Hc|right; auto].
    + change (String.eqb (code no_rows) "PGRST116") with true. cbn [negb].
      change (3 <=? 0) with false. cbn iota.
      destruct (Hwrite 0 None (call (SelectUsage (identifier_of req)
                                       (today env)) w1))
        as (w' & Hrun & Hrest); auto; [lia|].
      exists (Next [("X-RateLimit-Remaining"%string, HNumber (3 - 0 - 1));
                    ("X-RateLimit-Limit"%string, HNumber 3);
                    ("X-RateLimit-Reset"%string,
                     HInstant (now env + 24 * 60 * 60 * 1000))]), w'.
      split; [exact Hrun|].
      destruct Hrest as (Hu & Hk & Hc). repeat split; auto.
      destruct Hc as [Hc|Hc]; [left; exact Hc|right; auto].
Qed.

(** X11.  Whatever the request and whatever the service does, one run of the
    limiter never writes the users table and leaves every usage record but
    the caller's record of the day as it was; that record either stays as it
    was, or the request is handed over and the stored count is one more than
    the count found, which was below the quota. *)
Theorem limiter_touches_only_the_callers_record (env : environment)
    (req : request) (w : world) :
  let o := fst (recipeGenerationLimiter env req w) in
  let w' := snd (recipeGenerationLimiter env req w) in
  let found := default 0 (usage_count w (identifier_of req) (today env)) in
  users (store w') = users (store w)
  /\ (forall identifier date,
        (identifier, date) <> (identifier_of req, today env) ->
        recipe_usage (store w') !! (identifier, date)
        = recipe_usage (store w) !! (identifier, date))
  /\ (recipe_usage (store w') !! (identifier_of req, today env)
      = recipe_usage (store w) !! (identifier_of req, today env)
      \/ handed_over o = true
         /\ found < 3
         /\ usage_count w' (identifier_of req) (today env) = Some (found + 1)).
Proof.
  destruct (limiter_step env req w) as (o & w' & -> & Hu & Hk & Hc).
  cbn [fst snd]. split; [exact Hu|]. split; [|exact Hc].
  intros identifier date. apply Hk.
Qed.

Lemma limiter_within_quota (env : environment) (req : request) (w : world) :
  within_quota w -> within_quota (snd (recipeGenerationLimiter env req w)).
Proof.
  intros Hq.
  destruct (limiter_step env req w) as (o & w' & -> & _ & Hk & Hc).
  cbn [snd]. intros k row Hrow.
  destruct (decide (k = (identifier_of req, today env))) as [->|Hne].
  - destruct Hc as [Hc|(_ & Hlt & Hc)].
    + apply (Hq (identifier_of req, today env)). rewrite <- Hc. exact Hrow.
    + unfold usage_count in Hc, Hlt. rewrite Hrow in Hc.
      cbn [fmap option_fmap option_map] in Hc. injection Hc as Hc. lia.
  - apply (Hq k). rewrite <- (Hk k Hne). exact Hrow.
Qed.

(** X12.  No stored count ever exceeds the quota: if every count is at most
    3 to start with, it is so after each of any requests served one after
    the other, from any callers, on any days, and whichever calls the
    service fails. *)
Theorem served_counts_stay_within_quota (reqs : list (environment * request))
    (w : world) :
  within_quota w ->
  Forall (fun ow => within_quota (snd ow)) (serve reqs w).
Proof.
  revert w. induction reqs as [|[env req] rest IH]; intros w Hq.
  - constructor.
  - cbn [serve].
    pose proof (limiter_within_quota env req w Hq) as Hq'.
    destruct (recipeGenerationLimiter env req w) as [o w'].
    constructor; [exact Hq'|]. apply IH. exact Hq'.
Qed.

Lemma last_cons {A : Type} (a d : A) (l : list A) :
  List.last (a :: l) d = List.last l a.
Proof.
  revert a d. induction l as [|b l IH]; intros a d; [reflexivity|].
  change (List.last (a :: b :: l) d) with (List.last (b :: l) d).
  rewrite !IH. reflexivity.
Qed.

(** X13.  Any number of requests from one free caller on one day, with the
    service failing no call and [c] the count stored at the start (0 without
    a record): request number [k] (from 0) is handed over exactly when
    [c + k < 3], and the count stored at the end is [c] plus the number of
    requests, capped at 3 (and [c] itself when it was already over). *)
Theorem free_caller_passes_until_quota (envs : list environment)
    (req : request) (w : world) (day : Z) :
  Forall (fun e => no_faults e /\ today e = day) envs ->
  free_caller (store w) req ->
  let c := default 0 (usage_count w (identifier_of req) day) in
  let served := serve (repeated req envs) w in
  passed served
  = map (fun k => c + Z.of_nat k <? 3) (seq 0 (length envs))
  /\ default 0 (usage_count (final_world w served) (identifier_of req) day)
     = Z.max c (Z.min 3 (c + Z.of_nat (length envs))).
Proof.
  intros Henvs. revert w.
  induction Henvs as [|env envs Henv _ IH]; intros w Hfree c served.
  - split; [reflexivity|]. cbn. fold c. lia.
  - destruct (serve_free env req w (identifier_of req) day c
                (repeated req envs) Henv (conj eq_refl Hfree) eq_refl)
      as (w' & Hrun & Hu & Hc).
    subst served. change (repeated req (env :: envs))
      with ((env, req) :: repeated req envs).
    rewrite Hrun.
    destruct (IH w' (free_caller_users _ _ req Hu Hfree)) as [IHa IHc].
    assert (Hc' : default 0 (usage_count w' (identifier_of req) day)
                  = if 3 <=? c then c else c + 1).
    { rewrite Hc. destruct (3 <=? c); reflexivity. }
    rewrite Hc' in IHa, IHc. clear Hc Hc'.
    unfold passed, final_world in *.
    cbn [map fst snd length seq]. rewrite last_cons.
    rewrite IHa, IHc, <- seq_shift, map_map.
    split.
    + f_equal.
      * destruct (Z.leb_spec 3 c), (Z.ltb_spec (c + Z.of_nat 0) 3);
          cbn [handed_over]; try reflexivity; lia.
      * apply map_ext. intros k.
        destruct (Z.leb_spec 3 c);
          repeat match goal with
                 | |- context [?a <? ?b] => destruct (Z.ltb_spec a b)
                 end; try reflexivity; lia.
    + destruct (Z.leb_spec 3 c); lia.
Qed.

(** X14.  The limiter's answer is a function of two rows: in two stores
    that hold the same users row for the caller and the same usage record
    for the caller and the day, the same request at the same instant gets
    the same answer, whatever else the stores hold (records of other days or
    of other callers among it). *)
Theorem limiter_answer_depends_on_two_rows (env : environment)
    (req : request) (w1 w2 : world) :
  (forall id, truthy_id (user req) = Some id ->
     users (store w1) !! id = users (store w2) !! id) ->
  recipe_usage (store w1) !! (identifier_of req, today env)
  = recipe_usage (store w2) !! (identifier_of req, today env) ->
  fst (recipeGenerationLimiter env req w1)
  = fst (recipeGenerationLimiter env req w2).
Proof.
  intros Hu Hr.
  unfold recipeGenerationLimiter.
  change (default (ip req) (truthy_id (user req))) with (identifier_of req).
  unfold premium_check.
  unfold mbind, M_bind, mret, M_ret, select_user, select_usage, update_usage,
    insert_usage.
  destruct (truthy_id (user req)) as [id|].
  - rewrite <- (Hu id eq_refl).
    destruct (fault env (SelectUser id)); [reflexivity|].
    destruct (users (store w1) !! id) as [u|]; [|reflexivity].
    destruct (_ && _); [reflexivity|].
    cbn [store call]. rewrite <- Hr.
    destruct (fault env (SelectUsage _ _)) as [e|].
    + destruct (negb _); [reflexivity|].
      destruct (maxFreeRecipes <=? 0); [reflexivity|].
      destruct (fault env (InsertUsage _ _ _ _)); [reflexivity|].
      cbn [store call]. rewrite <- Hr.
      destruct (recipe_usage (store w1) !! _); reflexivity.
    + destruct (recipe_usage (store w1) !! _) as [row|] eqn:Hrow.
      * cbn [negb]. destruct (maxFreeRecipes <=? count row); [reflexivity|].
        destruct (fault env (UpdateUsage _ _ _)); reflexivity.
      * destruct (negb _); [reflexivity|].
        destruct (maxFreeRecipes <=? 0); [reflexivity|].
        destruct (fault env (InsertUsage _ _ _ _)); [reflexivity|].
        cbn [store call]. rewrite <- Hr, Hrow. reflexivity.
  - cbn [store call]. rewrite <- Hr.
    destruct (fault env (SelectUsage _ _)) as [e|].
    + destruct (negb _); [reflexivity|].
      destruct (maxFreeRecipes <=? 0); [reflexivity|].
      destruct (fault env (InsertUsage _ _ _ _)); [reflexivity|].
      cbn [store call]. rewrite <- Hr.
      destruct (recipe_usage (store w1) !! _); reflexivity.
    + destruct (recipe_usage (store w1) !! _) as [row|] eqn:Hrow.
      * cbn [negb]. destruct (maxFreeRecipes <=? count row); [reflexivity|].
        destruct (fault env (UpdateUsage _ _ _)); reflexivity.
      * destruct (negb _); [reflexivity|].
        destruct (maxFreeRecipes <=? 0); [reflexivity|].
        destruct (fault env (InsertUsage _ _ _ _)); [reflexivity|].
        cbn [store call]. rewrite <- Hr, Hrow. reflexivity.
Qed.

(** X15.  A signed-in caller whose users row cannot be read, because the
    read fails or because there is no such row ([.single()] then reports an
    error), is answered 500 after that one call: the usage table is neither
    read nor written, and the request is not counted. *)
Theorem signed_in_caller_without_row_is_refused (env : environment)
    (req : request) (w : world) (id : string) :
  truthy_id (user req) = Some id ->
  is_Some (fault env (SelectUser id)) \/ users (store w) !! id = None ->
  recipeGenerationLimiter env req w
  = (Respond internal_server_error, call (SelectUser id) w)
  /\ status internal_server_error = 500.
Proof.
  intros Hid Hrow. split; [|reflexivity].
  unfold recipeGenerationLimiter, premium_check. rewrite Hid.
  unfold mbind, M_bind, mret, M_ret, select_user.
  destruct (fault env (SelectUser id)) as [e|]; [reflexivity|].
  destruct Hrow as [[e He]| ->]; [discriminate He|reflexivity].
Qed.

Lemma served_counts_stay_within_quota_witness :
  within_quota premium_world
  /\ Forall (fun ow => within_quota (snd ow))
       (serve [(reliable 1000, signed_in "u-2");
               (read_only 2000, anonymous "203.0.113.7");
               (usage_reads_fail 3000, signed_in "u-1");
               (reliable 90000000, anonymous "203.0.113.7")]
              premium_world).
Proof.
  assert (H : within_quota premium_world).
  { intros k row Hrow. unfold premium_world in Hrow.
    cbn [store recipe_usage] in Hrow.
    apply lookup_singleton_Some in Hrow as [_ <-]. cbn [count]. lia. }
  split; [exact H|].
  apply (served_counts_stay_within_quota _ premium_world H).
Defined.

Lemma free_caller_passes_until_quota_witness :
  let envs := [reliable 1000; reliable 2000; reliable 3000; reliable 4000;
               reliable 5000] in
  let req := anonymous "203.0.113.7" in
  Forall (fun e => no_faults e /\ today e = 0) envs
  /\ free_caller (store empty_world) req
  /\ passed (serve (repeated req envs) empty_world)
     = [true; true; true; false; false].
Proof.
  assert (H : Forall (fun e => no_faults e /\ today e = 0)
                [reliable 1000; reliable 2000; reliable 3000; reliable 4000;
                 reliable 5000]).
  { repeat constructor. }
  split; [exact H|]. split; [exact I|].
  exact (proj1 (free_caller_passes_until_quota _
                  (anonymous "203.0.113.7") empty_world 0 H I)).
Defined.

Lemma limiter_answer_depends_on_two_rows_witness :
  recipe_usage (store empty_world)
    !! (identifier_of (anonymous "203.0.113.7"), today (reliable 1000))
  = recipe_usage (store premium_world)
      !! (identifier_of (anonymous "203.0.113.7"), today (reliable 1000))
  /\ fst (recipeGenerationLimiter (reliable 1000) (anonymous "203.0.113.7")
            empty_world)
     = fst (recipeGenerationLimiter (reliable 1000) (anonymous "203.0.113.7")
              premium_world).
Proof.
  assert (H : recipe_usage (store empty_world)
                !! (identifier_of (anonymous "203.0.113.7"),
                    today (reliable 1000))
              = recipe_usage (store premium_world)
                  !! (identifier_of (anonymous "203.0.113.7"),
                      today (reliable 1000))).
  { vm_compute. reflexivity. }
  split; [exact H|].
  apply (limiter_answer_depends_on_two_rows (reliable 1000)
           (anonymous "203.0.113.7") empty_world premium_world).
  - intros id Hid. discriminate Hid.
  - exact H.
Defined.

Lemma signed_in_caller_without_row_is_refused_witness :
  truthy_id (user (signed_in "u-1")) = Some "u-1"%string
  /\ users (store empty_world) !! "u-1"%string = None
  /\ recipeGenerationLimiter (reliable 1000) (signed_in "u-1") empty_world
     = (Respond internal_server_error,
        call (SelectUser "u-1") empty_world).
Proof.
  split; [reflexivity|]. split; [reflexivity|].
  apply (signed_in_caller_without_row_is_refused (reliable 1000)
           (signed_in "u-1") empty_world "u-1").
  - reflexivity.
  - right. reflexivity.
Defined.

(** ** The authentication middlewares *)

Section AuthFacts.

Import RecipeRoute Auth.

Local Open Scope Z_scope.

(** X16.  [authenticateToken] and [optionalAuth] resolve the caller in the
    same way: where the first hands a request over, the second hands over
    the same request, with the user the token resolves to and the address
    untouched; where the first refuses, with status 401, the second passes
    the request on as it came. *)
Theorem authenticateToken_resolves_like_optionalAuth (svc : services)
    (req : request) :
  match authenticateToken svc req with
  | inr req' =>
    optionalAuth svc req = req'
    /\ (exists token, bearer_token req = Some token
                      /\ user req' = getUser svc token)
    /\ is_Some (user req')
    /\ ip req' = ip req
  | inl r => optionalAuth svc req = req /\ status r = 401
  end.
Proof.
  unfold authenticateToken, optionalAuth, bearer_token.
  destruct (authorization req) as [authHeader|]; cbn [mbind option_bind];
    [|split; reflexivity].
  destruct (truthy authHeader); [|split; reflexivity].
  destruct (split_on (N.eqb 32) authHeader !! 1%nat) as [token|];
    cbn [mbind option_bind]; [|split; reflexivity].
  destruct (truthy token); [|split; reflexivity].
  destruct (getUser svc token) as [id|] eqn:Hid; [|split; reflexivity].
  split; [reflexivity|]. split; [|split; [eexists|]; reflexivity].
  exists token. split; [reflexivity|]. cbn [user]. symmetry. exact Hid.
Qed.

(** How [authenticateToken] ends. *)
Lemma authenticateToken_cases (svc : services) (req : request) :
  match authenticateToken svc req with
  | inl r => r = no_token \/ r = invalid_token
  | inr req' =>
    exists token id,
      bearer_token req = Some token
      /\ getUser svc token = Some id
      /\ req' = {| user := Some id; ip := ip req;
                   authorization := authorization req |}
  end.
Proof.
  unfold authenticateToken.
  destruct (bearer_token req) as [token|]; [|left; reflexivity].
  destruct (getUser svc token) as [id|] eqn:Hid; [|right; reflexivity].
  exists token, id. auto.
Qed.

(** [requirePremium] issues one read of the caller's row and writes
    nothing. *)
Lemma requirePremium_cases (env : environment) (req : request) (w : world) :
  match user req with
  | None => requirePremium env req w = (Respond auth_required, w)
  | Some id =>
    exists o,
      requirePremium env req w = (o, call (SelectUser id) w)
      /\ (o = Next []
          /\ fault env (SelectUser id) = None
          /\ (exists u, users (store w) !! id = Some u /\ is_premium u = true)
          \/ o = Respond premium_required
             /\ fault env (SelectUser id) = None
             /\ (exists u, users (store w) !! id = Some u
                           /\ is_premium u = false)
          \/ o = Respond internal_server_error
             /\ (is_Some (fault env (SelectUser id))
                 \/ users (store w) !! id = None))
  end.
Proof.
  unfold requirePremium. destruct (user req) as [id|]; [|reflexivity].
  unfold mbind, M_bind, mret, M_ret, select_user.
  destruct (fault env (SelectUser id)) as [e|] eqn:Hf.
  - eexists. split; [reflexivity|]. right. right. split; [reflexivity|].
    left. eexists. reflexivity.
  - destruct (users (store w) !! id) as [u|] eqn:Hu.
    + destruct (is_premium u) eqn:Hprem.
      * pose proof Hprem as Hboth. unfold is_premium in Hboth.
        apply andb_prop in Hboth as [Hstatus Htier].
        rewrite Hstatus, Htier. cbn [negb orb].
        eexists. split; [reflexivity|]. left.
        split; [reflexivity|]. split; [reflexivity|]. exists u.
        split; [reflexivity|exact Hprem].
      * assert (Hneg : negb (String.eqb (subscription_status u) "active")
                       || negb (String.eqb (subscription_tier u) "premium")
                       = true).
        { rewrite <- negb_andb. unfold is_premium in Hprem. rewrite Hprem.
          reflexivity. }
        rewrite Hneg.
        eexists. split; [reflexivity|]. right. left.
        split; [reflexivity|]. split; [reflexivity|]. exists u.
        split; [reflexivity|exact Hprem].
    + eexists. split; [reflexivity|]. right. right. split; [reflexivity|].
      right. reflexivity.
Qed.

(** X17.  The handler of [POST /cancel] is reached only with a bearer token
    that the identity service resolves to a user whose row says active and
    premium, and then after exactly one read of that row.  Every other
    request is answered 401, 403 or 500.  In no case is the store written. *)
Theorem cancel_is_reached_only_by_premium_subscribers (env : environment)
    (svc : services) (req : request) (w : world) :
  match cancel_guards env svc req w with
  | (inr req', w') =>
    exists token id u,
      bearer_token req = Some token
      /\ getUser svc token = Some id
      /\ user req' = Some id
      /\ users (store w) !! id = Some u
      /\ is_premium u = true
      /\ w' = call (SelectUser id) w
  | (inl r, w') => In (status r) [401; 403; 500] /\ store w' = store w
  end.
Proof.
  unfold cancel_guards.
  pose proof (authenticateToken_cases svc req) as Ha.
  destruct (authenticateToken svc req) as [r|req'].
  - cbn. split; [|reflexivity]. destruct Ha as [-> | ->]; cbn; auto.
  - destruct Ha as (token & id & Htok & Hid & ->).
    unfold mbind, M_bind, mret, M_ret.
    pose proof (requirePremium_cases env
                  {| user := Some id; ip := ip req;
                     authorization := authorization req |} w) as Hp.
    cbn [user] in Hp. destruct Hp as (o & -> & Hp).
    destruct Hp as [(-> & Hf & u & Hu & Hprem)
                   |[(-> & _)|(-> & _)]].
    + exists token, id, u. repeat split; auto.
    + cbn. auto.
    + cbn. auto.
Qed.

(** X18.  For a caller with a non-empty user id, [requirePremium] and the
    limiter's premium check agree: the first hands the request over exactly
    when the limiter lets it pass uncounted, and where the first answers 500
    so does the limiter.  (For the empty id they differ: the limiter treats
    the caller as anonymous, [requirePremium] looks the id up.) *)
Theorem requirePremium_agrees_with_the_limiter (env : environment)
    (req : request) (w : world) (id : string) :
  truthy_id (user req) = Some id ->
  (handed_over (fst (requirePremium env req w)) = true
   <-> recipeGenerationLimiter env req w = (Next [], call (SelectUser id) w))
  /\ (fst (requirePremium env req w) = Respond internal_server_error ->
      recipeGenerationLimiter env req w
      = (Respond internal_server_error, call (SelectUser id) w)).
Proof.
  intros Hid.
  assert (Hu : user req = Some id).
  { unfold truthy_id in Hid. destruct (user req) as [s|]; [|discriminate].
    destruct (String.eqb s ""); [discriminate|]. exact Hid. }
  pose proof (requirePremium_cases env req w) as Hp. rewrite Hu in Hp.
  destruct Hp as (o & Hrun & Hp). rewrite Hrun. cbn [fst].
  unfold recipeGenerationLimiter, premium_check. rewrite Hid.
  unfold mbind, M_bind, mret, M_ret, select_user, select_usage, update_usage,
    insert_usage.
  destruct Hp as [(-> & Hf & u & Hrow & Hprem)
                 |[(-> & Hf & u & Hrow & Hprem)|(-> & Hbad)]].
  - rewrite Hf, Hrow. unfold is_premium in Hprem. rewrite Hprem.
    split; [split; reflexivity|discriminate].
  - rewrite Hf, Hrow. unfold is_premium in Hprem. rewrite Hprem.
    split; [|discriminate]. split; [discriminate|].
    repeat match goal with
           | |- context [match ?x with _ => _ end] => destruct x
           end; discriminate.
  - destruct (fault env (SelectUser id)) as [e|] eqn:Hf.
    + split; [split; discriminate|intros _; reflexivity].
    + destruct Hbad as [[e He]|Hrow]; [discriminate He|]. rewrite Hrow.
      split; [split; discriminate|intros _; reflexivity].
Qed.

End AuthFacts.

Lemma requirePremium_agrees_with_the_limiter_witness :
  truthy_id (user (signed_in "u-1")) = Some "u-1"%string
  /\ (handed_over (fst (Auth.requirePremium (reliable 1000) (signed_in "u-1")
                          premium_world)) = true
      <-> recipeGenerationLimiter (reliable 1000) (signed_in "u-1")
            premium_world
          = (Next [], call (SelectUser "u-1") premium_world)).
Proof.
  split; [reflexivity|].
  exact (proj1 (requirePremium_agrees_with_the_limiter (reliable 1000)
                  (signed_in "u-1") premium_world "u-1" eq_refl)).
Defined.

(** ** The recipe route after the limiter *)

Section MoreRouteFacts.

Import RecipeRoute.

Variable isLength : jsstring -> nat -> nat -> bool.







(** Validation fails on a skill level that is none of the three levels. *)
Lemma skill_level_is_validated (svc : services)
    (fd : formData) :
  isIn (skillLevel fd) [js "beginner"; js "intermediate"; js "advanced"]
  = false ->
  exists errors,
    generate_recipe_handler isLength svc (callRecipeAPI_body fd)
    = validation_failed errors
    /\ In ("skillLevel"%string, "Invalid skill level"%string) errors.
Proof.
  intros Hskill.
  assert (Hin : In ("skillLevel"%string, "Invalid skill level"%string)
                   (recipeValidation isLength (callRecipeAPI_body fd))).
  { unfold recipeValidation. rewrite !in_app_iff. do 4 right.
    cbn [body_skillLevel callRecipeAPI_body]. unfold optional_in.
    rewrite Hskill. left. reflexivity. }
  unfold generate_recipe_handler.
  destruct (recipeValidation isLength (callRecipeAPI_body fd)) as [|e errors];
    [destruct Hin|].
  exists (e :: errors). auto.
Qed.

(** X20.  The body the browser posts carries all five form values as
    strings.  When the skill level is none of the three levels, as with the
    empty value of a field left alone, validation fails on it and the
    handler answers 400, whatever the other fields are. *)
Theorem browser_request_needs_a_skill_level (svc : services) (fd : formData) :
  isIn (skillLevel fd) [js "beginner"; js "intermediate"; js "advanced"]
  = false ->
  exists errors,
    generate_recipe_handler isLength svc (callRecipeAPI_body fd)
    = validation_failed errors
    /\ status (validation_failed errors) = 400%Z
    /\ In ("skillLevel"%string, "Invalid skill level"%string) errors.
Proof.
  intros Hskill.
  destruct (skill_level_is_validated svc fd Hskill)
    as (errors & Hrun & Hin).
  exists errors. auto.
Qed.

End MoreRouteFacts.


Lemma browser_request_needs_a_skill_level_witness :
  exists errors,
    RecipeRoute.generate_recipe_handler code_unit_length offline
      (callRecipeAPI_body no_options)
    = RecipeRoute.validation_failed errors
    /\ status (RecipeRoute.validation_failed errors) = 400%Z
    /\ In ("skillLevel"%string, "Invalid skill level"%string) errors.
Proof.
  apply (browser_request_needs_a_skill_level code_unit_length offline
           no_options).
  vm_compute. reflexivity.
Defined.

(** ** The webhook and the store *)

Section MoreWebhookFacts.

Import Subscription.

Local Open Scope Z_scope.

Lemma bind_tt_snd {A : Type} (m : M A) (w : world) :
  snd ((m ≫= fun _ => mret tt) w) = snd (m w).
Proof. unfold mbind, M_bind, mret, M_ret. destruct (m w). reflexivity. Qed.

(** The switch does nothing to the store, or issues one update of [users];
    at two instants it updates the same user and sets the same columns, and
    it leaves the tier and the start date alone unless the event is a
    completed checkout or a created or deleted subscription. *)
Lemma dispatch_shape (e1 e2 : environment) (sdk : stripe_sdk)
    (event : stripe_event) :
  (dispatch e1 sdk event = mret tt /\ dispatch e2 sdk event = mret tt)
  \/ exists id p1 p2,
       dispatch e1 sdk event = (update_user e1 id p1 ≫= fun _ => mret tt)
       /\ dispatch e2 sdk event = (update_user e2 id p2 ≫= fun _ => mret tt)
       /\ columns p1 = columns p2
       /\ (event_type event <> "checkout.session.completed"%string ->
           event_type event <> "customer.subscription.created"%string ->
           event_type event <> "customer.subscription.deleted"%string ->
           set_tier p1 = None /\ set_start_date p1 = None).
Proof.
  unfold dispatch.
  destruct (String.eqb_spec (event_type event) "checkout.session.completed")
    as [Ht|Hn1].
  { right. eexists _, _, _. split; [reflexivity|]. split; [reflexivity|].
    split; [reflexivity|]. intros Hn. contradiction. }
  destruct (String.eqb_spec (event_type event)
              "customer.subscription.created") as [Ht|Hn2].
  { unfold handleSubscriptionCreated.
    destruct (created (data_object event)) as [c|]; [|left; auto].
    destruct (current_period_end (data_object event)) as [e|]; [|left; auto].
    destruct (_ && _); [|left; auto].
    right. eexists _, _, _. split; [reflexivity|]. split; [reflexivity|].
    split; [reflexivity|]. intros _ Hn. contradiction. }
  destruct (String.eqb (event_type event) "customer.subscription.updated").
  { unfold handleSubscriptionUpdated.
    destruct (current_period_end (data_object event)) as [e|]; [|left; auto].
    destruct (valid_instant _); [|left; auto].
    right. eexists _, _, _. split; [reflexivity|]. split; [reflexivity|].
    split; [reflexivity|]. intros _ _ _. split; reflexivity. }
  destruct (String.eqb_spec (event_type event)
              "customer.subscription.deleted") as [Ht|Hn3].
  { right. eexists _, _, _. split; [reflexivity|]. split; [reflexivity|].
    split; [reflexivity|]. intros _ _ Hn. contradiction. }
  destruct (String.eqb (event_type event) "invoice.payment_succeeded").
  { unfold handlePaymentSucceeded.
    destruct (retrieve sdk _) as [subscription|]; [|left; auto].
    destruct (current_period_end subscription) as [e|]; [|left; auto].
    destruct (valid_instant _); [|left; auto].
    right. eexists _, _, _. split; [reflexivity|]. split; [reflexivity|].
    split; [reflexivity|]. intros _ _ _. split; reflexivity. }
  destruct (String.eqb (event_type event) "invoice.payment_failed");
    left; auto.
Qed.

(** An update of [users] leaves the usage table alone, neither adds nor
    removes a row, and changes no row but that of the user it names. *)
Lemma update_user_frame (env : environment) (id : option string)
    (p : user_patch) (w : world) :
  recipe_usage (store (snd (update_user env id p w)))
  = recipe_usage (store w)
  /\ (forall i, is_Some (users (store (snd (update_user env id p w))) !! i)
                <-> is_Some (users (store w) !! i))
  /\ (forall i, id <> Some i ->
        users (store (snd (update_user env id p w))) !! i
        = users (store w) !! i)
  /\ (forall i, users (store (snd (update_user env id p w))) !! i
                = users (store w) !! i
                \/ users (store (snd (update_user env id p w))) !! i
                   = apply_patch p <$> users (store w) !! i).
Proof.
  unfold update_user.
  destruct (fault env (UpdateUser id p));
    [cbn; repeat split; auto|].
  destruct id as [k|]; [|cbn; repeat split; auto].
  cbn [snd store put call users recipe_usage].
  split; [reflexivity|]. split; [|split].
  - intros i. destruct (decide (k = i)) as [->|Hne].
    + rewrite lookup_alter_eq, fmap_is_Some. reflexivity.
    + rewrite lookup_alter_ne by exact Hne. reflexivity.
  - intros i Hne. apply lookup_alter_ne. congruence.
  - intros i. destruct (decide (k = i)) as [->|Hne].
    + right. apply lookup_alter_eq.
    + left. apply lookup_alter_ne. exact Hne.
Qed.

(** X21.  Whatever is delivered to the webhook route, however many requests
    its limiter has counted, and whatever the service does, the usage table
    is left as it was, no users row is created or removed, and all users
    rows but at most one are left as they were. *)
Theorem webhook_alters_at_most_one_user_row (env : environment)
    (sdk : stripe_sdk) (counted : nat) (req : webhook_request) (w : world) :
  let w' := snd (webhook env sdk counted req w) in
  recipe_usage (store w') = recipe_usage (store w)
  /\ (forall id, is_Some (users (store w') !! id)
                 <-> is_Some (users (store w) !! id))
  /\ exists target : option string,
       forall id, target <> Some id ->
         users (store w') !! id = users (store w) !! id.
Proof.
  assert (Hsame : forall r : response,
             let w' := snd ((mret r : M response) w) in
             recipe_usage (store w') = recipe_usage (store w)
             /\ (forall id, is_Some (users (store w') !! id)
                            <-> is_Some (users (store w) !! id))
             /\ exists target : option string,
                  forall id, target <> Some id ->
                    users (store w') !! id = users (store w) !! id).
  { intros r. cbn. split; [reflexivity|]. split; [reflexivity|].
    exists None. reflexivity. }
  unfold webhook.
  destruct (webhookLimiter counted) as [r|]; [exact (Hsame r)|].
  unfold webhook_handler.
  destruct (constructEvent sdk (raw_body req) (stripe_signature req))
    as [[event|type|type|]|message].
  - rewrite (bind_then_ret (dispatch env sdk event) received w). cbn [snd].
    destruct (dispatch_shape env env sdk event)
      as [[-> _]|(id & p & _ & -> & _)]; [exact (Hsame received)|].
    rewrite bind_tt_snd.
    destruct (update_user_frame env id p w) as (Hr & Hd & Hk & _).
    split; [exact Hr|]. split; [exact Hd|]. exists id. exact Hk.
  - exact (Hsame received).
  - destruct (existsb _ _);
      [exact (Hsame processing_failed)|exact (Hsame received)].
  - exact (Hsame processing_failed).
  - exact (Hsame _).
Qed.

Lemma apply_patch_overwrites (p1 p2 : user_patch) (u : user_row) :
  columns p1 = columns p2 ->
  apply_patch p2 (apply_patch p1 u) = apply_patch p2 u.
Proof.
  destruct p1 as [a1 b1 c1 d1 f1], p2 as [a2 b2 c2 d2 f2].
  unfold columns, apply_patch.
  cbn [set_status set_tier set_start_date set_end_date set_updated_at
       subscription_status subscription_tier subscription_start_date
       subscription_end_date updated_at].
  intros H. injection H as Ha Hb Hc Hd Hf.
  destruct a1, a2; try discriminate Ha;
    destruct b1, b2; try discriminate Hb;
    destruct c1, c2; try discriminate Hc;
    destruct d1, d2; try discriminate Hd;
    destruct f1, f2; try discriminate Hf; reflexivity.
Qed.

(** X22.  Redelivery.  When an event is delivered again, at any later
    instant and with the service failing no call then, the store becomes
    what a single delivery at that second instant would have made it,
    whatever happened to the first delivery.  This holds for every event
    type; the provider's library is taken to answer both deliveries
    alike. *)
Theorem redelivery_is_a_single_late_delivery (e1 e2 : environment)
    (sdk : stripe_sdk) (event : stripe_event) (w : world) :
  no_faults e2 ->
  store (snd (dispatch e2 sdk event (snd (dispatch e1 sdk event w))))
  = store (snd (dispatch e2 sdk event w)).
Proof.
  intros Hnf.
  destruct (dispatch_shape e1 e2 sdk event)
    as [[-> ->]|(id & p1 & p2 & -> & -> & Hcols & _)]; [reflexivity|].
  rewrite !bind_tt_snd. unfold update_user at 1 3. rewrite Hnf.
  destruct id as [k|].
  - cbn [snd store put call users recipe_usage].
    unfold update_user.
    destruct (fault e1 (UpdateUser (Some k) p1)); [reflexivity|].
    cbn [snd store put call users recipe_usage]. f_equal.
    rewrite alter_alter_eq. apply alter_ext. intros u _.
    apply apply_patch_overwrites. exact Hcols.
  - cbn [snd store call]. unfold update_user.
    destruct (fault e1 (UpdateUser None p1)); reflexivity.
Qed.

(** X23.  Events other than a completed checkout and a created or deleted
    subscription (renewals, status changes, payments, unknown types) never
    change the tier or the start date of any user, whatever the service
    does. *)
Theorem renewal_events_keep_the_tier (env : environment) (sdk : stripe_sdk)
    (event : stripe_event) (w : world) (id : string) :
  ~ In (event_type event)
       ["checkout.session.completed"; "customer.subscription.created";
        "customer.subscription.deleted"]%string ->
  let w' := snd (dispatch env sdk event w) in
  subscription_tier <$> users (store w') !! id
  = subscription_tier <$> users (store w) !! id
  /\ subscription_start_date <$> users (store w') !! id
     = subscription_start_date <$> users (store w) !! id.
Proof.
  intros Hn. cbn [In] in Hn.
  destruct (dispatch_shape env env sdk event)
    as [[-> _]|(k & p & _ & -> & _ & _ & Hp)]; [split; reflexivity|].
  destruct Hp as [Htier Hstart];
    try (intros Heq; apply Hn; rewrite Heq; in_list).
  cbv zeta. rewrite bind_tt_snd.
  destruct (update_user_frame env k p w) as (_ & _ & _ & Hrow).
  destruct (Hrow id) as [-> | ->]; [split; reflexivity|].
  destruct (users (store w) !! id) as [u|]; [|split; reflexivity].
  cbn [fmap option_fmap option_map]. unfold apply_patch.
  cbn [subscription_tier subscription_start_date].
  rewrite Htier, Hstart. split; reflexivity.
Qed.

(** A signed-in caller whose row says active and premium passes the limiter
    after the one read of that row. *)
Lemma limiter_premium (env : environment) (req : request) (w : world)
    (id : string) (u : user_row) :
  truthy_id (user req) = Some id ->
  fault env (SelectUser id) = None ->
  users (store w) !! id = Some u ->
  is_premium u = true ->
  recipeGenerationLimiter env req w = (Next [], call (SelectUser id) w).
Proof.
  intros Hid Hf Hu Hp.
  unfold recipeGenerationLimiter, premium_check. rewrite Hid.
  unfold mbind, M_bind, mret, M_ret, select_user. rewrite Hf, Hu.
  unfold is_premium in Hp. rewrite Hp. reflexivity.
Qed.

(** X24.  From payment to quota.  After a completed checkout for the plan
    [premium], or a created subscription with well-formed dates, delivered
    while the service works for a user who has a row, the limiter lets that
    user's requests pass uncounted, whatever the row said before and however
    many requests were counted already. *)
Theorem paid_subscription_lifts_the_quota (e1 e2 : environment)
    (sdk : stripe_sdk) (event : stripe_event) (w : world) (req : request)
    (id : string) (u : user_row) :
  (event_type event = "checkout.session.completed"%string
   /\ metadata_plan (data_object event) = Some "premium"%string)
  \/ (event_type event = "customer.subscription.created"%string
      /\ exists c e,
           created (data_object event) = Some c
           /\ current_period_end (data_object event) = Some e
           /\ valid_instant (c * 1000) = true
           /\ valid_instant (e * 1000) = true) ->
  metadata_userId (data_object event) = Some id ->
  users (store w) !! id = Some u ->
  no_faults e1 ->
  truthy_id (user req) = Some id ->
  fault e2 (SelectUser id) = None ->
  let w1 := snd (dispatch e1 sdk event w) in
  recipeGenerationLimiter e2 req w1 = (Next [], call (SelectUser id) w1).
Proof.
  intros Hev Hid Hu Hnf Hreq Hf w1.
  assert (Hrow : exists u1, users (store w1) !! id = Some u1
                            /\ is_premium u1 = true).
  { subst w1. unfold dispatch.
    destruct Hev as [[Ht Hplan]|[Ht (c & e & Hc & He & Hvc & Hve)]];
      rewrite Ht.
    - change (String.eqb "checkout.session.completed"
                "checkout.session.completed") with true. cbn iota.
      unfold handleCheckoutSessionCompleted. rewrite bind_tt_snd.
      unfold update_user. rewrite Hnf, Hid, Hplan.
      cbn [snd store put call users recipe_usage].
      rewrite lookup_alter_eq, Hu. eexists. split; reflexivity.
    - change (String.eqb "customer.subscription.created"
                "checkout.session.completed") with false.
      change (String.eqb "customer.subscription.created"
                "customer.subscription.created") with true. cbn iota.
      unfold handleSubscriptionCreated. rewrite Hc, He, Hvc, Hve.
      cbn [andb]. rewrite bind_tt_snd.
      unfold update_user. rewrite Hnf, Hid.
      cbn [snd store put call users recipe_usage].
      rewrite lookup_alter_eq, Hu. eexists. split; reflexivity. }
  destruct Hrow as (u1 & Hu1 & Hp).
  exact (limiter_premium e2 req w1 id u1 Hreq Hf Hu1 Hp).
Qed.

(** X25.  From cancellation to quota.  After a deleted subscription,
    delivered while the service works for a user who has a row, that user is
    counted like any free caller: with [n] requests counted for the day, the
    next one is let through with the usual headers when [n] is below 3 and
    answered with the limit response otherwise. *)
Theorem deleted_subscription_is_counted_again (e1 e2 : environment)
    (sdk : stripe_sdk) (event : stripe_event) (w : world) (req : request)
    (id : string) (u : user_row) :
  event_type event = "customer.subscription.deleted"%string ->
  metadata_userId (data_object event) = Some id ->
  users (store w) !! id = Some u ->
  no_faults e1 -> no_faults e2 ->
  truthy_id (user req) = Some id ->
  let w1 := snd (dispatch e1 sdk event w) in
  let n := default 0 (usage_count w id (today e2)) in
  fst (recipeGenerationLimiter e2 req w1)
  = (if 3 <=? n then Respond (limit_reached n)
     else Next (rate_limit_headers e2 n)).
Proof.
  intros Ht Hid Hu Hnf1 Hnf2 Hreq w1 n.
  assert (Hident : identifier_of req = id).
  { unfold identifier_of. rewrite Hreq. reflexivity. }
  assert (Hw1 : users (store w1) !! id = Some (cancelled_at (now e1) u)
                /\ recipe_usage (store w1) = recipe_usage (store w)).
  { subst w1. rewrite (dispatch_deleted e1 sdk event Ht).
    split; [apply handleSubscriptionDeleted_row; assumption|].
    unfold handleSubscriptionDeleted. rewrite bind_tt_snd.
    apply update_user_frame. }
  destruct Hw1 as [Hrow Husage].
  assert (Hfree : free_caller (store w1) req).
  { unfold free_caller. rewrite Hreq. eexists. split; [exact Hrow|].
    reflexivity. }
  destruct (limiter_free e2 req w1 Hfree Hnf2) as (w2 & Hrun & _).
  cbv zeta in Hrun. rewrite Hrun. cbn [fst].
  rewrite Hident. unfold usage_count. rewrite Husage. reflexivity.
Qed.

End MoreWebhookFacts.

Lemma redelivery_is_a_single_late_delivery_witness :
  no_faults (reliable 2000)
  /\ store (snd (Subscription.dispatch (reliable 2000) toy_sdk creation_event
                   (snd (Subscription.dispatch (down 1000) toy_sdk
                           creation_event free_world))))
     = store (snd (Subscription.dispatch (reliable 2000) toy_sdk
                     creation_event free_world)).
Proof.
  assert (H : no_faults (reliable 2000)) by (intros o; reflexivity).
  split; [exact H|].
  exact (redelivery_is_a_single_late_delivery (down 1000) (reliable 2000)
           toy_sdk creation_event free_world H).
Defined.

Lemma renewal_events_keep_the_tier_witness :
  ~ In (Subscription.event_type past_due_event)
       ["checkout.session.completed"; "customer.subscription.created";
        "customer.subscription.deleted"]%string
  /\ subscription_tier
       <$> users (store (snd (Subscription.dispatch (reliable 1000) toy_sdk
                                past_due_event premium_world)))
             !! "u-1"%string
     = subscription_tier <$> users (store premium_world) !! "u-1"%string.
Proof.
  assert (H : ~ In (Subscription.event_type past_due_event)
                ["checkout.session.completed";
                 "customer.subscription.created";
                 "customer.subscription.deleted"]%string).
  { intros [H|[H|[H|[]]]]; discriminate H. }
  split; [exact H|].
  exact (proj1 (renewal_events_keep_the_tier (reliable 1000) toy_sdk
                  past_due_event premium_world "u-1" H)).
Defined.

Lemma paid_subscription_lifts_the_quota_witness :
  recipeGenerationLimiter (reliable 2000) (signed_in "u-1")
    (snd (Subscription.dispatch (reliable 1000) toy_sdk creation_event
            free_world))
  = (Next [],
     call (SelectUser "u-1")
       (snd (Subscription.dispatch (reliable 1000) toy_sdk creation_event
               free_world))).
Proof.
  apply (paid_subscription_lifts_the_quota (reliable 1000) (reliable 2000)
           toy_sdk creation_event free_world (signed_in "u-1") "u-1"
           free_row).
  - right. split; [reflexivity|]. exists 1%Z, 2%Z. repeat split; reflexivity.
  - reflexivity.
  - vm_compute. reflexivity.
  - intros o. reflexivity.
  - reflexivity.
  - reflexivity.
Defined.

Lemma deleted_subscription_is_counted_again_witness :
  fst (recipeGenerationLimiter (reliable 2000) (signed_in "u-1")
         (snd (Subscription.dispatch (reliable 1000) toy_sdk deletion_event
                 premium_world)))
  = Respond (limit_reached 3).
Proof.
  change (Respond (limit_reached 3))
    with (if (3 <=? default 0 (usage_count premium_world "u-1"
                               (today (reliable 2000))))%Z
          then Respond (limit_reached
                          (default 0 (usage_count premium_world "u-1"
                                        (today (reliable 2000)))))
          else Next (rate_limit_headers (reliable 2000)
                       (default 0 (usage_count premium_world "u-1"
                                     (today (reliable 2000)))))).
  apply (deleted_subscription_is_counted_again (reliable 1000)
           (reliable 2000) toy_sdk deletion_event premium_world
           (signed_in "u-1") "u-1" premium_row).
  - reflexivity.
  - reflexivity.
  - vm_compute. reflexivity.
  - intros o. reflexivity.
  - intros o. reflexivity.
  - reflexivity.
Defined.

(** ** The error handler *)

Section ErrorHandlerFacts.

Import ErrorHandler.

Local Open Scope Z_scope.






Lemma sendable_503 : sendable (or_status (Some 503) 500) = true.
Proof. reflexivity. Qed.




Lemma includes_nonempty (s t : jsstring) :
  includes s t = true -> t <> [] -> truthy s = true.
Proof.
  destruct s as [|a s]; [|reflexivity].
  destruct t as [|b t]; [congruence|]. cbn. discriminate.
Qed.

(** X27.  The last rule wins.  An error whose message contains [supabase]
    is answered 503 with the database message, whatever its code, name and
    type are: a duplicate key, a bad or expired token, a payment error or an
    exhausted AI quota are all reported as a database outage then.  (The
    hypothesis on a [ValidationError] excludes the throw of its own rule.) *)
Theorem errorHandler_supabase_rule_wins (development : bool) (err : js_error)
    (m : jsstring) :
  err_message err = Some m ->
  includes m (js "supabase") = true ->
  (has_name err "ValidationError" = true ->
   is_Some (validation_messages err)) ->
  errorHandler development err
  = Some {| eh_status := 503;
            eh_success := false;
            eh_error :=
              Message (js "Database service temporarily unavailable");
            eh_stack := if development then err_stack err else None |}.
Proof.
  intros Hm Hinc Hval.
  assert (Ht : truthy m = true).
  { apply (includes_nonempty m (js "supabase") Hinc). vm_compute.
    discriminate. }
  unfold errorHandler. rewrite Hm, Ht, Hinc. cbn [andb].
  assert (Hlast : truthy (js "Database service temporarily unavailable")
                  = true) by (vm_compute; reflexivity).
  destruct (has_name err "ValidationError").
  - destruct (Hval eq_refl) as [messages ->].
    cbn [mbind option_bind fst snd]. rewrite sendable_503, Hlast.
    reflexivity.
  - cbn [mbind option_bind fst snd]. rewrite sendable_503, Hlast.
    reflexivity.
Qed.

End ErrorHandlerFacts.

(** A [ValidationError] one of whose [errors] is [null] makes the handler
    throw. *)
Example errorHandler_throws_on_null_member :
  ErrorHandler.errorHandler false broken_validation_error = None.
Proof. vm_compute. reflexivity. Qed.

Lemma errorHandler_supabase_rule_wins_witness :
  ErrorHandler.errorHandler false expired_token_error
  = Some {| ErrorHandler.eh_status := 503;
            ErrorHandler.eh_success := false;
            ErrorHandler.eh_error :=
              ErrorHandler.Message
                (js "Database service temporarily unavailable");
            ErrorHandler.eh_stack := None |}.
Proof.
  apply (errorHandler_supabase_rule_wins false expired_token_error
           (js "jwt expired (supabase auth)")).
  - reflexivity.
  - vm_compute. reflexivity.
  - intros H. vm_compute in H. discriminate H.
Defined.

(** ** The browser's call of the recipe route *)

Section BrowserFacts.

Import RecipeRoute.

Variable isLength : jsstring -> nat -> nat -> bool.

Local Open Scope Z_scope.

(** The limiter answers a request itself only with 500 or with the limit
    response. *)
Lemma limiter_answers (env : environment) (req : request) (w : world)
    (r : response) :
  fst (recipeGenerationLimiter env req w) = Respond r ->
  r = internal_server_error \/ exists n, r = limit_reached n.
Proof.
  unfold recipeGenerationLimiter.
  unfold mbind at 1. unfold M_bind at 1.
  destruct (premium_check env (user req) w) as [[o|] w1] eqn:Hpc.
  - unfold mret, M_ret. cbn [fst]. intros ->.
    revert Hpc. unfold premium_check.
    destruct (truthy_id (user req)) as [id|]; [|intros H; discriminate H].
    unfold mbind, M_bind, mret, M_ret, select_user.
    destruct (fault env (SelectUser id)); [intros [= <- _]; auto|].
    destruct (users (store w) !! id) as [u|]; [|intros [= <- _]; auto].
    destruct (_ && _); intros H; discriminate H.
  - unfold mbind at 1. unfold M_bind at 1.
    destruct (select_usage env _ (today env) w1) as [[record error] w2].
    destruct (match error with Some _ => _ | None => _ end);
      [unfold mret, M_ret; intros [= <-]; auto|].
    destruct (maxFreeRecipes <=? _);
      [unfold mret, M_ret; intros [= <-]; eauto|].
    unfold mbind, M_bind, mret, M_ret.
    destruct record;
      [destruct (update_usage _ _ _ _ w2)|destruct (insert_usage _ _ _ _ _ w2)];
      intros H; discriminate H.
Qed.

(** X28.  The two kinds of 429.  When the limiter finds a free caller at the
    quota, the browser's call ends in the paywall, whatever the form holds.
    The 429 by which the handler reports the AI provider's own rate limit
    carries no [upgradeUrl]: on it the call throws, and the caller falls
    back to a prototype recipe. *)
Theorem two_kinds_of_429 (env : environment) (svc : services)
    (req : request) (b : request_body) (w : world) :
  (free_caller (store w) (optionalAuth svc req) ->
   no_faults env ->
   3 <= default 0 (usage_count w (identifier_of (optionalAuth svc req))
                     (today env)) ->
   callRecipeAPI_on (fst (generate_recipe_route isLength env svc req b w))
   = Paywall)
  /\ (recipeValidation isLength b = [] ->
      complete svc b = ApiError "rate_limit_exceeded" ->
      status (generate_recipe_handler isLength svc b) = 429
      /\ callRecipeAPI_on (generate_recipe_handler isLength svc b)
         = Thrown (Some (js "일일 레시피 생성 한도에 도달했습니다."))).
Proof.
  split.
  - intros Hfree Hnf Hquota.
    destruct (limiter_free env (optionalAuth svc req) w Hfree Hnf)
      as (w' & Hrun & _).
    cbv zeta in Hrun.
    destruct (Z.leb_spec 3
                (default 0 (usage_count w
                              (identifier_of (optionalAuth svc req))
                              (today env)))) as [_|Hlt]; [|lia].
    unfold generate_recipe_route, mbind, M_bind, mret, M_ret.
    rewrite Hrun. reflexivity.
  - intros Hvalid Hc. unfold generate_recipe_handler.
    rewrite Hvalid, Hc. split; reflexivity.
Qed.

(** X29.  A form whose skill level is none of the three levels never gets a
    recipe from the server: whoever the caller is, whatever the store holds
    and whatever the services do, the browser's call ends in the paywall or
    throws, and the caller falls back to a prototype recipe. *)
Theorem form_without_skill_level_gets_no_ai_recipe (env : environment)
    (svc : services) (req : request) (fd : formData) (w : world) :
  isIn (skillLevel fd) [js "beginner"; js "intermediate"; js "advanced"]
  = false ->
  let answer :=
    fst (generate_recipe_route isLength env svc req (callRecipeAPI_body fd) w)
  in
  In (status answer) [400; 429; 500]
  /\ (callRecipeAPI_on answer = Paywall
      \/ callRecipeAPI_on answer
         = Thrown (Some (js "API 호출에 실패했습니다."))).
Proof.
  intros Hskill answer. subst answer.
  unfold generate_recipe_route, mbind, M_bind, mret, M_ret.
  pose proof (limiter_answers env (optionalAuth svc req) w) as Hl.
  destruct (recipeGenerationLimiter env (optionalAuth svc req) w)
    as [[r|headers] w'].
  - cbn [fst] in *. destruct (Hl r eq_refl) as [-> | [n ->]].
    + split; [cbn; auto|]. right. reflexivity.
    + split; [cbn; auto|]. left. reflexivity.
  - cbn [fst].
    destruct (skill_level_is_validated isLength svc fd Hskill)
      as (errors & -> & _).
    split; [cbn; auto|]. right. reflexivity.
Qed.

End BrowserFacts.

Lemma two_kinds_of_429_witness :
  callRecipeAPI_on
    (fst (RecipeRoute.generate_recipe_route code_unit_length
            (reliable 1000) offline (anonymous "203.0.113.7") short_body
            (snd (recipeGenerationLimiter (reliable 900)
                    (anonymous "203.0.113.7")
                    (snd (recipeGenerationLimiter (reliable 800)
                            (anonymous "203.0.113.7")
                            (snd (recipeGenerationLimiter (reliable 700)
                                    (anonymous "203.0.113.7")
                                    empty_world))))))))
  = Paywall.
Proof.
  apply (proj1 (two_kinds_of_429 code_unit_length (reliable 1000) offline
                  (anonymous "203.0.113.7") short_body _)).
  - exact I.
  - intros o. reflexivity.
  - vm_compute. discriminate.
Defined.

Lemma form_without_skill_level_gets_no_ai_recipe_witness :
  In (status (fst (RecipeRoute.generate_recipe_route code_unit_length
                     (reliable 1000) terse_model (anonymous "203.0.113.7")
                     (callRecipeAPI_body no_options) empty_world)))
     [400; 429; 500]%Z.
Proof.
  apply (form_without_skill_level_gets_no_ai_recipe code_unit_length
           (reliable 1000) terse_model (anonymous "203.0.113.7") no_options
           empty_world).
  vm_compute. reflexivity.
Defined.
